(** * testcontainers-go: session lifecycle, log producer and reaper labels

    A shallow embedding of the parts of [docker.go] that carry the
    session lifecycle ([DockerContainer.Start], [Stop], [Terminate]),
    the log producer ([StartLogProducer], [StopLogProducer],
    [FollowOutput]) and the reaper-label merge of
    [DockerProvider.CreateContainer] and [DockerProvider.CreateNetwork].

    The Docker engine, the clock and the wait strategies are external:
    they are oracles (records of response functions), every call to them
    is recorded in a trace, and the theorems quantify over all oracles. *)

From Stdlib Require Import ZArith String Ascii Lia List.
From Stdlib.Strings Require Import Byte.
From Stdlib Require Import Decimal DecimalString DecimalPos DecimalN DecimalZ.
From stdpp Require Import base option list strings gmap.

Local Open Scope string_scope.

(* ===================================================================== *)
(** * Part I: definitions                                                 *)
(* ===================================================================== *)

(** ** Go values *)

(** A Go [error] is modelled by the text its [Error()] method returns. *)
Definition error := string.

(** [strings.HasPrefix] and [strings.Contains]. *)
Fixpoint HasPrefix (s prefix : string) : bool :=
  match prefix, s with
  | EmptyString, _ => true
  | String a p', String b s' => if Ascii.eqb a b then HasPrefix s' p' else false
  | String _ _, EmptyString => false
  end.

Fixpoint Contains (s substr : string) : bool :=
  HasPrefix s substr ||
  match s with
  | EmptyString => false
  | String _ s' => Contains s' substr
  end.

(** [time.Time] as far as the producer looks at it: [Unix()] and
    [Nanosecond()]. *)
Record Time := { Unix : Z; Nanosecond : Z }.

(** [fmt.Sprintf] with the verbs [%d] and [%09d]. *)
Definition fmt_d (z : Z) : string := NilZero.string_of_int (Z.to_int z).

Fixpoint pad0 (n : nat) (s : string) : string :=
  match n with
  | O => s
  | S n' => String "0" (pad0 n' s)
  end.

Definition digits (z : Z) : string := NilZero.string_of_uint (N.to_uint (Z.to_N z)).

Definition fmt_09d (z : Z) : string :=
  if (z <? 0)%Z
  then String "-" (pad0 (8 - String.length (digits (- z))) (digits (- z)))
  else pad0 (9 - String.length (digits z)) (digits z).

(** [fmt.Sprintf("%d.%09d", now.Unix(), int64(now.Nanosecond()))] *)
Definition Sprintf_since (now : Time) : string :=
  fmt_d (Unix now) ++ "." ++ fmt_09d (Nanosecond now).

(** Reading the text back: a string without a dot, and the number a
    string of digits stands for. *)
Fixpoint nodot (s : string) : Prop :=
  match s with
  | EmptyString => True
  | String a s' => a <> "."%char /\ nodot s'
  end.

Definition value (s : string) : option N :=
  option_map N.of_uint (NilEmpty.uint_of_string s).

(** ** The raw log stream: an [io.ReadCloser]

    The engine hands the stream over in chunks.  A chunk is what one
    arrival on the connection makes available: some bytes, possibly
    together with an error, at wall-clock instant [arrival].  [Read]
    follows the contract of [io.Reader]: it returns what is available,
    at most [len(p)] bytes, and never waits for the buffer to fill. *)
Record Chunk := { arrival : Time; data : list byte; err : option error }.

Definition Stream := list Chunk.

Record ReadResult := { rd_bytes : list byte; rd_err : option error; rd_at : option Time }.

Definition Read (len : nat) (s : Stream) : ReadResult * Stream :=
  match s with
  | [] => ({| rd_bytes := []; rd_err := Some "EOF"; rd_at := None |}, [])
  | c :: s' =>
      if (length (data c) <=? len)%nat
      then ({| rd_bytes := data c; rd_err := err c; rd_at := Some (arrival c) |}, s')
      else ({| rd_bytes := take len (data c); rd_err := None; rd_at := Some (arrival c) |},
            {| arrival := arrival c; data := drop len (data c); err := err c |} :: s')
  end.

(** [make([]byte, n)] followed by one [Read] into it: the bytes read
    overwrite a prefix, the rest keeps the zero value. *)
Definition make_bytes (n : nat) : list byte := replicate n x00.

Definition filled (n : nat) (got : list byte) : list byte :=
  (got ++ make_bytes (n - length got))%list.

(** [binary.BigEndian.Uint32]; [None] is the index-out-of-range fault on
    a slice shorter than four bytes. *)
Definition byteZ (b : byte) : Z := Z.of_N (Byte.to_N b).

Definition Uint32 (b : list byte) : option Z :=
  match b with
  | b0 :: b1 :: b2 :: b3 :: _ =>
      Some (Z.lor (Z.lor (Z.lor (byteZ b3) (Z.shiftl (byteZ b2) 8))
                         (Z.shiftl (byteZ b1) 16))
                  (Z.shiftl (byteZ b0) 24))
  | _ => None
  end.

(** ** Logs and consumers *)

(** Modelled from the spec: the constants [StdoutLog] and [StderrLog] are
    declared outside src/; the spec names the two kinds stdout and
    stderr and gives the index table as ["", "stdout", "stderr"]. *)
Definition StdoutLog : string := "stdout".
Definition StderrLog : string := "stderr".

Record Log := { LogType : string; Content : list byte }.

(** A [LogConsumer] is known to the container only through its [Accept]
    method; it is identified here by the handle it was registered under. *)
Definition LogConsumer := nat.

Record ContainerLogsOptions :=
  { ShowStdout : bool; ShowStderr : bool; Follow : bool; Since : string }.

Inductive StderrLine :=
| invalid_log_type (logType : Z)
| error_reading_known_length (e : error).

(** What the producer goroutine does to the outside world. *)
Inductive Event :=
| ContainerLogs_req (id : string) (options : ContainerLogsOptions)
| Read_call (len : nat) (res : ReadResult)
| Close_call
| Now_call (now : Time)
| Fprintf_stderr (line : StderrLine)
| Accept (c : LogConsumer) (l : Log).

(** The oracle the goroutine runs against.  The index is the number of
    oracle calls the goroutine has made before. *)
Record Engine :=
  { ContainerLogs : nat -> string -> ContainerLogsOptions -> error + Stream;
    Now : nat -> Time;
    Close : nat -> option error }.

(** ** The goroutine of [StartLogProducer]

    [BEGIN] is the label of the source, [LOOP] the head of the [for],
    [RETURN] the normal end of the goroutine and [PANIC] a fault. *)
Inductive Pc := BEGIN | LOOP | RETURN | PANIC (e : error).

Record Worker := { pc : Pc; since : string; r : Stream; calls : nat }.

Definition logTypes : list string := [""; StdoutLog; StderrLog].

(** From [BEGIN] to the head of the loop: the log request with the
    current [since].  The five-second deadline put on the request's
    context is a matter of real time; what it does to the stream shows
    up here as read errors of the stream. *)
Definition producer_BEGIN (E : Engine) (id : string) (w : Worker) : Worker * list Event :=
  let options := {| ShowStdout := true; ShowStderr := true; Follow := true; Since := since w |} in
  match ContainerLogs E (calls w) id options with
  | inl e =>
      ({| pc := PANIC e; since := since w; r := r w; calls := S (calls w) |},
       [ContainerLogs_req id options])
  | inr r' =>
      ({| pc := LOOP; since := since w; r := r'; calls := S (calls w) |},
       [ContainerLogs_req id options])
  end.

(** One pass through the [select] of the loop.  [stop] says whether the
    receive from [c.stopProducer] is ready; [consumers] is [c.consumers]
    as the [range] finds it. *)
Definition producer_LOOP (E : Engine) (stop : bool) (consumers : list LogConsumer)
    (w : Worker) : Worker * list Event :=
  if stop then
    match Close E (calls w) with
    | Some e => ({| pc := PANIC e; since := since w; r := r w; calls := S (calls w) |}, [Close_call])
    | None => ({| pc := RETURN; since := since w; r := r w; calls := S (calls w) |}, [Close_call])
    end
  else
    let (res, r1) := Read 8 (r w) in
    let h := filled 8 (rd_bytes res) in
    match rd_err res with
    | Some e =>
        if Contains e "use of closed network connection" then
          let now := Now E (calls w) in
          ({| pc := BEGIN; since := Sprintf_since now; r := r1; calls := S (calls w) |},
           [Read_call 8 res; Now_call now])
        else
          ({| pc := LOOP; since := since w; r := r1; calls := calls w |}, [Read_call 8 res])
    | None =>
        match Uint32 (drop 4 h) with
        | None => ({| pc := PANIC "index out of range"; since := since w; r := r1; calls := calls w |},
                   [Read_call 8 res])
        | Some count =>
            if (count =? 0)%Z then
              ({| pc := LOOP; since := since w; r := r1; calls := calls w |}, [Read_call 8 res])
            else
              let logType := byteZ (nth 0 h x00) in
              let '(logType, warn) :=
                if (2 <? logType)%Z
                then (1%Z, [Fprintf_stderr (invalid_log_type logType)])
                else (logType, []) in
              let (res2, r2) := Read (Z.to_nat count) r1 in
              let b := filled (Z.to_nat count) (rd_bytes res2) in
              let reads := ([Read_call 8 res] ++ warn ++ [Read_call (Z.to_nat count) res2])%list in
              match rd_err res2 with
              | Some e =>
                  ({| pc := LOOP; since := since w; r := r2; calls := calls w |},
                   (reads ++ [Fprintf_stderr (error_reading_known_length e)])%list)
              | None =>
                  match logTypes !! Z.to_nat logType with
                  | None => ({| pc := PANIC "index out of range"; since := since w; r := r2; calls := calls w |},
                             reads)
                  | Some kind =>
                      ({| pc := LOOP; since := since w; r := r2; calls := calls w |},
                       (reads ++ map (fun c => Accept c {| LogType := kind; Content := b |}) consumers)%list)
                  end
              end
        end
    end.

(** One scheduling step of the goroutine. *)
Definition producer_step (E : Engine) (id : string) (stop : bool)
    (consumers : list LogConsumer) (w : Worker) : Worker * list Event :=
  match pc w with
  | BEGIN => producer_BEGIN E id w
  | LOOP => producer_LOOP E stop consumers w
  | RETURN | PANIC _ => (w, [])
  end.

(** The goroutine as [go func()] starts it: [since := ""], at [BEGIN]. *)
Definition producer_init : Worker := {| pc := BEGIN; since := ""; r := []; calls := 0 |}.

(** A run of the goroutine: one entry of [sched] per step, giving what
    the [select] and the [range] find at that step. *)
Fixpoint producer_run (E : Engine) (id : string) (sched : list (bool * list LogConsumer))
    (w : Worker) : Worker * list Event :=
  match sched with
  | [] => (w, [])
  | (stop, consumers) :: sched' =>
      let (w1, evs1) := producer_step E id stop consumers w in
      let (w2, evs2) := producer_run E id sched' w1 in
      (w2, (evs1 ++ evs2)%list)
  end.

(** The logs one consumer was handed, in order. *)
Definition delivered (c : LogConsumer) (evs : list Event) : list Log :=
  omap (fun ev => match ev with
                  | Accept c' l => if decide (c' = c) then Some l else None
                  | _ => None
                  end) evs.

Definition accepts (evs : list Event) : list (LogConsumer * Log) :=
  omap (fun ev => match ev with Accept c l => Some (c, l) | _ => None end) evs.

(** The instant of the last [Read] that brought at least one byte. *)
Definition last_read_at (evs : list Event) : option Time :=
  last (omap (fun ev => match ev with
                        | Read_call _ res =>
                            if decide (rd_bytes res = []) then None else rd_at res
                        | _ => None
                        end) evs).

(** [FollowOutput] *)
Definition FollowOutput (consumers : list LogConsumer) (consumer : LogConsumer) : list LogConsumer :=
  match consumers with
  | [] => [consumer]
  | _ => (consumers ++ [consumer])%list
  end.

(** The header one pass of the loop finds: the eight-byte buffer [h]
    after the [Read], its stream-kind tag [h[0]] and its length field. *)
Definition header (w : Worker) : list byte := filled 8 (rd_bytes (fst (Read 8 (r w)))).

Definition header_tag (w : Worker) : Z := byteZ (nth 0 (header w) x00).

Definition header_count (w : Worker) : option Z := Uint32 (drop 4 (header w)).

(** The kind a delivered frame carries, by the tag of its header: the
    table [logTypes] read at the tag, after tags above 2 are set to 1. *)
Definition kind_of_tag (t : Z) : string :=
  if (2 <? t)%Z then StdoutLog
  else if (t =? 2)%Z then StderrLog
  else if (t =? 1)%Z then StdoutLog
  else "".

Definition warn_of_tag (t : Z) : list Event :=
  if (2 <? t)%Z then [Fprintf_stderr (invalid_log_type t)] else [].

(** A run in which the [range] finds the same consumers at every
    step. *)
Definition alone (stops : list bool) (consumers : list LogConsumer)
    : list (bool * list LogConsumer) :=
  map (fun stop => (stop, consumers)) stops.

(** The frame on the stream at a pass of the loop, told from the stream
    alone: a header that is read, announces a length other than zero and
    is followed by a payload that is read makes a record of the kind of
    its tag, with the buffer of the announced length as its content.
    There is none when either read fails or the length is zero. *)
Definition decoded_frame (w : Worker) : option Log :=
  match rd_err (fst (Read 8 (r w))), header_count w with
  | None, Some count =>
      if (count =? 0)%Z then None
      else
        let res2 := fst (Read (Z.to_nat count) (snd (Read 8 (r w)))) in
        match rd_err res2 with
        | None => Some {| LogType := kind_of_tag (header_tag w);
                          Content := filled (Z.to_nat count) (rd_bytes res2) |}
        | Some _ => None
        end
  | _, _ => None
  end.

(** The frames decoded along a run, pass by pass: the frame on the
    stream at every pass of the loop that does not take the stop
    signal. *)
Fixpoint decoded (E : Engine) (id : string) (stops : list bool) (w : Worker) : list Log :=
  match stops with
  | [] => []
  | stop :: stops' =>
      (match pc w with
       | LOOP => if stop then [] else option_list (decoded_frame w)
       | _ => []
       end ++ decoded E id stops' (fst (producer_step E id stop [] w)))%list
  end.

(** ** Channels of [bool]

    [make(chan bool)] has capacity 0.  [sendq] holds the values of the
    goroutines parked in a send, [recvq] counts the goroutines parked in a
    receive.  A [nil] channel is [None]: a send on it parks for ever and
    it is never ready in a [select]. *)
Record Chan := { cap : nat; buf : list bool; sendq : list bool; recvq : nat }.

Definition make_chan (n : nat) : Chan := {| cap := n; buf := []; sendq := []; recvq := 0 |}.

Inductive SendResult :=
| Sent (ch : Chan)          (* the send completed *)
| Parked (ch : Chan)        (* the sender waits for a receiver *)
| ParkedForever.            (* send on a nil channel *)

(** [ch <- v] *)
Definition chan_send (ch : option Chan) (v : bool) : SendResult :=
  match ch with
  | None => ParkedForever
  | Some ch =>
      match recvq ch with
      | S n => Sent {| cap := cap ch; buf := buf ch; sendq := sendq ch; recvq := n |}
      | O =>
          if (length (buf ch) <? cap ch)%nat
          then Sent {| cap := cap ch; buf := (buf ch ++ [v])%list; sendq := sendq ch; recvq := 0 |}
          else Parked {| cap := cap ch; buf := buf ch; sendq := (sendq ch ++ [v])%list; recvq := 0 |}
      end
  end.

(** [select { case ch <- v: default: }]: the channel after the send, or
    [None] when the [default] branch is taken. *)
Definition chan_try_send (ch : option Chan) (v : bool) : option Chan :=
  match chan_send ch v with
  | Sent ch' => Some ch'
  | Parked _ | ParkedForever => None
  end.

(** [select { case <-ch: ... default: ... }]: the value received, the
    channel after it and whether a parked sender was released; [None]
    when the [default] branch is taken. *)
Definition chan_try_recv (ch : option Chan) : option (bool * Chan * bool) :=
  match ch with
  | None => None
  | Some ch =>
      match buf ch, sendq ch with
      | v :: b, [] => Some (v, {| cap := cap ch; buf := b; sendq := []; recvq := recvq ch |}, false)
      | v :: b, v' :: q =>
          Some (v, {| cap := cap ch; buf := (b ++ [v'])%list; sendq := q; recvq := recvq ch |}, true)
      | [], v' :: q => Some (v', {| cap := cap ch; buf := []; sendq := q; recvq := recvq ch |}, true)
      | [], [] => None
      end
  end.

(** ** [DockerContainer] *)

(** Modelled from the spec: the interface [wait.Strategy] is declared
    outside src/.  Its single entry point [WaitUntilReady] is invoked
    after the resource is started, blocks until ready, timeout or
    cancellation, and reports nil or an error; it is given the container
    as the target to probe. *)
Record Strategy := { WaitUntilReady : string -> option error }.

Record DockerContainer :=
  { ID : string;
    WaitingFor : option Strategy;
    Image : string;
    isRunning : bool;
    imageWasBuilt : bool;
    sessionID : string;
    terminationSignal : option Chan;
    skipReaper : bool;
    consumers : list LogConsumer;
    stopProducer : option Chan }.

Definition set_isRunning (b : bool) (c : DockerContainer) : DockerContainer :=
  {| ID := ID c; WaitingFor := WaitingFor c; Image := Image c; isRunning := b;
     imageWasBuilt := imageWasBuilt c; sessionID := sessionID c;
     terminationSignal := terminationSignal c; skipReaper := skipReaper c;
     consumers := consumers c; stopProducer := stopProducer c |}.

Definition set_sessionID (u : string) (c : DockerContainer) : DockerContainer :=
  {| ID := ID c; WaitingFor := WaitingFor c; Image := Image c; isRunning := isRunning c;
     imageWasBuilt := imageWasBuilt c; sessionID := u;
     terminationSignal := terminationSignal c; skipReaper := skipReaper c;
     consumers := consumers c; stopProducer := stopProducer c |}.

Definition set_terminationSignal (ch : option Chan) (c : DockerContainer) : DockerContainer :=
  {| ID := ID c; WaitingFor := WaitingFor c; Image := Image c; isRunning := isRunning c;
     imageWasBuilt := imageWasBuilt c; sessionID := sessionID c;
     terminationSignal := ch; skipReaper := skipReaper c;
     consumers := consumers c; stopProducer := stopProducer c |}.

Definition set_consumers (l : list LogConsumer) (c : DockerContainer) : DockerContainer :=
  {| ID := ID c; WaitingFor := WaitingFor c; Image := Image c; isRunning := isRunning c;
     imageWasBuilt := imageWasBuilt c; sessionID := sessionID c;
     terminationSignal := terminationSignal c; skipReaper := skipReaper c;
     consumers := l; stopProducer := stopProducer c |}.

Definition set_stopProducer (ch : option Chan) (c : DockerContainer) : DockerContainer :=
  {| ID := ID c; WaitingFor := WaitingFor c; Image := Image c; isRunning := isRunning c;
     imageWasBuilt := imageWasBuilt c; sessionID := sessionID c;
     terminationSignal := terminationSignal c; skipReaper := skipReaper c;
     consumers := consumers c; stopProducer := ch |}.

(** ** [Start], [Stop], [Terminate] *)

(** The engine client as the three methods use it. *)
Record Client :=
  { ContainerStart : string -> option error;
    ContainerStop : string -> option Z -> option error;
    ContainerRemove : string -> bool -> bool -> option error;
    ImageRemove : string -> bool -> bool -> option error;
    ClientClose : option error }.

Inductive Call :=
| Printf (line : string)
| ContainerStart_req (id : string)
| WaitUntilReady_call (id : string)
| ContainerStop_req (id : string) (timeout : option Z)
| ContainerRemove_req (id : string) (RemoveVolumes Force : bool)
| ImageRemove_req (image : string) (Force PruneChildren : bool)
| ClientClose_call.

Inductive Outcome :=
| Returns (e : option error)
| Panics (msg : string).

(** [s[:n]] on a Go string: a fault when [n] exceeds [len(s)]. *)
Definition slice_to (s : string) (n : nat) : option string :=
  if (n <=? String.length s)%nat then Some (substring 0 n s) else None.

Definition Start (cl : Client) (c : DockerContainer) : Outcome * DockerContainer * list Call :=
  match slice_to (ID c) 12 with
  | None => (Panics "slice bounds out of range", c, [])
  | Some shortID =>
      let t0 := [Printf ("Starting container id: " ++ shortID ++ " image: " ++ Image c);
                 ContainerStart_req (ID c)] in
      match ContainerStart cl (ID c) with
      | Some e => (Returns (Some e), c, t0)
      | None =>
          let '(waited, t1) :=
            match WaitingFor c with
            | Some s =>
                (WaitUntilReady s (ID c),
                 [Printf ("Waiting for container id " ++ shortID ++ " image: " ++ Image c);
                  WaitUntilReady_call (ID c)])
            | None => (None, [])
            end in
          match waited with
          | Some e => (Returns (Some e), c, (t0 ++ t1)%list)
          | None =>
              (Returns None, set_isRunning true c,
               (t0 ++ t1 ++
                [Printf ("Container is ready id: " ++ shortID ++ " image: " ++ Image c)])%list)
          end
      end
  end.

Definition Stop (cl : Client) (c : DockerContainer) (timeout : option Z)
    : Outcome * DockerContainer * list Call :=
  match slice_to (ID c) 12 with
  | None => (Panics "slice bounds out of range", c, [])
  | Some shortID =>
      let t0 := [Printf ("Stopping container id: " ++ shortID ++ " image: " ++ Image c);
                 ContainerStop_req (ID c) timeout] in
      match ContainerStop cl (ID c) timeout with
      | Some e => (Returns (Some e), c, t0)
      | None =>
          (Returns None, set_isRunning false c,
           (t0 ++ [Printf ("Container is stopped id: " ++ shortID ++ " image: " ++ Image c)])%list)
      end
  end.

Definition Terminate (cl : Client) (c : DockerContainer) : Outcome * DockerContainer * list Call :=
  let c :=
    match chan_try_send (terminationSignal c) true with
    | Some ch' => set_terminationSignal (Some ch') c
    | None => c
    end in
  let t0 := [ContainerRemove_req (ID c) true true] in
  match ContainerRemove cl (ID c) true true with
  | Some e => (Returns (Some e), c, t0)
  | None =>
      let '(removed, t1) :=
        if imageWasBuilt c
        then (ImageRemove cl (Image c) true true, [ImageRemove_req (Image c) true true])
        else (None, []) in
      match removed with
      | Some e => (Returns (Some e), c, (t0 ++ t1)%list)
      | None =>
          match ClientClose cl with
          | Some e => (Returns (Some e), c, (t0 ++ t1 ++ [ClientClose_call])%list)
          | None =>
              (Returns None,
               set_isRunning false (set_sessionID "00000000-0000-0000-0000-000000000000" c),
               (t0 ++ t1 ++ [ClientClose_call])%list)
          end
      end
  end.

(** ** The test goroutine and the producer goroutines together

    [main] is what the calling goroutine still has to do on the
    container; [parked] says that it waits inside its current call.  The
    goroutines started by [StartLogProducer] are [workers]. *)
Inductive Op :=
| call_StartLogProducer
| call_StopLogProducer
| call_FollowOutput (consumer : LogConsumer).

Record Sys :=
  { container : DockerContainer;
    main : list Op;
    parked : bool;
    workers : list Worker;
    events : list Event }.

Inductive Who := Main | Goroutine (i : nat).

(** [StopLogProducer]: [c.stopProducer <- true; return nil]. *)
Definition StopLogProducer (s : Sys) (rest : list Op) : Sys :=
  match chan_send (stopProducer (container s)) true with
  | Sent ch =>
      {| container := set_stopProducer (Some ch) (container s); main := rest; parked := false;
         workers := workers s; events := events s |}
  | Parked ch =>
      {| container := set_stopProducer (Some ch) (container s); main := main s; parked := true;
         workers := workers s; events := events s |}
  | ParkedForever =>
      {| container := container s; main := main s; parked := true;
         workers := workers s; events := events s |}
  end.

(** [StartLogProducer]: [go func() { ... }(); return nil]. *)
Definition StartLogProducer (s : Sys) (rest : list Op) : Sys :=
  {| container := container s; main := rest; parked := false;
     workers := (workers s ++ [producer_init])%list; events := events s |}.

Definition main_step (s : Sys) : option Sys :=
  if parked s then None else
  match main s with
  | [] => None
  | call_StartLogProducer :: rest => Some (StartLogProducer s rest)
  | call_StopLogProducer :: rest => Some (StopLogProducer s rest)
  | call_FollowOutput consumer :: rest =>
      Some {| container := set_consumers (FollowOutput (consumers (container s)) consumer) (container s);
              main := rest; parked := false; workers := workers s; events := events s |}
  end.

(** A producer goroutine moves: at the [select] it takes the stop signal
    when the receive is ready, which releases the sender parked in
    [StopLogProducer]. *)
Definition worker_step (E : Engine) (i : nat) (s : Sys) : option Sys :=
  match workers s !! i with
  | None => None
  | Some w =>
      match pc w with
      | RETURN | PANIC _ => None
      | BEGIN =>
          let (w', evs) := producer_BEGIN E (ID (container s)) w in
          Some {| container := container s; main := main s; parked := parked s;
                  workers := <[i := w']> (workers s); events := (events s ++ evs)%list |}
      | LOOP =>
          match chan_try_recv (stopProducer (container s)) with
          | Some (_, ch, released) =>
              let (w', evs) := producer_LOOP E true (consumers (container s)) w in
              Some {| container := set_stopProducer (Some ch) (container s);
                      main := if released then tail (main s) else main s;
                      parked := if released then false else parked s;
                      workers := <[i := w']> (workers s); events := (events s ++ evs)%list |}
          | None =>
              let (w', evs) := producer_LOOP E false (consumers (container s)) w in
              Some {| container := container s; main := main s; parked := parked s;
                      workers := <[i := w']> (workers s); events := (events s ++ evs)%list |}
          end
      end
  end.

Definition sys_step (E : Engine) (who : Who) (s : Sys) : option Sys :=
  match who with
  | Main => main_step s
  | Goroutine i => worker_step E i s
  end.

(** A schedule names the goroutine to move at each step; a goroutine
    that cannot move leaves the system as it is. *)
Fixpoint sys_run (E : Engine) (sched : list Who) (s : Sys) : Sys :=
  match sched with
  | [] => s
  | who :: sched' => sys_run E sched' (default s (sys_step E who s))
  end.

(** The calling goroutine has returned from all its calls. *)
Definition completed (s : Sys) : bool :=
  match main s with [] => negb (parked s) | _ => false end.

(** No goroutine can move. *)
Definition deadlocked (E : Engine) (s : Sys) : Prop :=
  forall who, sys_step E who s = None.

(** Counting, for the arguments about who can still wake whom: the
    producer goroutines that have not ended, and the calls the test
    goroutine still has to make. *)
Definition alive (w : Worker) : nat :=
  match pc w with
  | BEGIN | LOOP => 1
  | RETURN | PANIC _ => 0
  end.

Definition live (ws : list Worker) : nat := list_sum (map alive ws).

Definition stops (ops : list Op) : nat :=
  list_sum (map (fun o => match o with call_StopLogProducer => 1 | _ => 0 end) ops).

Definition starts (ops : list Op) : nat :=
  list_sum (map (fun o => match o with call_StartLogProducer => 1 | _ => 0 end) ops).

(** The system with nothing started yet. *)
Definition fresh_sys (c : DockerContainer) (ops : list Op) : Sys :=
  {| container := c; main := ops; parked := false; workers := []; events := [] |}.

(** With an unbuffered channel every [StopLogProducer] still to come
    needs a goroutine of its own to take the signal: when there are more
    such calls than goroutines alive or still to be started, this stays
    so. *)
Definition short_of_receivers (s : Sys) : Prop :=
  exists ch,
    stopProducer (container s) = Some ch /\ cap ch = 0 /\ buf ch = [] /\ recvq ch = 0 /\
    ((parked s = false /\ sendq ch = []) \/
     (parked s = true /\ sendq ch = [true] /\ exists rest, main s = call_StopLogProducer :: rest)) /\
    starts (main s) + live (workers s) < stops (main s).

(** On a nil channel nobody is ever woken. *)
Definition nil_channel (s : Sys) : Prop :=
  stopProducer (container s) = None /\ 0 < stops (main s).

(** ** [DockerProvider]: requests, label maps and the engine

    A Go map is a reference: [req.Labels] and the [Labels] field of the
    struct built from it name the same object.  Maps live in a heap and
    the structs hold references; [None] is the nil map. *)
Definition MapRef := nat.

Definition deref (h : gmap nat (gmap string string)) (m : option MapRef) : gmap string string :=
  match m with
  | Some l => default ∅ (h !! l)
  | None => ∅
  end.

Record ContainerRequest :=
  { req_Image : string;
    req_Name : string;
    req_Networks : list string;
    req_Labels : option MapRef;
    req_SkipReaper : bool;
    req_ReaperImage : string;
    req_ImagePlatform : string;
    req_AlwaysPullImage : bool;
    req_ExposedPorts : list string;
    req_Files : list string;
    req_WaitingFor : option Strategy }.

Record NetworkRequest :=
  { nreq_Name : string;
    nreq_Driver : string;
    nreq_Internal : bool;
    nreq_Attachable : bool;
    nreq_Labels : option MapRef;
    nreq_SkipReaper : bool;
    nreq_ReaperImage : string }.

(** [container.Config] and [types.NetworkCreate], as far as they go here. *)
Record Config := { cfg_Image : string; cfg_Labels : option MapRef }.

Record types_NetworkCreate :=
  { nc_Driver : string; nc_Internal : bool; nc_Attachable : bool; nc_Labels : option MapRef }.

(** [DockerNetwork].  [net_provider] tells whether the pointer
    [provider] is set: [CreateNetwork] sets it to the provider itself,
    the empty [&DockerNetwork{}] leaves it nil. *)
Record DockerNetwork :=
  { net_ID : string; net_Driver : string; net_Name : string;
    net_provider : bool;
    net_terminationSignal : option Chan }.

Record Reaper := { SessionID : string }.

Record Platform := { plat_Architecture : string; plat_OS : string }.

Record ImageInspect :=
  { img_Architecture : string; img_Os : string; img_ExposedPorts : list string }.

Inductive InspectResult :=
| inspect_ok (image : ImageInspect)
| inspect_not_found (e : error)
| inspect_failed (e : error).

(** Requests to the engine and to the reaper.  A create request carries
    the label map as it is when the call is made. *)
Inductive Request :=
| NetworkList_req
| NetworkCreate_req (name : string) (nc : types_NetworkCreate) (labels : gmap string string)
| NewReaper_call (sessionID reaperImage : string)
| Connect_call (sessionID : string)
| ImageBuild_req
| ImageInspect_req (tag : string)
| ImagePull_req (tag : string)
| NetworkInspect_req (name : string)
| ContainerCreate_req (cfg : Config) (name : string) (labels : gmap string string)
| NetworkConnect_req (networkID containerID : string)
| CopyToContainer_req (containerID hostFilePath : string).

(** The engine, the reaper and the request helpers that live outside
    this file, as oracles.  The index is the number of requests made
    before.  [BuildImage], [attemptToPullImage] and [mapToDockerMounts]
    only talk to the engine and are represented by their result. *)
Record Docker :=
  { NetworkList : nat -> error + list string;
    NetworkCreate : nat -> string -> types_NetworkCreate -> gmap string string -> error + string;
    uuid_New : nat -> string;
    NewReaper : nat -> string -> string -> error + Reaper;
    Connect : nat -> Reaper -> error + Chan;
    Labels : Reaper -> gmap string string;
    Validate : ContainerRequest -> option error;
    ShouldBuildImage : ContainerRequest -> bool;
    BuildImage : nat -> ContainerRequest -> error + string;
    platforms_Parse : string -> error + Platform;
    ImageInspectWithRaw : nat -> string -> InspectResult;
    attemptToPullImage : nat -> string -> option error;
    ParsePortSpecs : list string -> option error;
    mapToDockerMounts : nat -> ContainerRequest -> option error;
    NetworkInspect : nat -> string -> error + string;
    ContainerCreate : nat -> Config -> string -> gmap string string -> error + string;
    NetworkConnect : nat -> string -> string -> option error;
    CopyFileToContainer : nat -> string -> string -> option error }.

(** Modelled from the spec: the label keys and the reaper's [Labels()]
    are declared outside src/.  The spec gives
    [Labels() -> {label-key: session-group-id, ...}] and names the two
    labels: the session-group id and a fixed managed-by marker. *)
Definition TestcontainerLabel : string := "org.testcontainers.golang".
Definition TestcontainerLabelSessionID : string := TestcontainerLabel ++ ".sessionId".

Definition Reaper_Labels (r : Reaper) : gmap string string :=
  <[TestcontainerLabel := "true"]> {[ TestcontainerLabelSessionID := SessionID r ]}.

Definition Bridge : string := "bridge".
Definition ReaperDefault : string := "reaper_default".

(** The provider: [defaultBridgeNetworkName] is fixed when the provider
    is made, [DefaultNetwork] is filled in on first use. *)
Record PState :=
  { heap : gmap nat (gmap string string);
    DefaultNetwork : string;
    requests : list Request }.

(** State and errors threaded through the provider's methods. *)
Definition M (A : Type) : Type := PState -> (error + A) * PState.

Definition ret {A} (a : A) : M A := fun st => (inr a, st).

Definition fail {A} (e : error) : M A := fun st => (inl e, st).

Definition bind {A B} (m : M A) (k : A -> M B) : M B :=
  fun st =>
    match m st with
    | (inl e, st') => (inl e, st')
    | (inr a, st') => k a st'
    end.

Notation "'do' x <- m ; k" := (bind m (fun x => k))
  (at level 10, x name, m at level 100, k at level 200).
Notation "m ;;; k" := (bind m (fun _ => k))
  (at level 200, k at level 200, right associativity).

(** Issue a request: the oracle is asked with the number of requests
    made before, and the request is appended to the trace. *)
Definition request {A} (q : Request) (answer : nat -> A) : M A :=
  fun st =>
    (inr (answer (length (requests st))),
     {| heap := heap st; DefaultNetwork := DefaultNetwork st;
        requests := (requests st ++ [q])%list |}).

Definition ask {A} (answer : nat -> A) : M A :=
  fun st => (inr (answer (length (requests st))), st).

Definition check (o : option error) : M unit :=
  match o with Some e => fail e | None => ret tt end.

Definition result {A} (x : error + A) : M A :=
  match x with inl e => fail e | inr a => ret a end.

(** [fmt.Errorf("%w" ++ suffix, err)] *)
Definition wrapped {A} (suffix : string) (x : error + A) : M A :=
  match x with inl e => fail (e ++ suffix) | inr a => ret a end.

Definition get_heap : M (gmap nat (gmap string string)) := fun st => (inr (heap st), st).

(** [make(map[string]string)] and map literals *)
Definition alloc (m : gmap string string) : M MapRef :=
  fun st =>
    let l := fresh (dom (heap st)) in
    (inr l, {| heap := <[l := m]> (heap st); DefaultNetwork := DefaultNetwork st;
               requests := requests st |}).

Definition store (l : MapRef) (m : gmap string string) : M unit :=
  fun st =>
    (inr tt, {| heap := <[l := m]> (heap st); DefaultNetwork := DefaultNetwork st;
                requests := requests st |}).

Definition get_DefaultNetwork : M string := fun st => (inr (DefaultNetwork st), st).

Definition set_DefaultNetwork (n : string) : M unit :=
  fun st => (inr tt, {| heap := heap st; DefaultNetwork := n; requests := requests st |}).

(** [getDefaultNetwork] *)
Definition getDefaultNetwork (D : Docker) (defaultBridgeNetworkName : string) : M string :=
  do listed <- request NetworkList_req (NetworkList D);
  do networkResources <- result listed;
  if decide (defaultBridgeNetworkName ∈ networkResources) then ret defaultBridgeNetworkName
  else
    (if decide (ReaperDefault ∈ networkResources) then ret tt
     else
       do l <- alloc {[ TestcontainerLabel := "true" ]};
       do h <- get_heap;
       let nc := {| nc_Driver := Bridge; nc_Internal := false; nc_Attachable := true;
                    nc_Labels := Some l |} in
       do created <- request (NetworkCreate_req ReaperDefault nc (deref h (Some l)))
                             (fun n => NetworkCreate D n ReaperDefault nc (deref h (Some l)));
       do _ <- result created;
       ret tt) ;;;
    ret ReaperDefault.

Definition ensureDefaultNetwork (D : Docker) (defaultBridgeNetworkName : string) : M unit :=
  do dn <- get_DefaultNetwork;
  if decide (dn = "") then
    do n <- getDefaultNetwork D defaultBridgeNetworkName;
    set_DefaultNetwork n
  else ret tt.

(** The loop [for k, v := range r.Labels() { if _, ok := req.Labels[k];
    !ok { req.Labels[k] = v } }] on the map the request refers to. *)
Definition merge_labels (reaperLabels own : gmap string string) : gmap string string :=
  map_fold (fun k v m => match m !! k with Some _ => m | None => <[k := v]> m end)
           own reaperLabels.

(** The block guarded by [if !req.SkipReaper], which both
    [CreateContainer] and [CreateNetwork] carry; they differ in the two
    error texts. *)
Definition connectReaper (D : Docker) (SkipReaper : bool) (sessionID reaperImage : string)
    (Labels_ref : MapRef) (creating connecting : string) : M (option Chan) :=
  if negb SkipReaper then
    do made <- request (NewReaper_call sessionID reaperImage)
                       (fun n => NewReaper D n sessionID reaperImage);
    do r <- wrapped creating made;
    do connected <- request (Connect_call (SessionID r)) (fun n => Connect D n r);
    do termSignal <- wrapped connecting connected;
    do h <- get_heap;
    store Labels_ref (merge_labels (Labels D r) (deref h (Some Labels_ref))) ;;;
    ret (Some termSignal)
  else ret None.

(** Image selection: build, or inspect and pull. *)
Definition resolveImage (D : Docker) (req : ContainerRequest) : M string :=
  if ShouldBuildImage D req then
    do built <- request ImageBuild_req (fun n => BuildImage D n req);
    result built
  else
    let tag := req_Image req in
    do platform <-
      (if decide (req_ImagePlatform req = "") then ret None
       else match platforms_Parse D (req_ImagePlatform req) with
            | inl e => fail ("invalid platform " ++ req_ImagePlatform req ++ ": " ++ e)
            | inr p => ret (Some p)
            end);
    do shouldPullImage <-
      (if req_AlwaysPullImage req then ret true
       else
         do inspected <- request (ImageInspect_req tag) (fun n => ImageInspectWithRaw D n tag);
         match inspected with
         | inspect_failed e => fail e
         | inspect_not_found _ => ret true
         | inspect_ok image =>
             match platform with
             | Some p =>
                 ret (negb (bool_decide (img_Architecture image = plat_Architecture p))
                      || negb (bool_decide (img_Os image = plat_OS p)))
             | None => ret false
             end
         end);
    (if shouldPullImage : bool then
       do pulled <- request (ImagePull_req tag) (fun n => attemptToPullImage D n tag);
       check pulled
     else ret tt) ;;;
    ret tag.

Definition exposedPorts (D : Docker) (req : ContainerRequest) (tag : string) : M (list string) :=
  match req_ExposedPorts req with
  | [] =>
      do inspected <- request (ImageInspect_req tag) (fun n => ImageInspectWithRaw D n tag);
      match inspected with
      | inspect_ok image => ret (img_ExposedPorts image)
      | inspect_not_found e | inspect_failed e => fail e
      end
  | ports => ret ports
  end.

(** [GetNetwork] for the first network of the request; a failure is
    ignored. *)
Definition firstEndpoint (D : Docker) (networks : list string) : M unit :=
  match networks with
  | [] => ret tt
  | attachContainerTo :: _ =>
      do _ <- request (NetworkInspect_req attachContainerTo)
                      (fun n => NetworkInspect D n attachContainerTo);
      ret tt
  end.

(** The loop over [req.Networks[1:]]. *)
Fixpoint connectNetworks (D : Docker) (containerID : string) (networks : list string) : M unit :=
  match networks with
  | [] => ret tt
  | n :: rest =>
      do nw <- request (NetworkInspect_req n) (fun k => NetworkInspect D k n);
      match nw with
      | inl _ => connectNetworks D containerID rest
      | inr networkID =>
          do connected <- request (NetworkConnect_req networkID containerID)
                                  (fun k => NetworkConnect D k networkID containerID);
          check connected ;;;
          connectNetworks D containerID rest
      end
  end.

(** The loop over [req.Files]. *)
Fixpoint copyFiles (D : Docker) (containerID : string) (files : list string) : M unit :=
  match files with
  | [] => ret tt
  | f :: rest =>
      do copied <- request (CopyToContainer_req containerID f)
                           (fun k => CopyFileToContainer D k containerID f);
      match copied with
      | Some e => fail ("can't copy " ++ f ++ " to container: " ++ e)
      | None => copyFiles D containerID rest
      end
  end.

Definition with_Networks_Labels (req : ContainerRequest) (networks : list string)
    (l : MapRef) : ContainerRequest :=
  {| req_Image := req_Image req; req_Name := req_Name req; req_Networks := networks;
     req_Labels := Some l; req_SkipReaper := req_SkipReaper req;
     req_ReaperImage := req_ReaperImage req; req_ImagePlatform := req_ImagePlatform req;
     req_AlwaysPullImage := req_AlwaysPullImage req; req_ExposedPorts := req_ExposedPorts req;
     req_Files := req_Files req; req_WaitingFor := req_WaitingFor req |}.

(** [CreateContainer] *)
Definition CreateContainer (D : Docker) (defaultBridgeNetworkName : string)
    (req : ContainerRequest) : M DockerContainer :=
  ensureDefaultNetwork D defaultBridgeNetworkName ;;;
  do dn <- get_DefaultNetwork;
  let networks :=
    if decide (dn = defaultBridgeNetworkName) then req_Networks req
    else if decide (dn ∈ req_Networks req) then req_Networks req
         else (req_Networks req ++ [dn])%list in
  do l <- match req_Labels req with
          | None => alloc ∅
          | Some l => ret l
          end;
  do sessionID <- ask (uuid_New D);
  do termSignal <- connectReaper D (req_SkipReaper req) sessionID (req_ReaperImage req) l
                     ": creating reaper failed" ": connecting to reaper failed";
  let req := with_Networks_Labels req networks l in
  check (Validate D req) ;;;
  do tag <- resolveImage D req;
  do ports <- exposedPorts D req tag;
  check (ParsePortSpecs D ports) ;;;
  let dockerInput := {| cfg_Image := tag; cfg_Labels := req_Labels req |} in
  do mounted <- ask (fun n => mapToDockerMounts D n req);
  check mounted ;;;
  firstEndpoint D (req_Networks req) ;;;
  do h <- get_heap;
  do created <- request (ContainerCreate_req dockerInput (req_Name req) (deref h (cfg_Labels dockerInput)))
                        (fun n => ContainerCreate D n dockerInput (req_Name req)
                                    (deref h (cfg_Labels dockerInput)));
  do respID <- result created;
  connectNetworks D respID (tail (req_Networks req)) ;;;
  let c := {| ID := respID; WaitingFor := req_WaitingFor req; Image := tag;
              isRunning := false; imageWasBuilt := ShouldBuildImage D req;
              sessionID := sessionID; terminationSignal := termSignal;
              skipReaper := req_SkipReaper req; consumers := [];
              stopProducer := Some (make_chan 0) |} in
  copyFiles D respID (req_Files req) ;;;
  ret c.

(** [CreateNetwork].  The second component of the result is the network
    pointer: nil ([None]) when the method gives up before its own create
    request, the empty [&DockerNetwork{}] when that request fails. *)
Definition CreateNetwork (D : Docker) (defaultBridgeNetworkName : string)
    (req : NetworkRequest) : PState -> (option error * option DockerNetwork) * PState :=
  fun st =>
    let before : M (types_NetworkCreate * option Chan) :=
      ensureDefaultNetwork D defaultBridgeNetworkName ;;;
      do l <- match nreq_Labels req with
              | None => alloc ∅
              | Some l => ret l
              end;
      let nc := {| nc_Driver := nreq_Driver req; nc_Internal := nreq_Internal req;
                   nc_Attachable := nreq_Attachable req; nc_Labels := Some l |} in
      do sessionID <- ask (uuid_New D);
      do termSignal <- connectReaper D (nreq_SkipReaper req) sessionID (nreq_ReaperImage req) l
                         ": creating network reaper failed"
                         ": connecting to network reaper failed";
      ret (nc, termSignal) in
    match before st with
    | (inl e, st1) => ((Some e, None), st1)
    | (inr (nc, termSignal), st1) =>
        let labels := deref (heap st1) (nc_Labels nc) in
        match request (NetworkCreate_req (nreq_Name req) nc labels)
                      (fun n => NetworkCreate D n (nreq_Name req) nc labels) st1 with
        | (inr (inr responseID), st2) =>
            ((None, Some {| net_ID := responseID; net_Driver := nreq_Driver req;
                            net_Name := nreq_Name req; net_provider := true;
                            net_terminationSignal := termSignal |}), st2)
        | (inr (inl e), st2) =>
            ((Some e, Some {| net_ID := ""; net_Driver := ""; net_Name := "";
                              net_provider := false;
                              net_terminationSignal := None |}), st2)
        | (inl e, st2) => ((Some e, None), st2)
        end
    end.

(** ** Properties of the provider's computations, for the proofs *)

(** No container create so far. *)
Definition uncreated (st : PState) : Prop :=
  forall cfg name labels, ~ In (ContainerCreate_req cfg name labels) (requests st).

(** The map a request refers to is allocated. *)
Definition allocated (h : gmap nat (gmap string string)) (m : option MapRef) : Prop :=
  match m with
  | Some l => is_Some (h !! l)
  | None => True
  end.

(** ** Inputs the examples run on *)

Definition byte_of (n : N) : byte := default x00 (Byte.of_N (n mod 256)).

(** The eight-byte header of the engine's multiplexed stream: the tag,
    three unused bytes and the big-endian payload length. *)
Definition frame_header (tag : byte) (n : N) : list byte :=
  [tag; x00; x00; x00;
   byte_of (n / 16777216); byte_of (n / 65536); byte_of (n / 256); byte_of n].

Definition frame (tag : byte) (payload : string) : list byte :=
  (frame_header tag (N.of_nat (String.length payload)) ++ list_byte_of_string payload)%list.

Definition arrives (sec nsec : Z) (d : list byte) : Chunk :=
  {| arrival := {| Unix := sec; Nanosecond := nsec |}; data := d; err := None |}.

Definition breaks (sec nsec : Z) (e : error) : Chunk :=
  {| arrival := {| Unix := sec; Nanosecond := nsec |}; data := []; err := Some e |}.

(** An engine that answers the [n]-th call with the [n]-th stream, whose
    clock shows [now] and whose [Close] succeeds. *)
Definition sample_engine (streams : list Stream) (now : Time) : Engine :=
  {| ContainerLogs := fun n _ _ => inr (nth n streams []);
     Now := fun _ => now;
     Close := fun _ => None |}.

Definition at_loop (s : Stream) : Worker := {| pc := LOOP; since := ""; r := s; calls := 1 |}.

(** An engine and a reaper that grant everything; the reaper's labels
    are those of [Reaper_Labels]. *)
Definition sample_docker : Docker :=
  {| NetworkList := fun _ => inr ["bridge"];
     NetworkCreate := fun _ _ _ _ => inr "4e1f0a6c";
     uuid_New := fun _ => "6ba7b810-9dad-11d1-80b4-00c04fd430c8";
     NewReaper := fun _ sessionID _ => inr {| SessionID := sessionID |};
     Connect := fun _ _ => inr (make_chan 0);
     Labels := Reaper_Labels;
     Validate := fun _ => None;
     ShouldBuildImage := fun _ => false;
     BuildImage := fun _ _ => inl "no build context";
     platforms_Parse := fun _ => inl "unknown platform";
     ImageInspectWithRaw := fun _ _ =>
       inspect_ok {| img_Architecture := "amd64"; img_Os := "linux"; img_ExposedPorts := [] |};
     attemptToPullImage := fun _ _ => None;
     ParsePortSpecs := fun _ => None;
     mapToDockerMounts := fun _ _ => None;
     NetworkInspect := fun _ _ => inr "9f86d081";
     ContainerCreate := fun _ _ _ _ => inr "0123456789abcdef";
     NetworkConnect := fun _ _ _ => None;
     CopyFileToContainer := fun _ _ _ => None |}.

Definition sample_request (labels : option MapRef) (skip : bool) : ContainerRequest :=
  {| req_Image := "nginx"; req_Name := "web"; req_Networks := []; req_Labels := labels;
     req_SkipReaper := skip; req_ReaperImage := ""; req_ImagePlatform := "";
     req_AlwaysPullImage := false; req_ExposedPorts := ["80/tcp"]; req_Files := [];
     req_WaitingFor := None |}.

Definition sample_network_request (labels : option MapRef) (skip : bool) : NetworkRequest :=
  {| nreq_Name := "backend"; nreq_Driver := "bridge"; nreq_Internal := false;
     nreq_Attachable := true; nreq_Labels := labels; nreq_SkipReaper := skip;
     nreq_ReaperImage := "" |}.

(** A provider state in which map 0 is the request's own label map. *)
Definition sample_state (own : gmap string string) : PState :=
  {| heap := {[ 0 := own ]}; DefaultNetwork := ""; requests := [] |}.

(** ** Further notions for the producer goroutine *)

(** The text of the latest reading of the clock in a trace, and the
    empty text when there is none. *)
Definition latest_since (s0 : string) (evs : list Event) : string :=
  fold_left (fun s ev => match ev with Now_call t => Sprintf_since t | _ => s end) evs s0.

(** The goroutine has ended, normally or by a fault. *)
Definition ended (w : Worker) : bool :=
  match pc w with
  | RETURN | PANIC _ => true
  | BEGIN | LOOP => false
  end.

(** A frame as the engine writes it, a sequence of frames, and the
    record the goroutine is to make of a frame: none for an empty
    payload. *)
Definition encode_frame (tag : byte) (payload : list byte) : list byte :=
  (frame_header tag (N.of_nat (length payload)) ++ payload)%list.

Definition encode_frames (frames : list (byte * list byte)) : list byte :=
  flat_map (fun f => encode_frame f.1 f.2) frames.

Definition frame_log (f : byte * list byte) : option Log :=
  match f.2 with
  | [] => None
  | _ => Some {| LogType := kind_of_tag (byteZ f.1); Content := f.2 |}
  end.

(** A stream that starts with the bytes [d], all of them available, and
    goes on as [rest]. *)
Definition available (t : Time) (d : list byte) (rest : Stream) : Stream :=
  match d with
  | [] => rest
  | _ => {| arrival := t; data := d; err := None |} :: rest
  end.

(** ** The provider's computations, by stages *)

(** A provider state with one more request on its trace. *)
Definition asked (st : PState) (evs : list Request) : PState :=
  {| heap := heap st; DefaultNetwork := DefaultNetwork st; requests := (requests st ++ evs)%list |}.

(** The sorts of request [CreateContainer] makes, in the order of its
    stages. *)
Definition network_setup (q : Request) : Prop :=
  match q with
  | NetworkList_req | NetworkCreate_req _ _ _ => True
  | _ => False
  end.

Definition reaper_call (q : Request) : Prop :=
  match q with
  | NewReaper_call _ _ | Connect_call _ => True
  | _ => False
  end.

Definition before_create (q : Request) : Prop :=
  match q with
  | ImageBuild_req | ImageInspect_req _ | ImagePull_req _ | NetworkInspect_req _ => True
  | _ => False
  end.

Definition after_create (q : Request) : Prop :=
  match q with
  | NetworkInspect_req _ | NetworkConnect_req _ _ | CopyToContainer_req _ _ => True
  | _ => False
  end.

(** [m] leaves the maps and the default network alone and adds only
    requests of the sort [P]. *)
Definition emits {A} (P : Request -> Prop) (m : M A) : Prop :=
  forall st, exists evs, (m st).2 = asked st evs /\ Forall P evs.

(** Started in a state with [I], [m] ends with [Q]. *)
Definition hoare {A} (I : PState -> Prop) (m : M A) (Q : error + A -> PState -> Prop) : Prop :=
  forall st, I st -> Q (m st).1 (m st).2.

(** What [CreateContainer] does once the reaper is connected: the text
    of its body from [req.Validate()] on. *)
Definition CreateContainer_rest (D : Docker) (req : ContainerRequest) (sessionID : string)
    (termSignal : option Chan) : M DockerContainer :=
  check (Validate D req) ;;;
  do tag <- resolveImage D req;
  do ports <- exposedPorts D req tag;
  check (ParsePortSpecs D ports) ;;;
  let dockerInput := {| cfg_Image := tag; cfg_Labels := req_Labels req |} in
  do mounted <- ask (fun n => mapToDockerMounts D n req);
  check mounted ;;;
  firstEndpoint D (req_Networks req) ;;;
  do h <- get_heap;
  do created <- request (ContainerCreate_req dockerInput (req_Name req) (deref h (cfg_Labels dockerInput)))
                        (fun n => ContainerCreate D n dockerInput (req_Name req)
                                    (deref h (cfg_Labels dockerInput)));
  do respID <- result created;
  connectNetworks D respID (tail (req_Networks req)) ;;;
  let c := {| ID := respID; WaitingFor := req_WaitingFor req; Image := tag;
              isRunning := false; imageWasBuilt := ShouldBuildImage D req;
              sessionID := sessionID; terminationSignal := termSignal;
              skipReaper := req_SkipReaper req; consumers := [];
              stopProducer := Some (make_chan 0) |} in
  copyFiles D respID (req_Files req) ;;;
  ret c.

(** The networks of the request once the default network is known. *)
Definition networks_with_default (defaultNetwork defaultBridgeNetworkName : string)
    (networks : list string) : list string :=
  if decide (defaultNetwork = defaultBridgeNetworkName) then networks
  else if decide (defaultNetwork ∈ networks) then networks
       else (networks ++ [defaultNetwork])%list.


(** ** Further inputs the examples run on *)

(** The sample engine behind a reaper that takes no connection. *)
Definition unreachable_reaper : Docker :=
  {| NetworkList := NetworkList sample_docker;
     NetworkCreate := NetworkCreate sample_docker;
     uuid_New := uuid_New sample_docker;
     NewReaper := NewReaper sample_docker;
     Connect := fun _ _ => inl "dial tcp: connection refused";
     Labels := Labels sample_docker;
     Validate := Validate sample_docker;
     ShouldBuildImage := ShouldBuildImage sample_docker;
     BuildImage := BuildImage sample_docker;
     platforms_Parse := platforms_Parse sample_docker;
     ImageInspectWithRaw := ImageInspectWithRaw sample_docker;
     attemptToPullImage := attemptToPullImage sample_docker;
     ParsePortSpecs := ParsePortSpecs sample_docker;
     mapToDockerMounts := mapToDockerMounts sample_docker;
     NetworkInspect := NetworkInspect sample_docker;
     ContainerCreate := ContainerCreate sample_docker;
     NetworkConnect := NetworkConnect sample_docker;
     CopyFileToContainer := CopyFileToContainer sample_docker |}.

(** ** Readings of a trace of requests *)

(** The networks looked up along a trace, in order. *)
Definition inspected (evs : list Request) : list string :=
  omap (fun q => match q with NetworkInspect_req n => Some n | _ => None end) evs.

(** The files copied along a trace, in order. *)
Definition copied (evs : list Request) : list string :=
  omap (fun q => match q with CopyToContainer_req _ f => Some f | _ => None end) evs.

(** ** [DockerNetwork.Remove] *)

(** [select { case n.terminationSignal <- true: default: }], then
    [n.provider.client.NetworkRemove(ctx, n.ID)], which faults on a
    network whose provider is nil.  The result is the outcome, the
    network with its channel after the signal, and the IDs the engine
    was asked to remove. *)
Definition Remove (NetworkRemove : string -> option error) (n : DockerNetwork)
    : Outcome * DockerNetwork * list string :=
  let n :=
    match chan_try_send (net_terminationSignal n) true with
    | Some ch' => {| net_ID := net_ID n; net_Driver := net_Driver n; net_Name := net_Name n;
                     net_provider := net_provider n;
                     net_terminationSignal := Some ch' |}
    | None => n
    end in
  if net_provider n
  then (Returns (NetworkRemove (net_ID n)), n, [net_ID n])
  else (Panics "invalid memory address or nil pointer dereference", n, []).

(** ** [RunContainer] *)

(** [CreateContainer], then [Start] on the container made.  The result
    is the outcome, the container returned (nil when the creation
    fails) and the calls [Start] made; the provider's state is the one
    [CreateContainer] leaves. *)
Definition RunContainer (D : Docker) (cl : Client) (defaultBridgeNetworkName : string)
    (req : ContainerRequest) : PState -> (Outcome * option DockerContainer * list Call) * PState :=
  fun st =>
    match CreateContainer D defaultBridgeNetworkName req st with
    | (inl e, st') => ((Returns (Some e), None, []), st')
    | (inr c, st') =>
        match Start cl c with
        | (Returns (Some e), c', calls) =>
            ((Returns (Some (e ++ ": could not start container")), Some c', calls), st')
        | (Returns None, c', calls) => ((Returns None, Some c', calls), st')
        | (Panics msg, _, calls) => ((Panics msg, None, calls), st')
        end
    end.

(** A client that starts, stops and removes whatever it is asked to. *)
Definition sample_client : Client :=
  {| ContainerStart := fun _ => None;
     ContainerStop := fun _ _ => None;
     ContainerRemove := fun _ _ _ => None;
     ImageRemove := fun _ _ _ => None;
     ClientClose := None |}.

(** ** [findContainerByName] and [ReuseOrCreateContainer] *)

(** The fields of [types.Container] the provider reads. *)
Record types_Container := { ct_ID : string; ct_Image : string; ct_State : string }.

(** [findContainerByName]: beside the result, the names the engine was
    asked to list containers for.  [&containers[0]] is the head of the
    list. *)
Definition findContainerByName (ContainerList : string -> error + list types_Container)
    (name : string) : (error + option types_Container) * list string :=
  if decide (name = "") then (inr None, [])
  else
    match ContainerList name with
    | inl e => (inl e, [name])
    | inr containers =>
        if (0 <? length containers)%nat then (inr (head containers), [name])
        else (inr None, [name])
    end.

(** [ReuseOrCreateContainer] *)
Definition ReuseOrCreateContainer (D : Docker)
    (ContainerList : string -> error + list types_Container)
    (defaultBridgeNetworkName : string) (req : ContainerRequest)
    : PState -> ((error + DockerContainer) * list string) * PState :=
  fun st =>
    match findContainerByName ContainerList (req_Name req) with
    | (inl e, listed) => ((inl e, listed), st)
    | (inr None, listed) =>
        let (made, st') := CreateContainer D defaultBridgeNetworkName req st in
        ((made, listed), st')
    | (inr (Some c), listed) =>
        let reuse : M DockerContainer :=
          do sessionID <- ask (uuid_New D);
          do termSignal <-
            (if negb (req_SkipReaper req) then
               do made <- request (NewReaper_call sessionID (req_ReaperImage req))
                                  (fun n => NewReaper D n sessionID (req_ReaperImage req));
               do r <- wrapped ": creating reaper failed" made;
               do connected <- request (Connect_call (SessionID r)) (fun n => Connect D n r);
               do termSignal <- wrapped ": connecting to reaper failed" connected;
               ret (Some termSignal)
             else ret None);
          ret {| ID := ct_ID c; WaitingFor := req_WaitingFor req; Image := ct_Image c;
                 isRunning := bool_decide (ct_State c = "running"); imageWasBuilt := false;
                 sessionID := sessionID; terminationSignal := termSignal;
                 skipReaper := req_SkipReaper req; consumers := [];
                 stopProducer := Some (make_chan 0) |} in
        let (made, st') := reuse st in
        ((made, listed), st')
    end.

(** An engine that knows one stopped container under every name. *)
Definition sample_listing (name : string) : error + list types_Container :=
  inr [ {| ct_ID := "89abcdef01234567"; ct_Image := "nginx:1.25"; ct_State := "exited" |} ].

(** ** The host of the daemon: [daemonHost], [GetGatewayIP],
    [isConnectedToRemoteDaemon] and [initContainerEnvInformation] *)

(** The fields of [url.URL], [network.EndpointSettings] and
    [types.MountPoint] that are read, and [ContainerMount] with the
    host path of its [GenericBindMountSource]. *)
Record URL := { Scheme : string; Hostname : string }.

Record MountPoint :=
  { mp_Type : string; mp_Source : string; mp_Destination : string; mp_RW : bool }.

Record ContainerMount := { cm_HostPath : string; cm_Target : string; cm_ReadOnly : bool }.

(** What [ContainerInspect] tells of the container the process runs in:
    the gateways of its networks, in the order the [range] over the map
    visits them, and its mounts. *)
Record ContainerInfo := { info_Gateways : list string; info_Mounts : list MountPoint }.

(** What the process finds around it: the variable [TC_HOST], the
    parsed [p.client.DaemonHost()], the roots of the mounts of
    /etc/hostname, [filepath.Dir], [filepath.Base], the match of
    [containerIDRegexp], and the engine's inspection of a container. *)
Record Surroundings :=
  { LookupEnv_TC_HOST : option string;
    url_Parse_DaemonHost : error + URL;
    GetMounts : error + list string;
    filepath_Dir : string -> string;
    filepath_Base : string -> string;
    MatchString : string -> bool;
    ContainerInspect : string -> error + ContainerInfo }.

(** The fields of [DockerProvider] these methods read and write;
    [initContainerEnvOnce] says that the [sync.Once] has fired. *)
Record Provider :=
  { runningInContainer : bool;
    endpointHostCache : string;
    initContainerEnvOnce : bool;
    BindMounts : list ContainerMount }.

Definition isConnectedToRemoteDaemon (env : Surroundings) : error + bool :=
  match url_Parse_DaemonHost env with
  | inl e => inl e
  | inr daemonUrl =>
      if decide (Scheme daemonUrl ∈ ["unix"; "npipe"]) then inr false
      else if decide (Scheme daemonUrl ∈ ["http"; "https"; "tcp"]) then inr true
      else inr false
  end.

(** [for path := hostnameMount; path != ""; path = filepath.Dir(path)]:
    the container ID found, the empty text when the loop ends without
    one, and [None] when the loop has not ended within [fuel] rounds. *)
Fixpoint containerID_of (env : Surroundings) (fuel : nat) (path : string) : option string :=
  match fuel with
  | O => None
  | S fuel =>
      if decide (path = "") then Some ""
      else
        let currentDir := filepath_Base env path in
        if MatchString env currentDir then Some currentDir
        else containerID_of env fuel (filepath_Dir env path)
  end.

(** The mounts of type bind, as [ContainerMount]s. *)
Definition bind_mounts (mounts : list MountPoint) : list ContainerMount :=
  omap (fun mnt =>
          if decide (mp_Type mnt = "bind")
          then Some {| cm_HostPath := mp_Source mnt; cm_Target := mp_Destination mnt;
                       cm_ReadOnly := negb (mp_RW mnt) |}
          else None) mounts.

(** [initContainerEnvInformation]: [None] when the search for the
    container ID does not end within [fuel] rounds. *)
Definition initContainerEnvInformation (env : Surroundings) (fuel : nat) (p : Provider)
    : option (option error * Provider) :=
  if initContainerEnvOnce p then Some (None, p)
  else
    let p := {| runningInContainer := runningInContainer p;
                endpointHostCache := endpointHostCache p;
                initContainerEnvOnce := true; BindMounts := BindMounts p |} in
    match isConnectedToRemoteDaemon env with
    | inl e => Some (Some e, p)
    | inr true => Some (None, p)
    | inr false =>
        match GetMounts env with
        | inl e => Some (Some e, p)
        | inr [] => Some (Some "failed to detect hostname mount", p)
        | inr (hostnameMount :: _) =>
            match containerID_of env fuel hostnameMount with
            | None => None
            | Some containerID =>
                if decide (containerID = "")
                then Some (Some ("failed to detect container ID from hostname mount: "
                                   ++ hostnameMount), p)
                else
                  match ContainerInspect env containerID with
                  | inl e => Some (Some e, p)
                  | inr info =>
                      Some (None,
                            {| runningInContainer := runningInContainer p;
                               endpointHostCache :=
                                 default (endpointHostCache p)
                                         (head (filter (fun g => g <> "") (info_Gateways info)));
                               initContainerEnvOnce := true;
                               BindMounts := (BindMounts p ++ bind_mounts (info_Mounts info))%list |})
                  end
            end
        end
    end.

Definition set_endpointHostCache (host : string) (p : Provider) : Provider :=
  {| runningInContainer := runningInContainer p; endpointHostCache := host;
     initContainerEnvOnce := initContainerEnvOnce p; BindMounts := BindMounts p |}.

(** [daemonHost] *)
Definition daemonHost (env : Surroundings) (fuel : nat) (p : Provider)
    : option ((error + string) * Provider) :=
  if decide (endpointHostCache p <> "") then Some (inr (endpointHostCache p), p)
  else
    match LookupEnv_TC_HOST env with
    | Some host => Some (inr host, set_endpointHostCache host p)
    | None =>
        match url_Parse_DaemonHost env with
        | inl e => Some (inl e, p)
        | inr url =>
            if decide (Scheme url ∈ ["http"; "https"; "tcp"])
            then Some (inr (Hostname url), set_endpointHostCache (Hostname url) p)
            else if decide (Scheme url ∈ ["unix"; "npipe"])
            then
              if runningInContainer p then
                match initContainerEnvInformation env fuel p with
                | None => None
                | Some (Some e, p') => Some (inl e, p')
                | Some (None, p') => Some (inr (endpointHostCache p'), p')
                end
              else Some (inr "localhost", set_endpointHostCache "localhost" p)
            else Some (inl "Could not determine host through env or docker host", p)
        end
    end.

(** [GetGatewayIP] *)
Definition GetGatewayIP (env : Surroundings) (fuel : nat) (p : Provider)
    : option ((error + string) * Provider) :=
  match initContainerEnvInformation env fuel p with
  | None => None
  | Some (Some e, p') => Some (inl e, p')
  | Some (None, p') => Some (inr (endpointHostCache p'), p')
  end.

(** A process in a container whose /etc/hostname is not a mount, with
    the engine on the local socket. *)
Definition sample_surroundings : Surroundings :=
  {| LookupEnv_TC_HOST := None;
     url_Parse_DaemonHost := inr {| Scheme := "unix"; Hostname := "" |};
     GetMounts := inr [];
     filepath_Dir := fun _ => "/";
     filepath_Base := fun p => p;
     MatchString := fun _ => false;
     ContainerInspect := fun _ => inl "No such container" |}.

Definition sample_provider : Provider :=
  {| runningInContainer := true; endpointHostCache := ""; initContainerEnvOnce := false;
     BindMounts := [] |}.

(** The same process with /etc/hostname mounted from a directory no
    part of which reads as a container ID. *)
Definition unmatched_surroundings : Surroundings :=
  {| LookupEnv_TC_HOST := None;
     url_Parse_DaemonHost := inr {| Scheme := "unix"; Hostname := "" |};
     GetMounts := inr ["/var/lib/docker/containers"];
     filepath_Dir := fun _ => "/";
     filepath_Base := fun p => p;
     MatchString := fun _ => false;
     ContainerInspect := fun _ => inl "No such container" |}.

(** ** [Logs] *)

(** What [bufio.Reader.ReadLine] returns. *)
Record ReadLineResult := { rl_line : list byte; rl_isPrefix : bool; rl_err : option error }.

(** The calls made on the writing end of the pipe. *)
Inductive PipeCall :=
| pw_Write (b : list byte)
| pw_CloseWithError (e : error).

Definition streamHeaderSize : nat := 8.

(** The goroutine of [Logs].  [results] is what the calls of [ReadLine]
    return, one after the other, the goroutine waiting in [ReadLine]
    when they are used up; [accepted n] says whether the write that
    comes after [n] others succeeds; [lineStarted] is the variable of
    that name. *)
Fixpoint Logs_goroutine (accepted : nat -> bool) (results : list ReadLineResult)
    (lineStarted : bool) (n : nat) : list PipeCall :=
  match results with
  | [] => []
  | res :: results =>
      let trim := lineStarted && (streamHeaderSize <=? length (rl_line res))%nat in
      let line := if trim then drop streamHeaderSize (rl_line res) else rl_line res in
      let lineStarted := if trim then false else lineStarted in
      let lineStarted := if negb (rl_isPrefix res) then true else lineStarted in
      if negb (accepted n) then [pw_Write line]
      else if negb (rl_isPrefix res) then
        if negb (accepted (S n)) then [pw_Write line; pw_Write [x0a]]
        else
          match rl_err res with
          | Some e => [pw_Write line; pw_Write [x0a]; pw_CloseWithError e]
          | None =>
              pw_Write line :: pw_Write [x0a]
                :: Logs_goroutine accepted results lineStarted (S (S n))
          end
      else
        match rl_err res with
        | Some e => [pw_Write line; pw_CloseWithError e]
        | None => pw_Write line :: Logs_goroutine accepted results lineStarted (S n)
        end
  end.

(** [Logs]: the error returned, the request made, and the calls of the
    goroutine on the pipe.  [ContainerLogs] answers with an error or
    with the lines [ReadLine] will make of the stream. *)
Definition Logs (ContainerLogs : string -> ContainerLogsOptions -> error + list ReadLineResult)
    (accepted : nat -> bool) (id : string)
    : option error * ContainerLogsOptions * list PipeCall :=
  let options := {| ShowStdout := true; ShowStderr := true; Follow := false; Since := "" |} in
  match ContainerLogs id options with
  | inl e => (Some e, options, [])
  | inr results => (None, options, Logs_goroutine accepted results true 0)
  end.

(** The bytes written to the pipe. *)
Definition written (calls : list PipeCall) : list byte :=
  flat_map (fun c => match c with pw_Write b => b | pw_CloseWithError _ => [] end) calls.

(** A line that [ReadLine] returns in pieces: the pieces flagged as
    prefixes, then the last piece. *)
Definition in_pieces (l : list (list byte) * list byte) : list ReadLineResult :=
  (map (fun piece => {| rl_line := piece; rl_isPrefix := true; rl_err := None |}) l.1
     ++ [{| rl_line := l.2; rl_isPrefix := false; rl_err := None |}])%list.

Definition first_piece (l : list (list byte) * list byte) : list byte :=
  match l.1 with
  | piece :: _ => piece
  | [] => l.2
  end.

Definition whole (l : list (list byte) * list byte) : list byte := (concat l.1 ++ l.2)%list.

(** Two lines of a log, the second returned in two pieces, and an
    engine that answers with them and the end of the stream. *)
Definition sample_lines : list (list (list byte) * list byte) :=
  [ ([], frame_header x01 3 ++ [x68; x69])%list;
    ([(frame_header x02 5 ++ [x6f])%list], [x6b]) ].

Definition sample_ContainerLogs (id : string) (options : ContainerLogsOptions)
    : error + list ReadLineResult :=
  inr (flat_map in_pieces sample_lines
         ++ [{| rl_line := []; rl_isPrefix := false; rl_err := Some "EOF" |}])%list.

(** ** [Exec] *)

Inductive ExecCall :=
| ContainerExecCreate_req (id : string) (cmd : list string)
| ContainerExecAttach_req (execID : string)
| ContainerExecInspect_req (execID : string)
| Sleep (milliseconds : Z).

(** The engine as [Exec] sees it: the ID of the exec it creates, the
    reader of the connection it attaches, and [Running] and [ExitCode]
    of the inspection that comes after [n] others. *)
Record ExecEngine :=
  { ContainerExecCreate : string -> list string -> error + string;
    ContainerExecAttach : string -> error + nat;
    ContainerExecInspect : nat -> string -> error + bool * Z }.

(** The loop [for { ... time.Sleep(100 * time.Millisecond) }]: [None]
    when it has not ended within [fuel] rounds. *)
Fixpoint Exec_poll (X : ExecEngine) (execID : string) (fuel n : nat)
    : option ((error + Z) * list ExecCall) :=
  match fuel with
  | O => None
  | S fuel =>
      match ContainerExecInspect X n execID with
      | inl e => Some (inl e, [ContainerExecInspect_req execID])
      | inr (true, _) =>
          match Exec_poll X execID fuel (S n) with
          | None => None
          | Some (x, calls) =>
              Some (x, ContainerExecInspect_req execID :: Sleep 100 :: calls)
          end
      | inr (false, exitCode) => Some (inr exitCode, [ContainerExecInspect_req execID])
      end
  end.

(** [Exec]: the exit code, the reader (nil as [None]) and the error,
    with the calls made. *)
Definition Exec (X : ExecEngine) (fuel : nat) (id : string) (cmd : list string)
    : option ((Z * option nat * option error) * list ExecCall) :=
  match ContainerExecCreate X id cmd with
  | inl e => Some ((0%Z, None, Some e), [ContainerExecCreate_req id cmd])
  | inr execID =>
      match ContainerExecAttach X execID with
      | inl e =>
          Some ((0%Z, None, Some e),
                [ContainerExecCreate_req id cmd; ContainerExecAttach_req execID])
      | inr reader =>
          match Exec_poll X execID fuel 0 with
          | None => None
          | Some (inl e, calls) =>
              Some ((0%Z, None, Some e),
                    (ContainerExecCreate_req id cmd :: ContainerExecAttach_req execID :: calls))
          | Some (inr exitCode, calls) =>
              Some ((exitCode, Some reader, None),
                    (ContainerExecCreate_req id cmd :: ContainerExecAttach_req execID :: calls))
          end
      end
  end.

(** A command that is found running twice and then exited with 3. *)
Definition sample_exec : ExecEngine :=
  {| ContainerExecCreate := fun _ _ => inr "exec-1";
     ContainerExecAttach := fun _ => inr 7;
     ContainerExecInspect := fun n _ => inr ((n <? 2)%nat, 3%Z) |}.

(** ** [State] and [inspectRawContainer] *)

Record ContainerState := { st_Status : string; st_Running : bool }.

(** [types.ContainerJSON] with the embedded pointer to its base, and
    the pointer [State] of the base. *)
Record ContainerJSONBase := { base_State : option ContainerState }.

Record ContainerJSON := { json_Base : option ContainerJSONBase }.

(** [j.State] on a [*types.ContainerJSON]: [None] is the fault of a nil
    pointer, in [j] or in the base embedded in it. *)
Definition json_State (j : option ContainerJSON) : option (option ContainerState) :=
  match j with
  | None => None
  | Some j =>
      match json_Base j with
      | None => None
      | Some base => Some (base_State base)
      end
  end.

(** [inspectRawContainer], on the answer of the engine and [c.raw]: the
    result and [c.raw] after the call. *)
Definition inspectRawContainer (answer : error + ContainerJSON) (raw : option ContainerJSON)
    : (error + ContainerJSON) * option ContainerJSON :=
  match answer with
  | inl e => (inl e, raw)
  | inr inspect => (inr inspect, Some inspect)
  end.

Inductive StateOutcome :=
| State_returns (state : option ContainerState) (e : option error)
| State_faults.

(** [State] *)
Definition State (answer : error + ContainerJSON) (raw : option ContainerJSON)
    : StateOutcome * option ContainerJSON :=
  match inspectRawContainer answer raw with
  | (inl e, raw) =>
      (match json_State raw with
       | None => State_faults
       | Some state => State_returns state (Some e)
       end, raw)
  | (inr inspect, raw) =>
      (match json_State (Some inspect) with
       | None => State_faults
       | Some state => State_returns state None
       end, raw)
  end.

(** An engine that knows no container. *)
Definition refusing_exec : ExecEngine :=
  {| ContainerExecCreate := fun _ _ => inl "No such container";
     ContainerExecAttach := fun _ => inr 7;
     ContainerExecInspect := fun _ _ => inr (false, 0%Z) |}.

(** ** [configureTC] and [NewDockerClient] *)

Record TestContainersConfig :=
  { tc_Host : string; tc_TLSVerify : Z; tc_CertPath : string; tc_RyukPrivileged : bool }.

(** What the process reads: the environment, the home directory,
    [filepath.Join], the properties file at a path, and what
    [properties.Decode] makes of the configuration it is given. *)
Record Process :=
  { Getenv : string -> string;
    UserHomeDir : error + string;
    filepath_Join : list string -> string;
    LoadFile : string -> error + list (string * string);
    Decode : list (string * string) -> TestContainersConfig
             -> option error * TestContainersConfig }.

Definition applyEnvironmentConfiguration (P : Process) (config : TestContainersConfig)
    : TestContainersConfig :=
  let ryukPrivilegedEnv := Getenv P "TESTCONTAINERS_RYUK_CONTAINER_PRIVILEGED" in
  if decide (ryukPrivilegedEnv <> "")
  then {| tc_Host := tc_Host config; tc_TLSVerify := tc_TLSVerify config;
          tc_CertPath := tc_CertPath config;
          tc_RyukPrivileged := bool_decide (ryukPrivilegedEnv = "true") |}
  else config.

(** [configureTC], with the lines it prints. *)
Definition configureTC (P : Process) : TestContainersConfig * list string :=
  let config := {| tc_Host := ""; tc_TLSVerify := 0; tc_CertPath := "";
                   tc_RyukPrivileged := false |} in
  match UserHomeDir P with
  | inl _ => (applyEnvironmentConfiguration P config, [])
  | inr home =>
      let tcProp := filepath_Join P [home; ".testcontainers.properties"] in
      match LoadFile P tcProp with
      | inl _ => (applyEnvironmentConfiguration P config, [])
      | inr properties =>
          match Decode P properties config with
          | (Some e, config) =>
              (applyEnvironmentConfiguration P config,
               ["invalid testcontainers properties file, returning an empty Testcontainers configuration: "
                  ++ e])
          | (None, config) => (applyEnvironmentConfiguration P config, [])
          end
      end
  end.

Inductive client_Opt :=
| FromEnv
| WithHost (host : string)
| WithTLSClientConfig (cacertPath certPath keyPath : string).

(** [NewDockerClient]: the client, given by the options it was made
    with, the host, the configuration and the error. *)
Definition NewDockerClient (P : Process) (NewClientWithOpts : list client_Opt -> option error)
    : option (list client_Opt) * string * TestContainersConfig * option error :=
  let tcConfig := (configureTC P).1 in
  let host := tc_Host tcConfig in
  let '(opts, host) :=
    if decide (host <> "") then
      (([FromEnv; WithHost host] ++
        (if decide (tc_TLSVerify tcConfig = 1%Z)
         then [WithTLSClientConfig (filepath_Join P [tc_CertPath tcConfig; "ca.pem"])
                                   (filepath_Join P [tc_CertPath tcConfig; "cert.pem"])
                                   (filepath_Join P [tc_CertPath tcConfig; "key.pem"])]
         else []))%list, host)
    else
      let dockerHostEnv := Getenv P "DOCKER_HOST" in
      if decide (dockerHostEnv <> "") then ([FromEnv], dockerHostEnv)
      else ([FromEnv], "unix:///var/run/docker.sock") in
  match NewClientWithOpts opts with
  | Some e =>
      (None, "", {| tc_Host := ""; tc_TLSVerify := 0; tc_CertPath := "";
                    tc_RyukPrivileged := false |}, Some e)
  | None => (Some opts, host, tcConfig, None)
  end.

(** A process with a properties file that sets the privileged mode and
    no host, and an environment that says TRUE in capitals. *)
Definition sample_process : Process :=
  {| Getenv := fun name =>
       if decide (name = "TESTCONTAINERS_RYUK_CONTAINER_PRIVILEGED") then "TRUE"
       else if decide (name = "DOCKER_HOST") then "tcp://10.0.0.5:2375" else "";
     UserHomeDir := inr "/home/ci";
     filepath_Join := fun parts => String.concat "/" parts;
     LoadFile := fun _ => inr [("ryuk.container.privileged", "true");
                                ("docker.tls.verify", "1"); ("docker.cert.path", "/certs")];
     Decode := fun _ config =>
       (None, {| tc_Host := tc_Host config; tc_TLSVerify := 1; tc_CertPath := "/certs";
                 tc_RyukPrivileged := true |}) |}.

(* ===================================================================== *)
(** * Part II: theorems                                                   *)
(* ===================================================================== *)

Local Open Scope list_scope.

(** ** Byte buffers and headers *)

Lemma length_filled n got : length got <= n -> length (filled n got) = n.
Proof.
  intros H. unfold filled, make_bytes.
  rewrite length_app, length_replicate. lia.
Qed.

Lemma Read_length len s : length (rd_bytes (fst (Read len s))) <= len.
Proof.
  unfold Read. destruct s as [|c s']; simpl; [lia|].
  destruct (Nat.leb_spec (length (data c)) len); simpl; [lia|].
  rewrite length_take. lia.
Qed.

Lemma length_header w : length (header w) = 8.
Proof. apply length_filled, Read_length. Qed.

(** The length field is always there: the buffer has eight bytes. *)
Lemma header_count_Some w : exists count, header_count w = Some count.
Proof.
  unfold header_count. pose proof (length_header w) as H.
  destruct (header w) as [|b0 [|b1 [|b2 [|b3 [|b4 [|b5 [|b6 [|b7 [|b8 t]]]]]]]]];
    simpl in H; try discriminate.
  simpl. eauto.
Qed.

Lemma byteZ_nonneg b : (0 <= byteZ b)%Z.
Proof. unfold byteZ. lia. Qed.

(** The index into [logTypes] after the normalisation of the tag. *)
Lemma logTypes_lookup (t : Z) :
  (0 <= t)%Z -> (2 <? t)%Z = false ->
  logTypes !! Z.to_nat t =
    Some (if (t =? 2)%Z then StderrLog else if (t =? 1)%Z then StdoutLog else "").
Proof.
  intros H0 H2. apply Z.ltb_ge in H2.
  assert (t = 0 \/ t = 1 \/ t = 2)%Z as [-> | [-> | ->]] by lia; reflexivity.
Qed.

(** ** One pass of the loop, case by case *)

Lemma producer_LOOP_stop E consumers w :
  producer_LOOP E true consumers w =
    match Close E (calls w) with
    | Some e => ({| pc := PANIC e; since := since w; r := r w; calls := S (calls w) |}, [Close_call])
    | None => ({| pc := RETURN; since := since w; r := r w; calls := S (calls w) |}, [Close_call])
    end.
Proof. reflexivity. Qed.

(** The header read fails. *)
Lemma producer_LOOP_header_error E consumers w res r1 e :
  Read 8 (r w) = (res, r1) -> rd_err res = Some e ->
  producer_LOOP E false consumers w =
    if Contains e "use of closed network connection"
    then ({| pc := BEGIN; since := Sprintf_since (Now E (calls w)); r := r1;
             calls := S (calls w) |},
          [Read_call 8 res; Now_call (Now E (calls w))])
    else ({| pc := LOOP; since := since w; r := r1; calls := calls w |}, [Read_call 8 res]).
Proof.
  intros HR He. unfold producer_LOOP. rewrite HR, He. reflexivity.
Qed.

(** The header is read and its length field is zero. *)
Lemma producer_LOOP_zero E consumers w res r1 :
  Read 8 (r w) = (res, r1) -> rd_err res = None -> header_count w = Some 0%Z ->
  producer_LOOP E false consumers w =
    ({| pc := LOOP; since := since w; r := r1; calls := calls w |}, [Read_call 8 res]).
Proof.
  intros HR He Hc. unfold producer_LOOP, header_count, header in *.
  rewrite HR in *. simpl in Hc. rewrite He, Hc. reflexivity.
Qed.

(** The header is read and announces [count > 0] bytes. *)
Lemma producer_LOOP_frame E consumers w res r1 count res2 r2 :
  Read 8 (r w) = (res, r1) -> rd_err res = None ->
  header_count w = Some count -> count <> 0%Z ->
  Read (Z.to_nat count) r1 = (res2, r2) ->
  producer_LOOP E false consumers w =
    match rd_err res2 with
    | Some e =>
        ({| pc := LOOP; since := since w; r := r2; calls := calls w |},
         ([Read_call 8 res] ++ warn_of_tag (header_tag w) ++ [Read_call (Z.to_nat count) res2])
         ++ [Fprintf_stderr (error_reading_known_length e)])
    | None =>
        ({| pc := LOOP; since := since w; r := r2; calls := calls w |},
         ([Read_call 8 res] ++ warn_of_tag (header_tag w) ++ [Read_call (Z.to_nat count) res2])
         ++ map (fun c => Accept c {| LogType := kind_of_tag (header_tag w);
                                      Content := filled (Z.to_nat count) (rd_bytes res2) |})
                consumers)
    end.
Proof.
  intros HR He Hc Hnz HR2.
  unfold producer_LOOP, header_count, header_tag, header, kind_of_tag, warn_of_tag in *.
  rewrite HR in *. simpl in *. rewrite He, Hc.
  apply Z.eqb_neq in Hnz. rewrite Hnz.
  set (t := byteZ (nth 0 (filled 8 (rd_bytes res)) x00)).
  destruct (2 <? t)%Z eqn:Ht; rewrite HR2; destruct (rd_err res2); try reflexivity.
  rewrite (logTypes_lookup t (byteZ_nonneg _) Ht). reflexivity.
Qed.

(** The three ways through the [default] branch. *)
Ltac loop_cases E consumers w :=
  let res := fresh "res" in
  let r1 := fresh "r1" in
  let HR := fresh "HR" in
  let He := fresh "He" in
  let e := fresh "e" in
  let count := fresh "count" in
  let Hc := fresh "Hc" in
  let Hz := fresh "Hz" in
  let res2 := fresh "res2" in
  let r2 := fresh "r2" in
  let HR2 := fresh "HR2" in
  destruct (Read 8 (r w)) as [res r1] eqn:HR;
  destruct (rd_err res) as [e|] eqn:He;
  [ rewrite (producer_LOOP_header_error E consumers w res r1 e HR He)
  | destruct (header_count_Some w) as [count Hc];
    destruct (Z.eq_dec count 0%Z) as [Hz|Hz];
    [ subst count; rewrite (producer_LOOP_zero E consumers w res r1 HR He Hc)
    | destruct (Read (Z.to_nat count) r1) as [res2 r2] eqn:HR2;
      rewrite (producer_LOOP_frame E consumers w res r1 count res2 r2 HR He Hc Hz HR2) ] ].

Lemma kind_of_tag_cases t :
  kind_of_tag t = "" \/ kind_of_tag t = StdoutLog \/ kind_of_tag t = StderrLog.
Proof.
  unfold kind_of_tag.
  destruct (2 <? t)%Z, (t =? 2)%Z, (t =? 1)%Z; auto.
Qed.

Lemma In_Accept_map c l kind b (consumers : list LogConsumer) :
  In (Accept c l) (map (fun c => Accept c {| LogType := kind; Content := b |}) consumers) ->
  l = {| LogType := kind; Content := b |} /\ In c consumers.
Proof.
  rewrite in_map_iff. intros (c' & Heq & Hin). inversion Heq; subst. auto.
Qed.

Lemma In_Accept_reads c l res t n res2 :
  ~ In (Accept c l) ([Read_call 8 res] ++ warn_of_tag t ++ [Read_call n res2]).
Proof.
  unfold warn_of_tag. destruct (2 <? t)%Z; simpl; intuition discriminate.
Qed.

(** What one pass hands to a consumer is the frame its header announced. *)
Lemma producer_LOOP_Accept E stop consumers w c l :
  In (Accept c l) (snd (producer_LOOP E stop consumers w)) ->
  exists count res2 r2,
    stop = false /\ rd_err (fst (Read 8 (r w))) = None /\
    header_count w = Some count /\ count <> 0%Z /\
    Read (Z.to_nat count) (snd (Read 8 (r w))) = (res2, r2) /\ rd_err res2 = None /\
    l = {| LogType := kind_of_tag (header_tag w);
           Content := filled (Z.to_nat count) (rd_bytes res2) |} /\
    In c consumers.
Proof.
  destruct stop.
  - rewrite producer_LOOP_stop. destruct (Close E (calls w)); simpl; intuition discriminate.
  - loop_cases E consumers w.
    + destruct (Contains e _); simpl; intuition discriminate.
    + simpl; intuition discriminate.
    + destruct (rd_err res2) eqn:He2; cbn [snd]; rewrite in_app_iff; intros [Hin | Hin].
      * exfalso. eapply In_Accept_reads; eauto.
      * simpl in Hin. intuition discriminate.
      * exfalso. eapply In_Accept_reads; eauto.
      * apply In_Accept_map in Hin as [-> Hc'].
        exists count, res2, r2. simpl. auto 10.
Qed.

Lemma producer_LOOP_first_event E consumers w :
  hd_error (snd (producer_LOOP E false consumers w)) = Some (Read_call 8 (fst (Read 8 (r w)))).
Proof.
  loop_cases E consumers w.
  - destruct (Contains e _); reflexivity.
  - reflexivity.
  - destruct (rd_err res2); reflexivity.
Qed.

Lemma accepts_app evs1 evs2 : accepts (evs1 ++ evs2) = accepts evs1 ++ accepts evs2.
Proof. unfold accepts. apply omap_app. Qed.

Lemma delivered_app c evs1 evs2 :
  delivered c (evs1 ++ evs2) = delivered c evs1 ++ delivered c evs2.
Proof. unfold delivered. apply omap_app. Qed.

Lemma accepts_reads res t n res2 :
  accepts ([Read_call 8 res] ++ warn_of_tag t ++ [Read_call n res2]) = [].
Proof. unfold warn_of_tag. destruct (2 <? t)%Z; reflexivity. Qed.

Lemma accepts_map l (consumers : list LogConsumer) :
  accepts (map (fun c => Accept c l) consumers) = map (fun c => (c, l)) consumers.
Proof. induction consumers as [|c cs IH]; simpl; [reflexivity|]. unfold accepts in *. simpl. now rewrite IH. Qed.

(** A delivered record is as long as its header said, whatever the
    [Read] of the payload brought. *)
Lemma delivered_Content_length E stop consumers w c l :
  In (Accept c l) (snd (producer_LOOP E stop consumers w)) ->
  exists count, header_count w = Some count /\ (0 < count)%Z /\
                Z.of_nat (length (Content l)) = count.
Proof.
  intros H. apply producer_LOOP_Accept in H
    as (count & res2 & r2 & _ & _ & Hc & Hnz & HR2 & _ & -> & _).
  exists count. split; [exact Hc|].
  assert (0 <= count)%Z as Hpos.
  { unfold header_count in Hc.
    destruct (drop 4 (header w)) as [|b0 [|b1 [|b2 [|b3 t]]]]; try discriminate.
    inversion Hc. rewrite !Z.lor_nonneg, !Z.shiftl_nonneg.
    repeat split; apply byteZ_nonneg. }
  split; [lia|]. simpl.
  rewrite length_filled; [lia|].
  pose proof (Read_length (Z.to_nat count) (snd (Read 8 (r w)))) as HL.
  rewrite HR2 in HL. exact HL.
Qed.

(** ** C5: the kind of a delivered record *)

(** C5, as stated, fails: a frame whose header tag is 0 is delivered with
    the blank kind, which is neither stdout nor stderr. *)
Lemma C5_tag_zero_is_blank :
  ~ (forall E stop consumers w c l,
       In (Accept c l) (snd (producer_LOOP E stop consumers w)) ->
       (header_tag w <> 1%Z /\ header_tag w <> 2%Z -> LogType l = StdoutLog) /\
       (LogType l = StdoutLog \/ LogType l = StderrLog)).
Proof.
  intros H.
  destruct (H (sample_engine [] {| Unix := 0; Nanosecond := 0 |}) false [7]
              (at_loop [arrives 0 0 (frame x00 "x")]) 7
              {| LogType := ""; Content := list_byte_of_string "x" |}) as [_ [H1 | H1]].
  - vm_compute. auto.
  - discriminate H1.
  - discriminate H1.
Qed.

(** C5 (amended): a record handed to a consumer has the kind the table
    [logTypes] gives its header tag: stdout for every tag above 2 (3
    included) and for tag 1, stderr for tag 2, and the blank kind for
    tag 0; so its kind is one of blank, stdout, stderr. *)
Theorem C5_delivered_kind E stop consumers w c l :
  In (Accept c l) (snd (producer_LOOP E stop consumers w)) ->
  ((2 < header_tag w)%Z -> LogType l = StdoutLog) /\
  (header_tag w = 1%Z -> LogType l = StdoutLog) /\
  (header_tag w = 2%Z -> LogType l = StderrLog) /\
  (header_tag w = 0%Z -> LogType l = "") /\
  (LogType l = "" \/ LogType l = StdoutLog \/ LogType l = StderrLog).
Proof.
  intros H. apply producer_LOOP_Accept in H
    as (count & res2 & r2 & _ & _ & _ & _ & _ & _ & -> & _).
  simpl. repeat split.
  - intros Ht. unfold kind_of_tag. apply Z.ltb_lt in Ht. now rewrite Ht.
  - intros ->. reflexivity.
  - intros ->. reflexivity.
  - intros ->. reflexivity.
  - apply kind_of_tag_cases.
Qed.

Lemma C5_delivered_kind_witness :
  LogType {| LogType := StdoutLog; Content := list_byte_of_string "x" |} = StdoutLog.
Proof.
  refine (proj1 (C5_delivered_kind (sample_engine [] {| Unix := 0; Nanosecond := 0 |}) false [7]
                   (at_loop [arrives 0 0 (frame x03 "x")]) 7 _ _) _).
  - vm_compute. auto.
  - vm_compute. reflexivity.
Defined.

(** ** C9: frames of length zero *)

(** C9: when the header is read without error and its length field is
    zero, the pass hands nothing to any consumer, writes no error line,
    and leaves the goroutine at the head of the loop, whose next action
    is the read of the following header. *)
Theorem C9_zero_length_frame_skipped E consumers w :
  rd_err (fst (Read 8 (r w))) = None -> header_count w = Some 0%Z ->
  producer_LOOP E false consumers w =
    ({| pc := LOOP; since := since w; r := snd (Read 8 (r w)); calls := calls w |},
     [Read_call 8 (fst (Read 8 (r w)))]) /\
  accepts (snd (producer_LOOP E false consumers w)) = [] /\
  (forall c, delivered c (snd (producer_LOOP E false consumers w)) = []) /\
  (forall line, ~ In (Fprintf_stderr line) (snd (producer_LOOP E false consumers w))) /\
  hd_error (snd (producer_LOOP E false consumers (fst (producer_LOOP E false consumers w)))) =
    Some (Read_call 8 (fst (Read 8 (snd (Read 8 (r w)))))).
Proof.
  intros He Hc.
  destruct (Read 8 (r w)) as [res r1] eqn:HR. cbn [fst snd] in He |- *.
  rewrite (producer_LOOP_zero E consumers w res r1 HR He Hc). cbn [fst snd].
  repeat split; try reflexivity.
  - intros line [H | []]. discriminate H.
  - apply producer_LOOP_first_event.
Qed.

Lemma C9_zero_length_frame_skipped_witness :
  accepts (snd (producer_LOOP (sample_engine [] {| Unix := 0; Nanosecond := 0 |}) false [7; 8]
                  (at_loop [arrives 0 0 (frame x01 ""); arrives 0 0 (frame x01 "x")]))) = [].
Proof.
  refine (proj1 (proj2 (C9_zero_length_frame_skipped _ _ _ _ _))); vm_compute; reflexivity.
Defined.

(** ** C6: the payload read *)

(** C6 fails on a short read.  The payload is read with one [Read] whose
    byte count is dropped: when the engine delivers the three announced
    bytes in two arrivals, the record handed over has three bytes of
    which the last is the zero the buffer was made with, the third
    payload byte stays in the stream, and the next header is read from
    it. *)
Theorem C6_short_read_breaks_framing E :
  let w := at_loop [arrives 0 0 (frame_header x01 3);
                    arrives 0 0 (list_byte_of_string "ab");
                    arrives 0 0 (list_byte_of_string "c" ++ frame x02 "d")] in
  let w1 := fst (producer_LOOP E false [7] w) in
  header_count w = Some 3%Z /\
  delivered 7 (snd (producer_LOOP E false [7] w)) =
    [{| LogType := StdoutLog; Content := [x61; x62; x00] |}] /\
  r w1 = [arrives 0 0 (list_byte_of_string "c" ++ frame x02 "d")] /\
  header w1 = list_byte_of_string "c" ++ [x02; x00; x00; x00; x00; x00; x00] /\
  delivered 7 (snd (producer_LOOP E false [7] w1)) = [].
Proof. vm_compute. repeat split; reflexivity. Qed.

(** When the arrival holds the whole payload, the pass consumes exactly
    the announced bytes and hands them over. *)
Lemma payload_read_in_full E consumers w count c0 rest :
  rd_err (fst (Read 8 (r w))) = None -> header_count w = Some count -> count <> 0%Z ->
  snd (Read 8 (r w)) = c0 :: rest -> Z.to_nat count < length (data c0) ->
  producer_LOOP E false consumers w =
    ({| pc := LOOP; since := since w;
        r := {| arrival := arrival c0; data := drop (Z.to_nat count) (data c0); err := err c0 |} :: rest;
        calls := calls w |},
     ([Read_call 8 (fst (Read 8 (r w)))] ++ warn_of_tag (header_tag w) ++
      [Read_call (Z.to_nat count)
         {| rd_bytes := take (Z.to_nat count) (data c0); rd_err := None;
            rd_at := Some (arrival c0) |}]) ++
     map (fun c => Accept c {| LogType := kind_of_tag (header_tag w);
                               Content := take (Z.to_nat count) (data c0) |}) consumers).
Proof.
  intros He Hc Hnz Hr1 Hlen.
  destruct (Read 8 (r w)) as [res r1] eqn:HR. simpl in He, Hr1. subst r1.
  assert (Read (Z.to_nat count) (c0 :: rest) =
          ({| rd_bytes := take (Z.to_nat count) (data c0); rd_err := None;
              rd_at := Some (arrival c0) |},
           {| arrival := arrival c0; data := drop (Z.to_nat count) (data c0); err := err c0 |}
             :: rest)) as HR2.
  { unfold Read. destruct (Nat.leb_spec (length (data c0)) (Z.to_nat count)); [lia | reflexivity]. }
  rewrite (producer_LOOP_frame E consumers w res _ count _ _ HR He Hc Hnz HR2). simpl.
  unfold filled. rewrite length_take, Nat.min_l by lia.
  rewrite Nat.sub_diag. simpl. rewrite app_nil_r. reflexivity.
Qed.

(** ** The text of [since] *)

Lemma nodot_uint d : nodot (NilEmpty.string_of_uint d).
Proof. induction d; simpl; auto; split; auto; discriminate. Qed.

Lemma nodot_NilZero d : nodot (NilZero.string_of_uint d).
Proof.
  destruct d; try apply (nodot_uint (_ _)).
  simpl. split; [discriminate | exact I].
Qed.

Lemma nodot_fmt_d z : nodot (fmt_d z).
Proof.
  unfold fmt_d. destruct (Z.to_int z) as [d | d]; simpl.
  - apply nodot_NilZero.
  - split; [discriminate | apply nodot_NilZero].
Qed.

Lemma split_at_dot (a1 a2 b1 b2 : string) :
  nodot a1 -> nodot a2 ->
  (a1 ++ String "." b1)%string = (a2 ++ String "." b2)%string -> a1 = a2 /\ b1 = b2.
Proof.
  revert a2. induction a1 as [|c a1 IH]; intros [|c' a2]; simpl; intros H1 H2 Heq.
  - inversion Heq. auto.
  - inversion Heq; subst. destruct H2 as [H2 _]. contradiction.
  - inversion Heq; subst. destruct H1 as [H1 _]. contradiction.
  - inversion Heq; subst. destruct H1 as [_ H1], H2 as [_ H2].
    destruct (IH a2 H1 H2 H3) as [-> ->]. auto.
Qed.

Lemma fmt_d_inj z1 z2 : fmt_d z1 = fmt_d z2 -> z1 = z2.
Proof.
  unfold fmt_d. intros H. apply DecimalZ.to_int_inj.
  assert (forall z, NilZero.int_of_string (NilZero.string_of_int (Z.to_int z)) = Some (Z.to_int z))
    as Hisi.
  { intros z. apply NilZero.isi; destruct z; simpl; try discriminate;
      intros Hn; inversion Hn as [Hn']; now apply DecimalPos.Unsigned.to_uint_nonnil in Hn'. }
  pose proof (Hisi z1) as E1. rewrite H, Hisi in E1. now inversion E1.
Qed.

Lemma value_pad0 k s : value (pad0 k s) = value s.
Proof.
  induction k as [|k IH]; [reflexivity|].
  unfold value in *. simpl.
  destruct (NilEmpty.uint_of_string (pad0 k s)) as [u|] eqn:Hu;
    destruct (NilEmpty.uint_of_string s) as [u'|] eqn:Hu'; simpl in *;
    try discriminate; auto.
Qed.

Lemma value_string_of_uint u : value (NilZero.string_of_uint u) = Some (N.of_uint u).
Proof.
  assert (u = Nil \/ NilZero.string_of_uint u = NilEmpty.string_of_uint u) as [-> | ->]
    by (destruct u; auto).
  - reflexivity.
  - unfold value. now rewrite NilEmpty.usu.
Qed.

Lemma value_digits z : value (digits z) = Some (Z.to_N z).
Proof.
  unfold digits. rewrite value_string_of_uint. f_equal. apply DecimalN.Unsigned.of_to.
Qed.

Lemma value_fmt_09d z : (0 <= z)%Z -> value (fmt_09d z) = Some (Z.to_N z).
Proof.
  intros Hz. unfold fmt_09d.
  destruct (Z.ltb_spec z 0); [lia|].
  rewrite value_pad0. apply value_digits.
Qed.

(** The text keeps both fields: two instants with the same text are the
    same instant. *)
Lemma Sprintf_since_inj t1 t2 :
  (0 <= Nanosecond t1)%Z -> (0 <= Nanosecond t2)%Z ->
  Sprintf_since t1 = Sprintf_since t2 -> t1 = t2.
Proof.
  intros H1 H2 Heq. unfold Sprintf_since in Heq.
  change ("." ++ ?x)%string with (String "." x) in Heq.
  apply split_at_dot in Heq as [Hs Hn]; try apply nodot_fmt_d.
  apply fmt_d_inj in Hs.
  assert (Z.to_N (Nanosecond t1) = Z.to_N (Nanosecond t2)) as HN.
  { pose proof (value_fmt_09d _ H1) as V1. rewrite Hn, (value_fmt_09d _ H2) in V1.
    now inversion V1. }
  destruct t1 as [s1 n1], t2 as [s2 n2]; simpl in *.
  f_equal; [exact Hs | lia].
Qed.

(** ** C2: the reconnect *)

(** C2, as stated, fails: the [since] of the reissued request is the
    reading of the clock when the error is handled, not the instant of
    the last successful read.  Bytes arrive at 100.000000005 s, the
    connection is found closed later and the clock shows 107.500000100 s
    when the error is handled: the request carries that reading. *)
Lemma C2_since_is_the_clock_not_the_last_read :
  ~ (forall E id sched evs options t,
       snd (producer_run E id sched producer_init) = evs ++ [ContainerLogs_req id options] ->
       last_read_at evs = Some t ->
       Since options = Sprintf_since t).
Proof.
  intros H.
  specialize (H (sample_engine
                   [[arrives 100 5 (frame x01 "a");
                     breaks 107 500000000 "read tcp: use of closed network connection"];
                    []; []]
                   {| Unix := 107; Nanosecond := 500000100 |})
                "c0ffee" (alone [false; false; false; false] [7])
                [ContainerLogs_req "c0ffee"
                   {| ShowStdout := true; ShowStderr := true; Follow := true; Since := "" |};
                 Read_call 8 {| rd_bytes := frame_header x01 1; rd_err := None;
                                rd_at := Some {| Unix := 100; Nanosecond := 5 |} |};
                 Read_call 1 {| rd_bytes := [x61]; rd_err := None;
                                rd_at := Some {| Unix := 100; Nanosecond := 5 |} |};
                 Accept 7 {| LogType := StdoutLog; Content := [x61] |};
                 Read_call 8 {| rd_bytes := [];
                                rd_err := Some "read tcp: use of closed network connection";
                                rd_at := Some {| Unix := 107; Nanosecond := 500000000 |} |};
                 Now_call {| Unix := 107; Nanosecond := 500000100 |}]
                {| ShowStdout := true; ShowStderr := true; Follow := true;
                   Since := "107.500000100" |}
                {| Unix := 100; Nanosecond := 5 |}).
  assert ("107.500000100" = "100.000000005") as Habs; [|discriminate Habs].
  apply H; vm_compute; reflexivity.
Qed.

(** C2 (amended): when the read of the header fails with an error whose
    text contains "use of closed network connection", the goroutine
    reads the clock and goes back to [BEGIN], where it reissues the log
    request with [since] set to that reading of the clock, printed as
    seconds, a dot and the nanoseconds on nine digits; the text keeps
    both fields exactly. *)
Theorem C2_reconnect_since_is_now E id consumers w e :
  rd_err (fst (Read 8 (r w))) = Some e ->
  Contains e "use of closed network connection" = true ->
  snd (producer_LOOP E false consumers w) =
    [Read_call 8 (fst (Read 8 (r w))); Now_call (Now E (calls w))] /\
  pc (fst (producer_LOOP E false consumers w)) = BEGIN /\
  since (fst (producer_LOOP E false consumers w)) =
    (fmt_d (Unix (Now E (calls w))) ++ "." ++ fmt_09d (Nanosecond (Now E (calls w))))%string /\
  snd (producer_step E id false consumers (fst (producer_LOOP E false consumers w))) =
    [ContainerLogs_req id {| ShowStdout := true; ShowStderr := true; Follow := true;
                             Since := Sprintf_since (Now E (calls w)) |}] /\
  (forall t, (0 <= Nanosecond t)%Z -> (0 <= Nanosecond (Now E (calls w)))%Z ->
             Sprintf_since t = Sprintf_since (Now E (calls w)) -> t = Now E (calls w)).
Proof.
  intros He HC.
  destruct (Read 8 (r w)) as [res r1] eqn:HR. cbn [fst snd] in *.
  rewrite (producer_LOOP_header_error E consumers w res r1 e HR He), HC. cbn [fst snd pc since].
  repeat split.
  - unfold producer_step, producer_BEGIN. cbn [pc since calls].
    destruct (ContainerLogs E _ id _); reflexivity.
  - intros t H1 H2. now apply Sprintf_since_inj.
Qed.

Lemma C2_reconnect_since_is_now_witness :
  since (fst (producer_LOOP (sample_engine [] {| Unix := 107; Nanosecond := 500000100 |}) false [7]
                (at_loop [breaks 107 500000000 "read tcp: use of closed network connection"])))
  = "107.500000100".
Proof.
  refine (proj1 (proj2 (proj2 (C2_reconnect_since_is_now _ "c0ffee" _ _
            "read tcp: use of closed network connection" _ _)))); vm_compute; reflexivity.
Defined.

(** ** C7: delivery to the consumers *)

(** What a pass does apart from the hand-over does not depend on who
    listens; the hand-over gives the frame on the stream, if there is
    one, to the consumers in the order of the list. *)
Lemma producer_LOOP_split E stop w :
  exists w' evs0,
    accepts evs0 = [] /\
    forall consumers,
      producer_LOOP E stop consumers w =
        (w', evs0 ++ match (if stop then None else decoded_frame w) with
                     | Some l => map (fun c => Accept c l) consumers
                     | None => []
                     end).
Proof.
  destruct stop.
  - destruct (producer_LOOP E true [] w) as [w' evs] eqn:Hp.
    exists w', evs. rewrite producer_LOOP_stop in Hp. split.
    + destruct (Close E (calls w)); inversion Hp; reflexivity.
    + intros cs. rewrite app_nil_r, producer_LOOP_stop. exact Hp.
  - unfold decoded_frame.
    destruct (Read 8 (r w)) as [res r1] eqn:HR. cbn [fst snd].
    destruct (rd_err res) as [e|] eqn:He.
    { exists (if Contains e "use of closed network connection"
              then {| pc := BEGIN; since := Sprintf_since (Now E (calls w)); r := r1;
                      calls := S (calls w) |}
              else {| pc := LOOP; since := since w; r := r1; calls := calls w |}),
             (if Contains e "use of closed network connection"
              then [Read_call 8 res; Now_call (Now E (calls w))]
              else [Read_call 8 res]).
      split; [destruct (Contains e _); reflexivity|].
      intros cs. rewrite app_nil_r, (producer_LOOP_header_error E cs w res r1 e HR He).
      destruct (Contains e _); reflexivity. }
    destruct (header_count_Some w) as [count Hc]. rewrite Hc.
    destruct (Z.eq_dec count 0%Z) as [Hz | Hz].
    { subst count. exists {| pc := LOOP; since := since w; r := r1; calls := calls w |},
        [Read_call 8 res]. split; [reflexivity|].
      intros cs. rewrite app_nil_r. apply (producer_LOOP_zero E cs w res r1 HR He Hc). }
    rewrite (proj2 (Z.eqb_neq count 0) Hz).
    destruct (Read (Z.to_nat count) r1) as [res2 r2] eqn:HR2. cbn [fst].
    destruct (rd_err res2) as [e2|] eqn:He2.
    + eexists _, _. split; [|intros cs; rewrite app_nil_r;
        rewrite (producer_LOOP_frame E cs w res r1 count res2 r2 HR He Hc Hz HR2), He2;
        reflexivity].
      rewrite accepts_app, accepts_reads. reflexivity.
    + eexists _, _. split; [|intros cs;
        rewrite (producer_LOOP_frame E cs w res r1 count res2 r2 HR He Hc Hz HR2), He2;
        reflexivity].
      apply accepts_reads.
Qed.

(** After the hand-over of a frame the goroutine is at the head of the
    loop again, at the stream as the read of the payload left it. *)
Lemma producer_LOOP_delivered E consumers w l :
  decoded_frame w = Some l ->
  fst (producer_LOOP E false consumers w)
  = {| pc := LOOP; since := since w;
       r := snd (Read (length (Content l)) (snd (Read 8 (r w)))); calls := calls w |}.
Proof.
  unfold decoded_frame.
  destruct (Read 8 (r w)) as [res r1] eqn:HR. cbn [fst snd].
  destruct (rd_err res) as [e|] eqn:He; [discriminate|].
  destruct (header_count w) as [count|] eqn:Hc; [|discriminate].
  destruct (Z.eqb_spec count 0) as [Hz | Hz]; [discriminate|].
  destruct (Read (Z.to_nat count) r1) as [res2 r2] eqn:HR2. cbn [fst].
  destruct (rd_err res2) as [e2|] eqn:He2; [discriminate|].
  intros [= <-]. cbn [Content].
  rewrite (producer_LOOP_frame E consumers w res r1 count res2 r2 HR He Hc Hz HR2), He2.
  cbn [fst]. rewrite length_filled.
  - rewrite HR2. reflexivity.
  - pose proof (Read_length (Z.to_nat count) r1) as Hlen. rewrite HR2 in Hlen. exact Hlen.
Qed.

Lemma producer_step_split E id stop w :
  exists w' evs0,
    accepts evs0 = [] /\
    forall consumers,
      producer_step E id stop consumers w =
        (w', evs0 ++ match (match pc w with
                            | LOOP => if stop then None else decoded_frame w
                            | _ => None
                            end) with
                     | Some l => map (fun c => Accept c l) consumers
                     | None => []
                     end).
Proof.
  unfold producer_step. destruct (pc w) eqn:Hpc.
  - exists (fst (producer_BEGIN E id w)), (snd (producer_BEGIN E id w)). split.
    + unfold producer_BEGIN. destruct (ContainerLogs E _ _ _); reflexivity.
    + intros _. rewrite app_nil_r. now destruct (producer_BEGIN E id w).
  - apply producer_LOOP_split.
  - exists w, []. auto.
  - exists w, []. auto.
Qed.

Lemma delivered_no_accepts c evs : accepts evs = [] -> delivered c evs = [].
Proof.
  induction evs as [|ev evs IH]; [reflexivity|].
  destruct ev; unfold accepts, delivered in *; simpl; try exact IH.
  discriminate.
Qed.

Lemma delivered_cons_Accept c c0 l evs :
  delivered c (Accept c0 l :: evs) =
    if decide (c0 = c) then l :: delivered c evs else delivered c evs.
Proof. unfold delivered. simpl. destruct (decide (c0 = c)); reflexivity. Qed.

Lemma delivered_not_registered c l (consumers : list LogConsumer) :
  ~ In c consumers -> delivered c (map (fun c' => Accept c' l) consumers) = [].
Proof.
  induction consumers as [|c0 cs IH]; [reflexivity|].
  intros Hn. cbn [map]. rewrite delivered_cons_Accept.
  destruct (decide (c0 = c)) as [-> | _]; [simpl in Hn; tauto|]. apply IH. simpl in Hn. tauto.
Qed.

Lemma delivered_handover c l (consumers : list LogConsumer) :
  List.NoDup consumers -> In c consumers ->
  delivered c (map (fun c' => Accept c' l) consumers) = [l].
Proof.
  induction 1 as [|c0 cs Hnotin Hnd IH]; [intros []|].
  intros Hin. cbn [map]. rewrite delivered_cons_Accept.
  destruct (decide (c0 = c)) as [-> | Hne].
  - now rewrite delivered_not_registered.
  - destruct Hin as [-> | Hin]; [congruence|]. now apply IH.
Qed.

Lemma accepts_flat_map (consumers : list LogConsumer) (f : option Log) :
  accepts match f with
          | Some l => map (fun c => Accept c l) consumers
          | None => []
          end
  = flat_map (fun l => map (fun c => (c, l)) consumers) (option_list f).
Proof.
  destruct f as [l|]; [|reflexivity]. cbn [option_list option_rect flat_map].
  rewrite app_nil_r. apply accepts_map.
Qed.

(** Along a run with a fixed list of consumers, every frame decoded is
    handed to the consumers in the order of the list, frame after frame
    in the order of decoding; so each of a list of distinct consumers is
    handed the decoded frames, all of them and in that order. *)
Lemma producer_run_accepts E id stops : forall w consumers,
  fst (producer_run E id (alone stops consumers) w) = fst (producer_run E id (alone stops []) w) /\
  accepts (snd (producer_run E id (alone stops consumers) w))
  = flat_map (fun l => map (fun c => (c, l)) consumers) (decoded E id stops w).
Proof.
  induction stops as [|stop stops IH]; intros w cs; [split; reflexivity|].
  cbn [alone map producer_run decoded].
  destruct (producer_step_split E id stop w) as (w' & evs0 & Hacc & Hstep).
  rewrite (Hstep cs), (Hstep []). cbn [fst].
  destruct (IH w' cs) as [IH1 IH2]. fold (alone stops cs) (alone stops []).
  destruct (producer_run E id (alone stops cs) w') as [w2 evs2].
  destruct (producer_run E id (alone stops []) w') as [w2' evs2'].
  cbn [fst snd] in *. split; [exact IH1|].
  rewrite !accepts_app, IH2, Hacc, flat_map_app. cbn [app]. f_equal.
  destruct (pc w); try reflexivity.
  destruct stop; [reflexivity|]. apply accepts_flat_map.
Qed.

Lemma delivered_of_accepted c evs :
  delivered c evs = omap (fun a => if decide (a.1 = c) then Some a.2 else None) (accepts evs).
Proof.
  induction evs as [|ev evs IH]; [reflexivity|].
  destruct ev; try exact IH.
  rewrite delivered_cons_Accept, IH. unfold accepts. simpl.
  destruct (decide (c0 = c)); reflexivity.
Qed.

Lemma producer_run_delivered E id stops w consumers c :
  List.NoDup consumers -> In c consumers ->
  delivered c (snd (producer_run E id (alone stops consumers) w)) = decoded E id stops w.
Proof.
  intros Hnd Hin.
  rewrite delivered_of_accepted, (proj2 (producer_run_accepts E id stops w consumers)).
  induction (decoded E id stops w) as [|l ls IH]; [reflexivity|].
  cbn [flat_map]. rewrite omap_app, IH.
  replace (omap (fun a : LogConsumer * Log => if decide (a.1 = c) then Some a.2 else None)
                (map (fun c0 => (c0, l)) consumers)) with [l]; [reflexivity|].
  pose proof (delivered_handover c l consumers Hnd Hin) as Hh.
  rewrite delivered_of_accepted, accepts_map in Hh. symmetry. exact Hh.
Qed.

(** C7: in every pass the frame decoded from the stream, if there is
    one, goes to all the consumers registered at that time, in the order
    of the list, and nothing else is handed over; after the hand-over
    the goroutine is at the head of the loop, at the stream right after
    the payload; [FollowOutput] registers at the end of the list; along
    a run with a fixed list of consumers the hand-overs are, frame after
    frame in the order of decoding, the consumers in the order of
    registration, so that each of a list of distinct consumers is handed
    every decoded frame, in the order they were decoded; and with two
    consumers and the frames stdout "a", stderr "b", stdout "c" on the
    stream, these are the frames decoded and each of the two consumers
    is handed exactly that sequence. *)
Theorem C7_delivery_in_registration_order E id :
  (forall stop w consumers,
     accepts (snd (producer_LOOP E stop consumers w)) =
       match (if stop then None else decoded_frame w) with
       | Some l => map (fun c => (c, l)) consumers
       | None => []
       end) /\
  (forall w consumers l,
     decoded_frame w = Some l ->
     fst (producer_LOOP E false consumers w)
     = {| pc := LOOP; since := since w;
          r := snd (Read (length (Content l)) (snd (Read 8 (r w)))); calls := calls w |}) /\
  (forall consumers consumer, FollowOutput consumers consumer = consumers ++ [consumer]) /\
  (forall stops w consumers,
     accepts (snd (producer_run E id (alone stops consumers) w))
     = flat_map (fun l => map (fun c => (c, l)) consumers) (decoded E id stops w)) /\
  (forall stops w consumers c,
     List.NoDup consumers -> In c consumers ->
     delivered c (snd (producer_run E id (alone stops consumers) w)) = decoded E id stops w) /\
  (let abc := [{| LogType := StdoutLog; Content := list_byte_of_string "a" |};
               {| LogType := StderrLog; Content := list_byte_of_string "b" |};
               {| LogType := StdoutLog; Content := list_byte_of_string "c" |}] in
   let E3 := sample_engine [[arrives 0 0 (frame x01 "a" ++ frame x02 "b" ++ frame x01 "c")]]
                           {| Unix := 0; Nanosecond := 0 |} in
   let consumers := FollowOutput (FollowOutput [] 1) 2 in
   let evs := snd (producer_run E3 id (alone [false; false; false; false] consumers)
                                producer_init) in
   decoded E3 id [false; false; false; false] producer_init = abc /\
   delivered 1 evs = abc /\ delivered 2 evs = abc /\
   accepts evs = flat_map (fun l => [(1, l); (2, l)]) abc).
Proof.
  split; [|split; [|split; [|split; [|split]]]].
  - intros stop w cs. destruct (producer_LOOP_split E stop w) as (w' & evs0 & Hacc & Hstep).
    rewrite (Hstep cs). cbn [snd]. rewrite accepts_app, Hacc.
    destruct (if stop then None else decoded_frame w); [apply accepts_map | reflexivity].
  - intros w cs l. apply producer_LOOP_delivered.
  - intros [|c0 cs] c; reflexivity.
  - intros stops w cs. apply producer_run_accepts.
  - intros stops w cs c Hnd Hin. now apply producer_run_delivered.
  - repeat split.
Qed.

Lemma C7_delivery_in_registration_order_witness :
  delivered 2 (snd (producer_run
                      (sample_engine [[arrives 0 0 (frame x02 "b")]] {| Unix := 0; Nanosecond := 0 |})
                      "c0ffee" (alone [false; false] [1; 2]) producer_init))
  = [{| LogType := StderrLog; Content := list_byte_of_string "b" |}].
Proof.
  refine (eq_trans
            (proj1 (proj2 (proj2 (proj2 (proj2 (C7_delivery_in_registration_order _ _)))))
               _ _ _ _ _ _) _).
  - repeat constructor; simpl; intuition discriminate.
  - simpl. auto.
  - reflexivity.
Defined.

(** ** C8: read errors *)

(** C8: the [default] branch never ends the goroutine.  A header read
    that fails with an error other than the closed-connection one hands
    nothing over and leaves the goroutine at the head of the loop, with
    the same [since], at the stream as the failed read left it; a
    payload read that fails does the same after logging the error.  In
    both cases the frames decoded from the rest of the stream are then
    delivered as ever: every registered consumer is handed, in order,
    all of them. *)
Theorem C8_read_errors_do_not_end_the_loop E id consumers w :
  (pc (fst (producer_LOOP E false consumers w)) = LOOP \/
   pc (fst (producer_LOOP E false consumers w)) = BEGIN) /\
  (forall e,
     rd_err (fst (Read 8 (r w))) = Some e ->
     Contains e "use of closed network connection" = false ->
     let w' := {| pc := LOOP; since := since w; r := snd (Read 8 (r w)); calls := calls w |} in
     producer_LOOP E false consumers w = (w', [Read_call 8 (fst (Read 8 (r w)))]) /\
     (pc w = LOOP -> forall stops c,
        List.NoDup consumers -> In c consumers ->
        delivered c (snd (producer_run E id (alone (false :: stops) consumers) w))
        = decoded E id stops w')) /\
  (forall count e,
     rd_err (fst (Read 8 (r w))) = None -> header_count w = Some count -> count <> 0%Z ->
     rd_err (fst (Read (Z.to_nat count) (snd (Read 8 (r w))))) = Some e ->
     let w' := {| pc := LOOP; since := since w;
                  r := snd (Read (Z.to_nat count) (snd (Read 8 (r w)))); calls := calls w |} in
     fst (producer_LOOP E false consumers w) = w' /\
     accepts (snd (producer_LOOP E false consumers w)) = [] /\
     last (snd (producer_LOOP E false consumers w))
       = Some (Fprintf_stderr (error_reading_known_length e)) /\
     (pc w = LOOP -> forall stops c,
        List.NoDup consumers -> In c consumers ->
        delivered c (snd (producer_run E id (alone (false :: stops) consumers) w))
        = decoded E id stops w')) /\
  (forall n res e,
     In (Read_call n res) (snd (producer_LOOP E false consumers w)) ->
     rd_err res = Some e ->
     Contains e "use of closed network connection" = false ->
     pc (fst (producer_LOOP E false consumers w)) = LOOP /\
     since (fst (producer_LOOP E false consumers w)) = since w /\
     accepts (snd (producer_LOOP E false consumers w)) = [] /\
     exists s, Read n s = (res, r (fst (producer_LOOP E false consumers w)))).
Proof.
  assert (forall w' evs, producer_LOOP E false consumers w = (w', evs) -> accepts evs = [] ->
            pc w = LOOP -> forall stops c,
            List.NoDup consumers -> In c consumers ->
            delivered c (snd (producer_run E id (alone (false :: stops) consumers) w))
            = decoded E id stops w') as Hrun.
  { intros w' evs Hp Hacc Hpc stops c Hnd Hin.
    cbn [alone map producer_run]. unfold producer_step. rewrite Hpc, Hp.
    fold (alone stops consumers).
    pose proof (producer_run_delivered E id stops w' consumers c Hnd Hin) as Hd.
    destruct (producer_run E id (alone stops consumers) w') as [w2 evs2]. cbn [snd] in *.
    rewrite delivered_app, (delivered_no_accepts c evs Hacc). exact Hd. }
  split; [|split; [|split]].
  - loop_cases E consumers w.
    + destruct (Contains e _); auto.
    + auto.
    + destruct (rd_err res2); auto.
  - intros e He Hnc. cbv zeta.
    destruct (Read 8 (r w)) as [res r1] eqn:HR. cbn [fst snd] in *.
    pose proof (producer_LOOP_header_error E consumers w res r1 e HR He) as Hp.
    rewrite Hnc in Hp. split; [exact Hp|].
    exact (Hrun _ _ Hp eq_refl).
  - intros count e He Hc Hz He2. cbv zeta.
    destruct (Read 8 (r w)) as [res r1] eqn:HR. cbn [fst snd] in *.
    destruct (Read (Z.to_nat count) r1) as [res2 r2] eqn:HR2. cbn [fst snd] in *.
    pose proof (producer_LOOP_frame E consumers w res r1 count res2 r2 HR He Hc Hz HR2) as Hp.
    rewrite He2 in Hp. rewrite Hp. cbn [fst snd].
    assert (accepts (([Read_call 8 res] ++ warn_of_tag (header_tag w)
                        ++ [Read_call (Z.to_nat count) res2])
                       ++ [Fprintf_stderr (error_reading_known_length e)]) = []) as Hacc.
    { rewrite accepts_app, accepts_reads. reflexivity. }
    split; [reflexivity|]. split; [exact Hacc|]. split; [apply last_snoc|].
    exact (Hrun _ _ Hp Hacc).
  - intros n res0 e0 Hin Herr Hnc.
    revert Hin. loop_cases E consumers w.
    + destruct (Contains e _) eqn:HC; cbn [fst snd pc since r].
      * intros [Heq | [Heq | []]]; [|discriminate Heq].
        inversion Heq; subst. congruence.
      * intros [Heq | []]. inversion Heq; subst. repeat split; auto. eauto.
    + cbn [fst snd]. intros [Heq | []]. inversion Heq; subst. congruence.
    + destruct (rd_err res2) eqn:He2; cbn [fst snd pc since r].
      * intros Hin. repeat split; auto.
        { rewrite accepts_app, accepts_reads. reflexivity. }
        rewrite !in_app_iff in Hin. unfold warn_of_tag in Hin.
        destruct Hin as [[[Heq | []] | [Hin | [Heq | []]]] | [Heq | []]];
          try discriminate Heq.
        -- inversion Heq; subst. congruence.
        -- destruct (2 <? header_tag w)%Z; [destruct Hin as [Heq | []]; discriminate Heq
                                           | destruct Hin].
        -- inversion Heq; subst. eauto.
      * rewrite in_app_iff. intros [Hin | Hin].
        -- unfold warn_of_tag in Hin. destruct (2 <? header_tag w)%Z; simpl in Hin.
           ++ destruct Hin as [Heq | [Heq | [Heq | []]]]; try discriminate Heq;
                inversion Heq; subst; congruence.
           ++ destruct Hin as [Heq | [Heq | []]]; inversion Heq; subst; congruence.
        -- apply in_map_iff in Hin as (? & Heq & _). discriminate Heq.
Qed.

Lemma C8_read_errors_do_not_end_the_loop_witness :
  delivered 7 (snd (producer_run (sample_engine [] {| Unix := 0; Nanosecond := 0 |}) "c0ffee"
                      (alone [false; false] [7])
                      (at_loop [breaks 0 0 "unexpected EOF"; arrives 0 0 (frame x01 "x")])))
  = [{| LogType := StdoutLog; Content := list_byte_of_string "x" |}].
Proof.
  refine (eq_trans
            (proj2 (proj1 (proj2 (C8_read_errors_do_not_end_the_loop
                                    (sample_engine [] {| Unix := 0; Nanosecond := 0 |}) "c0ffee" [7]
                                    (at_loop [breaks 0 0 "unexpected EOF";
                                              arrives 0 0 (frame x01 "x")])))
                          "unexpected EOF" eq_refl eq_refl)
                   eq_refl [false] 7 _ _) _).
  - repeat constructor. intros [].
  - left. reflexivity.
  - reflexivity.
Defined.

(** ** C3: [StopLogProducer] against the goroutines that can receive *)

Lemma live_app ws1 ws2 : live (ws1 ++ ws2) = live ws1 + live ws2.
Proof. unfold live. now rewrite map_app, list_sum_app. Qed.

Lemma live_insert (ws : list Worker) i w w' :
  ws !! i = Some w -> live (<[i := w']> ws) + alive w = live ws + alive w'.
Proof.
  revert i. induction ws as [|w0 ws IH]; intros [|i] H; simpl in H; try discriminate.
  - inversion H; subst. unfold live. simpl. lia.
  - specialize (IH i H). unfold live in *. simpl. lia.
Qed.

Lemma producer_BEGIN_alive E id w : alive (fst (producer_BEGIN E id w)) <= 1.
Proof. unfold producer_BEGIN. destruct (ContainerLogs E _ _ _); simpl; unfold alive; simpl; lia. Qed.

Lemma alive_le_1 w : alive w <= 1.
Proof. unfold alive. destruct (pc w); lia. Qed.

Lemma producer_LOOP_stop_not_alive E consumers w :
  alive (fst (producer_LOOP E true consumers w)) = 0.
Proof. rewrite producer_LOOP_stop. destruct (Close E (calls w)); reflexivity. Qed.

Lemma short_of_receivers_step E who s s' :
  sys_step E who s = Some s' -> short_of_receivers s -> short_of_receivers s'.
Proof.
  intros Hstep (ch & Hch & Hcap & Hbuf & Hrq & Hpark & Hlt).
  destruct who as [|i]; simpl in Hstep.
  - unfold main_step in Hstep.
    destruct Hpark as [[Hp Hsq] | [Hp _]]; rewrite Hp in Hstep; [|discriminate].
    destruct (main s) as [|[| |consumer] rest] eqn:Hmain; try discriminate;
      inversion Hstep; subst s'; clear Hstep.
    + exists ch. unfold StartLogProducer. cbn [container main parked workers].
      repeat split; auto. rewrite live_app. unfold starts, stops, live in *. simpl in *. lia.
    + unfold StopLogProducer. rewrite Hch. unfold chan_send. rewrite Hrq, Hbuf, Hcap. simpl.
      eexists. cbn [container main parked workers set_stopProducer stopProducer].
      split; [reflexivity|]. cbn [cap buf recvq sendq]. rewrite Hsq, Hmain.
      repeat split; auto. right. repeat split; eauto.
    + exists ch. cbn [container main parked workers set_consumers stopProducer].
      repeat split; auto; unfold starts, stops in *; simpl in *; lia.
  - unfold worker_step in Hstep.
    destruct (workers s !! i) as [w|] eqn:Hw; [|discriminate].
    destruct (pc w) eqn:Hpc; try discriminate.
    + destruct (producer_BEGIN E (ID (container s)) w) as [w' evs] eqn:HB.
      inversion Hstep; subst s'; clear Hstep.
      exists ch. cbn [container main parked workers].
      repeat split; auto.
      pose proof (live_insert _ _ _ w' Hw) as HL.
      pose proof (alive_le_1 w') as Hle.
      assert (alive w = 1) by (unfold alive; now rewrite Hpc). lia.
    + rewrite Hch in Hstep. unfold chan_try_recv in Hstep. rewrite Hbuf in Hstep.
      destruct Hpark as [[Hp Hsq] | (Hp & Hsq & rest & Hmain)]; rewrite Hsq in Hstep.
      * destruct (producer_LOOP E false (consumers (container s)) w) as [w' evs] eqn:HL.
        inversion Hstep; subst s'; clear Hstep.
        exists ch. cbn [container main parked workers].
        repeat split; auto.
        pose proof (live_insert _ _ _ w' Hw) as HLi.
        pose proof (alive_le_1 w') as Hle.
        assert (alive w = 1) by (unfold alive; now rewrite Hpc). lia.
      * destruct (producer_LOOP E true (consumers (container s)) w) as [w' evs] eqn:HL.
        inversion Hstep; subst s'; clear Hstep.
        eexists. cbn [container main parked workers set_stopProducer stopProducer].
        split; [reflexivity|]. cbn [cap buf recvq sendq].
        repeat split; auto.
        pose proof (live_insert _ _ _ w' Hw) as HLi.
        pose proof (producer_LOOP_stop_not_alive E (consumers (container s)) w) as H0.
        rewrite HL in H0. cbn [fst] in H0.
        assert (alive w = 1) by (unfold alive; now rewrite Hpc).
        rewrite Hmain in *. unfold starts, stops in *. simpl in *. lia.
Qed.

Lemma short_of_receivers_run E sched : forall s,
  short_of_receivers s -> short_of_receivers (sys_run E sched s).
Proof.
  induction sched as [|who sched IH]; intros s H; [exact H|].
  simpl. apply IH. destruct (sys_step E who s) as [s'|] eqn:Hs; [|exact H].
  simpl. eapply short_of_receivers_step; eauto.
Qed.

Lemma short_of_receivers_not_completed s : short_of_receivers s -> completed s = false.
Proof.
  intros (ch & _ & _ & _ & _ & _ & Hlt). unfold completed.
  destruct (main s); [unfold stops in Hlt; simpl in Hlt; lia | reflexivity].
Qed.

Lemma fresh_sys_short c ops :
  starts ops < stops ops ->
  short_of_receivers (fresh_sys (set_stopProducer (Some (make_chan 0)) c) ops).
Proof.
  intros H. exists (make_chan 0). unfold fresh_sys. simpl. repeat split; auto.
  unfold live. simpl. lia.
Qed.

Lemma nil_channel_step E who s s' :
  sys_step E who s = Some s' -> nil_channel s -> nil_channel s'.
Proof.
  intros Hstep [Hch Hst]. destruct who as [|i]; simpl in Hstep.
  - unfold main_step in Hstep. destruct (parked s); [discriminate|].
    destruct (main s) as [|[| |consumer] rest] eqn:Hmain; try discriminate;
      inversion Hstep; subst s'; clear Hstep; unfold nil_channel.
    + unfold StartLogProducer. simpl. split; [exact Hch|]. unfold stops in *. simpl in *. lia.
    + unfold StopLogProducer. rewrite Hch. simpl. rewrite Hmain. auto.
    + simpl. split; [exact Hch|]. unfold stops in *. simpl in *. lia.
  - unfold worker_step in Hstep.
    destruct (workers s !! i) as [w|]; [|discriminate].
    rewrite Hch in Hstep. cbn [chan_try_recv] in Hstep.
    destruct (pc w); try discriminate.
    + destruct (producer_BEGIN E (ID (container s)) w).
      inversion Hstep; subst s'. split; assumption.
    + destruct (producer_LOOP E false (consumers (container s)) w).
      inversion Hstep; subst s'. split; assumption.
Qed.

Lemma nil_channel_run E sched : forall s, nil_channel s -> nil_channel (sys_run E sched s).
Proof.
  induction sched as [|who sched IH]; intros s H; [exact H|].
  simpl. apply IH. destruct (sys_step E who s) as [s'|] eqn:Hs; [|exact H].
  simpl. eapply nil_channel_step; eauto.
Qed.

(** A stop that finds a running producer does complete. *)
Example start_then_stop_completes c :
  completed (sys_run (sample_engine [[]] {| Unix := 0; Nanosecond := 0 |})
                     [Main; Goroutine 0; Main; Goroutine 0]
                     (fresh_sys (set_stopProducer (Some (make_chan 0)) c)
                                [call_StartLogProducer; call_StopLogProducer])) = true.
Proof. reflexivity. Qed.

(** C3 fails on the code.  [stopProducer] is made without a buffer, so
    the send in [StopLogProducer] waits for a producer goroutine to take
    it.  Whatever the engine does and however the goroutines are
    scheduled, the caller never returns from [StopLogProducer] when no
    producer was started, nor from the second of two stops after one
    start; in the first case nothing in the system can move once the
    caller is parked.  On a container whose channel was never made the
    send parks for ever as well. *)
Theorem C3_StopLogProducer_parks_for_ever E sched c :
  let made := set_stopProducer (Some (make_chan 0)) c in
  completed (sys_run E sched (fresh_sys made [call_StopLogProducer])) = false /\
  completed (sys_run E sched
               (fresh_sys made [call_StartLogProducer; call_StopLogProducer;
                                call_StopLogProducer])) = false /\
  deadlocked E (sys_run E [Main] (fresh_sys made [call_StopLogProducer])) /\
  completed (sys_run E sched (fresh_sys (set_stopProducer None c) [call_StopLogProducer])) = false.
Proof.
  repeat split.
  - apply short_of_receivers_not_completed, short_of_receivers_run, fresh_sys_short.
    unfold starts, stops. simpl. lia.
  - apply short_of_receivers_not_completed, short_of_receivers_run, fresh_sys_short.
    unfold starts, stops. simpl. lia.
  - intros [|i]; reflexivity.
  - pose proof (nil_channel_run E sched
                  (fresh_sys (set_stopProducer None c) [call_StopLogProducer])) as H.
    destruct H as [_ H]; [split; [reflexivity | unfold stops; simpl; lia]|].
    unfold completed. destruct (main _); [unfold stops in H; simpl in H; lia | reflexivity].
Qed.

(** ** C4 and C10: [Start] and [Stop] *)

Lemma slice_to_Some s n : n <= String.length s -> slice_to s n = Some (substring 0 n s).
Proof. intros H. unfold slice_to. destruct (Nat.leb_spec n (String.length s)); [reflexivity | lia]. Qed.

Lemma slice_to_None s n : String.length s < n -> slice_to s n = None.
Proof. intros H. unfold slice_to. destruct (Nat.leb_spec n (String.length s)); [lia | reflexivity]. Qed.

(** C4: when the wait strategy attached to the container is invoked by
    [Start] and reports an error, [Start] returns that very error, the
    container is left as it was (in particular [isRunning] is not set),
    and the requests [Start] made contain no stop and no remove. *)
Theorem C4_wait_error_propagates cl c s e :
  WaitingFor c = Some s ->
  In (WaitUntilReady_call (ID c)) (Start cl c).2 ->
  WaitUntilReady s (ID c) = Some e ->
  (Start cl c).1.1 = Returns (Some e) /\
  (Start cl c).1.2 = c /\
  isRunning (Start cl c).1.2 = isRunning c /\
  In (ContainerStart_req (ID c)) (Start cl c).2 /\
  (forall id timeout, ~ In (ContainerStop_req id timeout) (Start cl c).2) /\
  (forall id v f, ~ In (ContainerRemove_req id v f) (Start cl c).2).
Proof.
  intros HW Hin He. revert Hin. unfold Start.
  destruct (slice_to (ID c) 12) as [shortID|]; [|intros []].
  destruct (ContainerStart cl (ID c)) as [e0|].
  - simpl. intuition discriminate.
  - rewrite HW, He. simpl. intros _.
    repeat split; auto; intros; intuition discriminate.
Qed.

Lemma C4_wait_error_propagates_witness :
  (Start {| ContainerStart := fun _ => None; ContainerStop := fun _ _ => None;
            ContainerRemove := fun _ _ _ => None; ImageRemove := fun _ _ _ => None;
            ClientClose := None |}
         {| ID := "0123456789abcdef"; WaitingFor := Some {| WaitUntilReady := fun _ => Some "timeout" |};
            Image := "nginx"; isRunning := false; imageWasBuilt := false; sessionID := "s";
            terminationSignal := None; skipReaper := true; consumers := [];
            stopProducer := Some (make_chan 0) |}).1.1 = Returns (Some "timeout").
Proof.
  refine (proj1 (C4_wait_error_propagates _ _ {| WaitUntilReady := fun _ => Some "timeout" |}
                   "timeout" _ _ _)).
  - reflexivity.
  - vm_compute. auto.
  - reflexivity.
Defined.

(** C10: [Start] and [Stop] slice the first twelve bytes off the ID
    before anything else.  When the ID has at least twelve, they go on:
    they log with that prefix, contact the engine with the whole ID and
    return; when it is shorter, they fault on the slice, having
    contacted nothing and changed nothing, instead of returning an
    error. *)
Theorem C10_ID_prefix cl c timeout :
  (12 <= String.length (ID c) ->
   (exists e t,
      (Start cl c).1.1 = Returns e /\
      (Start cl c).2 =
        Printf ("Starting container id: " ++ substring 0 12 (ID c) ++ " image: " ++ Image c)%string
        :: ContainerStart_req (ID c) :: t) /\
   (exists e t,
      (Stop cl c timeout).1.1 = Returns e /\
      (Stop cl c timeout).2 =
        Printf ("Stopping container id: " ++ substring 0 12 (ID c) ++ " image: " ++ Image c)%string
        :: ContainerStop_req (ID c) timeout :: t)) /\
  (String.length (ID c) < 12 ->
   Start cl c = (Panics "slice bounds out of range", c, []) /\
   Stop cl c timeout = (Panics "slice bounds out of range", c, [])).
Proof.
  split.
  - intros H. unfold Start, Stop. rewrite (slice_to_Some _ _ H). split.
    + destruct (ContainerStart cl (ID c)); [simpl; eauto|].
      destruct (WaitingFor c) as [s|]; [destruct (WaitUntilReady s (ID c))|]; simpl; eauto.
    + destruct (ContainerStop cl (ID c) timeout); simpl; eauto.
  - intros H. unfold Start, Stop. rewrite (slice_to_None _ _ H). auto.
Qed.

Lemma C10_ID_prefix_witness :
  Start {| ContainerStart := fun _ => None; ContainerStop := fun _ _ => None;
           ContainerRemove := fun _ _ _ => None; ImageRemove := fun _ _ _ => None;
           ClientClose := None |}
        {| ID := "0123456789a"; WaitingFor := None;
           Image := "nginx"; isRunning := false; imageWasBuilt := false; sessionID := "s";
           terminationSignal := None; skipReaper := true; consumers := [];
           stopProducer := Some (make_chan 0) |}
  = (Panics "slice bounds out of range",
     {| ID := "0123456789a"; WaitingFor := None;
        Image := "nginx"; isRunning := false; imageWasBuilt := false; sessionID := "s";
        terminationSignal := None; skipReaper := true; consumers := [];
        stopProducer := Some (make_chan 0) |}, []) /\
  exists e t,
    (Start {| ContainerStart := fun _ => None; ContainerStop := fun _ _ => None;
              ContainerRemove := fun _ _ _ => None; ImageRemove := fun _ _ _ => None;
              ClientClose := None |}
           {| ID := "0123456789ab"; WaitingFor := None;
              Image := "nginx"; isRunning := false; imageWasBuilt := false; sessionID := "s";
              terminationSignal := None; skipReaper := true; consumers := [];
              stopProducer := Some (make_chan 0) |}).1.1 = Returns e /\
    (Start {| ContainerStart := fun _ => None; ContainerStop := fun _ _ => None;
              ContainerRemove := fun _ _ _ => None; ImageRemove := fun _ _ _ => None;
              ClientClose := None |}
           {| ID := "0123456789ab"; WaitingFor := None;
              Image := "nginx"; isRunning := false; imageWasBuilt := false; sessionID := "s";
              terminationSignal := None; skipReaper := true; consumers := [];
              stopProducer := Some (make_chan 0) |}).2 =
      Printf "Starting container id: 0123456789ab image: nginx"
      :: ContainerStart_req "0123456789ab" :: t.
Proof.
  split.
  - refine (proj1 (proj2 (C10_ID_prefix _ _ None) _)). simpl. lia.
  - refine (proj1 (proj1 (C10_ID_prefix _ _ None) _)). simpl. lia.
Defined.

(** ** C1: the reaper's labels on what the provider creates *)

(** The merge loop gives the union in which the request's own entries
    win. *)
Lemma merge_labels_union (reaperLabels own : gmap string string) :
  merge_labels reaperLabels own = own ∪ reaperLabels.
Proof.
  unfold merge_labels.
  apply (map_fold_weak_ind (fun res m => res = own ∪ m)).
  - by rewrite (right_id_L ∅ (∪)).
  - intros k v m res Hk ->.
    destruct ((own ∪ m) !! k) as [x|] eqn:Hl.
    + apply lookup_union_Some_raw in Hl as [Ho | [_ Hm]]; [|congruence].
      apply map_eq. intros j. rewrite !lookup_union.
      destruct (decide (k = j)) as [<- | Hne].
      * rewrite Ho, Hk. by destruct (<[k:=v]> m !! k).
      * by rewrite lookup_insert_ne.
    + apply lookup_union_None in Hl as [Ho _]. by rewrite insert_union_r.
Qed.

Lemma merge_labels_lookup (reaperLabels own : gmap string string) k :
  merge_labels reaperLabels own !! k =
    match own !! k with
    | Some v => Some v
    | None => reaperLabels !! k
    end.
Proof.
  rewrite merge_labels_union, lookup_union.
  destruct (own !! k), (reaperLabels !! k); reflexivity.
Qed.

(** The map the request refers to, made when the request has none. *)
Lemma labels_ref_spec (m : option MapRef) st :
  allocated (heap st) m ->
  exists l,
    (match m with None => alloc ∅ | Some l => ret l end) st
      = (inr l, {| heap := <[l := deref (heap st) m]> (heap st);
                   DefaultNetwork := DefaultNetwork st; requests := requests st |}) /\
    <[l := deref (heap st) m]> (heap st) !! l = Some (deref (heap st) m).
Proof.
  destruct m as [l|]; simpl.
  - intros [own Hown]. exists l. rewrite Hown. simpl.
    rewrite insert_id by exact Hown. split; [|exact Hown].
    unfold ret. now destruct st.
  - intros _. eexists. split; [reflexivity|]. apply lookup_insert_eq.
Qed.

(** *** [CreateContainer] stage by stage *)

Lemma asked_nil st : asked st [] = st.
Proof. destruct st. unfold asked. simpl. now rewrite app_nil_r. Qed.

Lemma asked_app st evs1 evs2 : asked (asked st evs1) evs2 = asked st (evs1 ++ evs2).
Proof. unfold asked. simpl. now rewrite app_assoc. Qed.

Lemma emits_ret {A} P (a : A) : emits P (ret a).
Proof. intros st. exists []. now rewrite asked_nil. Qed.

Lemma emits_fail {A} P e : emits P (@fail A e).
Proof. intros st. exists []. now rewrite asked_nil. Qed.

Lemma emits_check P o : emits P (check o).
Proof. destruct o; [apply emits_fail | apply emits_ret]. Qed.

Lemma emits_result {A} P (x : error + A) : emits P (result x).
Proof. destruct x; [apply emits_fail | apply emits_ret]. Qed.

Lemma emits_wrapped {A} P suffix (x : error + A) : emits P (wrapped suffix x).
Proof. destruct x; [apply emits_fail | apply emits_ret]. Qed.

Lemma emits_ask {A} P (f : nat -> A) : emits P (ask f).
Proof. intros st. exists []. now rewrite asked_nil. Qed.

Lemma emits_request {A} (P : Request -> Prop) q (f : nat -> A) : P q -> emits P (request q f).
Proof. intros Hq st. exists [q]. split; [reflexivity | now constructor]. Qed.

Lemma emits_bind {A B} P (m : M A) (k : A -> M B) :
  emits P m -> (forall a, emits P (k a)) -> emits P (bind m k).
Proof.
  intros Hm Hk st. unfold bind. destruct (Hm st) as (evs1 & H1 & HF1).
  destruct (m st) as [[e | a] st1]; cbn [snd] in *; [eauto|].
  destruct (Hk a st1) as (evs2 & H2 & HF2). exists (evs1 ++ evs2).
  rewrite H2, H1, asked_app. split; [reflexivity | now apply Forall_app].
Qed.

Lemma emits_weaken {A} (P Q : Request -> Prop) (m : M A) :
  (forall q, P q -> Q q) -> emits P m -> emits Q m.
Proof.
  intros HPQ Hm st. destruct (Hm st) as (evs & H & HF). exists evs. split; [exact H|].
  eapply Forall_impl; eauto.
Qed.

Lemma emits_resolveImage D req : emits before_create (resolveImage D req).
Proof.
  unfold resolveImage. destruct (ShouldBuildImage D req).
  - apply emits_bind; [now apply emits_request | intros; apply emits_result].
  - apply emits_bind.
    + destruct (decide _); [apply emits_ret|].
      destruct (platforms_Parse D _); [apply emits_fail | apply emits_ret].
    + intros platform. apply emits_bind.
      * destruct (req_AlwaysPullImage req); [apply emits_ret|].
        apply emits_bind; [now apply emits_request|].
        intros [image | e | e]; try apply emits_fail; try apply emits_ret.
        destruct platform; apply emits_ret.
      * intros shouldPull. apply emits_bind; [|intros; apply emits_ret].
        destruct shouldPull; [|apply emits_ret].
        apply emits_bind; [now apply emits_request | intros; apply emits_check].
Qed.

Lemma emits_exposedPorts D req tag : emits before_create (exposedPorts D req tag).
Proof.
  unfold exposedPorts. destruct (req_ExposedPorts req); [|apply emits_ret].
  apply emits_bind; [now apply emits_request|].
  intros [image | e | e]; try apply emits_fail; apply emits_ret.
Qed.

Lemma emits_firstEndpoint D networks : emits before_create (firstEndpoint D networks).
Proof.
  destruct networks; [apply emits_ret|].
  apply emits_bind; [now apply emits_request | intros; apply emits_ret].
Qed.

Lemma emits_connectNetworks D id networks : emits after_create (connectNetworks D id networks).
Proof.
  induction networks as [|n rest IH]; [apply emits_ret|].
  simpl. apply emits_bind; [now apply emits_request|].
  intros [e | networkID]; [exact IH|].
  apply emits_bind; [now apply emits_request|].
  intros connected. apply emits_bind; [apply emits_check | intros; exact IH].
Qed.

Lemma emits_copyFiles D id files : emits after_create (copyFiles D id files).
Proof.
  induction files as [|f rest IH]; [apply emits_ret|].
  simpl. apply emits_bind; [now apply emits_request|].
  intros [e|]; [apply emits_fail | exact IH].
Qed.

Lemma hoare_bind {A B} (I : PState -> Prop) (m : M A) (k : A -> M B) (J : A -> PState -> Prop)
    (Q : error + B -> PState -> Prop) :
  hoare I m (fun x st1 => match x with inl e => Q (inl e) st1 | inr a => J a st1 end) ->
  (forall a, hoare (J a) (k a) Q) ->
  hoare I (bind m k) Q.
Proof.
  intros Hm Hk st HI. specialize (Hm st HI). unfold bind.
  destruct (m st) as [[e | a] st1]; cbn [fst snd] in *; [exact Hm|]. now apply Hk.
Qed.

(** The stages of [CreateContainer] once the reaper is connected.  The
    maps and the default network are left alone.  Up to the create
    request only image requests and the inspection of the first network
    are made; there is at most one create request, it carries the label
    map of the request as it is at that time, the name of the request
    and the resolved image; after it come only the connections to the
    other networks and the copies of files.  The container returned has
    the ID the engine answered, is not running, has no consumers and an
    unbuffered stop channel. *)
Lemma CreateContainer_rest_shape D req sid ts st0 :
  exists evs_a,
    Forall before_create evs_a /\
    ((exists e, (CreateContainer_rest D req sid ts st0).1 = inl e /\
                (CreateContainer_rest D req sid ts st0).2 = asked st0 evs_a) \/
     (exists tag evs_b,
        (CreateContainer_rest D req sid ts st0).2 =
          asked st0 (evs_a ++ ContainerCreate_req {| cfg_Image := tag; cfg_Labels := req_Labels req |}
                                 (req_Name req) (deref (heap st0) (req_Labels req)) :: evs_b) /\
        Forall after_create evs_b /\
        forall c, (CreateContainer_rest D req sid ts st0).1 = inr c ->
          ContainerCreate D (length (requests st0 ++ evs_a))
                          {| cfg_Image := tag; cfg_Labels := req_Labels req |}
                          (req_Name req) (deref (heap st0) (req_Labels req)) = inr (ID c) /\
          c = {| ID := ID c; WaitingFor := req_WaitingFor req; Image := tag;
                 isRunning := false; imageWasBuilt := ShouldBuildImage D req;
                 sessionID := sid; terminationSignal := ts;
                 skipReaper := req_SkipReaper req; consumers := [];
                 stopProducer := Some (make_chan 0) |})).
Proof.
  set (Ia := fun st => exists evs_a, st = asked st0 evs_a /\ Forall before_create evs_a).
  set (Q := fun (x : error + DockerContainer) (st' : PState) =>
    exists evs_a,
      Forall before_create evs_a /\
      ((exists e, x = inl e /\ st' = asked st0 evs_a) \/
       (exists tag evs_b,
          st' = asked st0 (evs_a ++ ContainerCreate_req
                                      {| cfg_Image := tag; cfg_Labels := req_Labels req |}
                                      (req_Name req) (deref (heap st0) (req_Labels req)) :: evs_b) /\
          Forall after_create evs_b /\
          forall c, x = inr c ->
            ContainerCreate D (length (requests st0 ++ evs_a))
                            {| cfg_Image := tag; cfg_Labels := req_Labels req |}
                            (req_Name req) (deref (heap st0) (req_Labels req)) = inr (ID c) /\
            c = {| ID := ID c; WaitingFor := req_WaitingFor req; Image := tag;
                   isRunning := false; imageWasBuilt := ShouldBuildImage D req;
                   sessionID := sid; terminationSignal := ts;
                   skipReaper := req_SkipReaper req; consumers := [];
                   stopProducer := Some (make_chan 0) |}))).
  assert (forall e st1, Ia st1 -> Q (inl e) st1) as Herr.
  { intros e st1 (evs_a & -> & HF). exists evs_a. split; [exact HF|]. left. eauto. }
  assert (forall {A} (m : M A) (k : A -> M DockerContainer),
            emits before_create m -> (forall a, hoare Ia (k a) Q) -> hoare Ia (bind m k) Q)
    as Hpre.
  { intros A m k Hm Hk. apply (hoare_bind Ia m k (fun _ => Ia) Q); [|exact Hk].
    intros st (evs_a & -> & HF). destruct (Hm (asked st0 evs_a)) as (evs & H & HF').
    assert (Ia (m (asked st0 evs_a)).2) as HI.
    { exists (evs_a ++ evs). rewrite H, asked_app. split; [reflexivity | now apply Forall_app]. }
    destruct (m (asked st0 evs_a)).1; [now apply Herr | exact HI]. }
  assert (hoare Ia (CreateContainer_rest D req sid ts) Q) as H.
  { unfold CreateContainer_rest.
    apply Hpre; [apply emits_check | intros _].
    apply Hpre; [apply emits_resolveImage | intros tag].
    apply Hpre; [apply emits_exposedPorts | intros ports].
    apply Hpre; [apply emits_check | intros _].
    cbv zeta.
    apply Hpre; [apply emits_ask | intros mounted].
    apply Hpre; [apply emits_check | intros _].
    apply Hpre; [apply emits_firstEndpoint | intros _].
    intros st (evs_a & -> & HF).
    match goal with |- Q (?m ?s).1 (?m ?s).2 => destruct (m s) as [x st'] eqn:HX end.
    cbn [fst snd].
    unfold bind at 1 2, get_heap, request in HX.
    cbn [fst snd heap requests DefaultNetwork asked cfg_Labels] in HX.
    set (create := ContainerCreate_req {| cfg_Image := tag; cfg_Labels := req_Labels req |}
                     (req_Name req) (deref (heap st0) (req_Labels req))) in *.
    change {| heap := heap st0; DefaultNetwork := DefaultNetwork st0;
              requests := (requests st0 ++ evs_a) ++ [create] |}
      with (asked (asked st0 evs_a) [create]) in HX.
    rewrite asked_app in HX.
    exists evs_a. split; [exact HF|]. right. exists tag.
    destruct (ContainerCreate D (length (requests st0 ++ evs_a)) _ _ _) as [e | respID] eqn:HCr.
    { unfold bind, result, fail in HX. cbn [fst snd] in HX. inversion HX; subst.
      exists []. repeat split; auto; discriminate. }
    unfold bind at 1, result, ret at 1 in HX. cbn [fst snd] in HX.
    unfold bind at 1 in HX.
    destruct (emits_connectNetworks D respID (tail (req_Networks req))
                (asked st0 (evs_a ++ [create]))) as (evs1 & H1 & HF1).
    destruct (connectNetworks D respID _ _) as [[e | []] st1]; cbn [fst snd] in *.
    { inversion HX; subst. rewrite asked_app, <- app_assoc.
      exists evs1. repeat split; auto; discriminate. }
    unfold bind at 1 in HX.
    destruct (emits_copyFiles D respID (req_Files req) st1) as (evs2 & H2 & HF2).
    destruct (copyFiles D respID _ st1) as [[e | []] st2]; cbn [fst snd] in *;
      inversion HX; subst; rewrite !asked_app, <- app_assoc;
      exists (evs1 ++ evs2); (split; [reflexivity|]); (split; [now apply Forall_app|]).
    - discriminate.
    - intros c Hc. inversion Hc; subst c. cbn [ID]. auto. }
  specialize (H st0). apply H. exists []. rewrite asked_nil. auto.
Qed.

Lemma CreateContainer_stages D bridge req st :
  CreateContainer D bridge req st =
    bind (ensureDefaultNetwork D bridge) (fun _ =>
    bind get_DefaultNetwork (fun dn =>
    bind (match req_Labels req with None => alloc ∅ | Some l => ret l end) (fun l =>
    bind (ask (uuid_New D)) (fun sessionID =>
    bind (connectReaper D (req_SkipReaper req) sessionID (req_ReaperImage req) l
            ": creating reaper failed" ": connecting to reaper failed") (fun termSignal =>
    CreateContainer_rest D
      (with_Networks_Labels req (networks_with_default dn bridge (req_Networks req)) l)
      sessionID termSignal))))) st.
Proof. reflexivity. Qed.

Lemma ensureDefaultNetwork_known D bridge st :
  DefaultNetwork st <> "" -> ensureDefaultNetwork D bridge st = (inr tt, st).
Proof.
  intros H. unfold ensureDefaultNetwork, bind, get_DefaultNetwork. cbn [fst snd].
  destruct (decide (DefaultNetwork st = "")); [contradiction | reflexivity].
Qed.

Lemma ensureDefaultNetwork_requests D bridge st :
  heap st ⊆ heap (ensureDefaultNetwork D bridge st).2 /\
  exists net, requests (ensureDefaultNetwork D bridge st).2 = requests st ++ net /\
              Forall network_setup net.
Proof.
  unfold ensureDefaultNetwork, bind, get_DefaultNetwork.
  destruct (decide (DefaultNetwork st = "")) as [_|_];
    [|simpl; split; [reflexivity | exists []; rewrite app_nil_r; auto]].
  unfold getDefaultNetwork, bind, request, result, alloc, get_heap, set_DefaultNetwork, ret, fail.
  destruct (NetworkList D (length (requests st))) as [e | networkResources]; simpl.
  { split; [reflexivity | eexists; split; [reflexivity | repeat constructor]]. }
  destruct (decide (bridge ∈ networkResources)); simpl.
  { split; [reflexivity | eexists; split; [reflexivity | repeat constructor]]. }
  destruct (decide (ReaperDefault ∈ networkResources)); simpl.
  { split; [reflexivity | eexists; split; [reflexivity | repeat constructor]]. }
  assert (heap st ⊆ <[fresh (dom (heap st)) := {[TestcontainerLabel := "true"]}]> (heap st)) as Hsub.
  { apply insert_subseteq, not_elem_of_dom, is_fresh. }
  destruct (NetworkCreate D _ _ _ _); simpl;
    (split; [exact Hsub | eexists; split; [rewrite <- app_assoc; reflexivity | repeat constructor]]).
Qed.

(** [CreateContainer] in its stages: the default network, the label map
    of the request (made when the request has none), the session id,
    the reaper unless the request skips it, and the rest.  A failure of
    the reaper is the error of [CreateContainer], with the text of the
    stage appended, and nothing is asked of the engine after it; the
    labels are merged only once the reaper is connected. *)
Lemma CreateContainer_anatomy D bridge req st :
  allocated (heap st) (req_Labels req) ->
  let st1 := (ensureDefaultNetwork D bridge st).2 in
  let own := deref (heap st) (req_Labels req) in
  let sid := uuid_New D (length (requests st1)) in
  let image := req_ReaperImage req in
  match (ensureDefaultNetwork D bridge st).1 with
  | inl e => CreateContainer D bridge req st = (inl e, st1)
  | inr _ =>
      exists l,
        (req_Labels req = Some l \/ req_Labels req = None /\ l = fresh (dom (heap st1))) /\
        let st2 := {| heap := <[l := own]> (heap st1); DefaultNetwork := DefaultNetwork st1;
                      requests := requests st1 |} in
        let req' := with_Networks_Labels req
                      (networks_with_default (DefaultNetwork st1) bridge (req_Networks req)) l in
        if req_SkipReaper req
        then CreateContainer D bridge req st = CreateContainer_rest D req' sid None st2
        else
          match NewReaper D (length (requests st1)) sid image with
          | inl e =>
              CreateContainer D bridge req st =
                (inl (e ++ ": creating reaper failed")%string, asked st2 [NewReaper_call sid image])
          | inr r =>
              match Connect D (S (length (requests st1))) r with
              | inl e =>
                  CreateContainer D bridge req st =
                    (inl (e ++ ": connecting to reaper failed")%string,
                     asked st2 [NewReaper_call sid image; Connect_call (SessionID r)])
              | inr ts =>
                  CreateContainer D bridge req st =
                    CreateContainer_rest D req' sid (Some ts)
                      {| heap := <[l := own ∪ Labels D r]> (heap st1);
                         DefaultNetwork := DefaultNetwork st1;
                         requests := requests st1 ++
                                     [NewReaper_call sid image; Connect_call (SessionID r)] |}
              end
          end
  end.
Proof.
  intros Hwf. cbv zeta.
  pose proof (CreateContainer_stages D bridge req st) as HC.
  set (cc := CreateContainer D bridge req st) in *. clearbody cc.
  unfold bind at 1 in HC.
  pose proof (ensureDefaultNetwork_requests D bridge st) as [Hsub _].
  destruct (ensureDefaultNetwork D bridge st) as [[e | []] st1] eqn:H1; cbn [fst snd] in *;
    [exact HC|].
  unfold bind at 1, get_DefaultNetwork in HC. cbn [fst snd] in HC.
  assert (allocated (heap st1) (req_Labels req) /\
          deref (heap st1) (req_Labels req) = deref (heap st) (req_Labels req)) as [Hwf1 Hd].
  { destruct (req_Labels req) as [l0|]; simpl in *; [|auto].
    destruct Hwf as [own Hown]. rewrite (lookup_weaken _ _ _ _ Hown Hsub), Hown. eauto. }
  destruct (labels_ref_spec (req_Labels req) st1 Hwf1) as (l & Hl & Hlook).
  exists l. split.
  { destruct (req_Labels req) as [l0|]; [left | right; split; [reflexivity|]];
      unfold ret, alloc in Hl; inversion Hl; reflexivity. }
  unfold bind at 1 in HC. rewrite Hl, Hd in HC. unfold bind at 1 in HC.
  unfold ask at 1 in HC. cbn [fst snd requests] in HC.
  unfold bind at 1 in HC.
  destruct (req_SkipReaper req); [exact HC|].
  unfold connectReaper, bind, request, wrapped, get_heap, store, ret, fail in HC.
  unfold asked.
  cbn [negb fst snd heap requests DefaultNetwork] in HC |- *.
  destruct (NewReaper D (length (requests st1)) _ _) as [e | r];
    cbn [fst snd heap requests DefaultNetwork] in HC; [exact HC|].
  rewrite length_app in HC. cbn [length] in HC. rewrite Nat.add_1_r in HC.
  destruct (Connect D (S (length (requests st1))) r) as [e | ts];
    cbn [fst snd heap requests DefaultNetwork] in HC.
  { now rewrite <- app_assoc in HC. }
  cbn [heap requests DefaultNetwork deref] in HC. rewrite lookup_insert_eq in HC.
  cbn [default from_option] in HC.
  rewrite merge_labels_union, insert_insert_eq, <- app_assoc in HC. exact HC.
Qed.

(** The block guarded by [!req.SkipReaper], when it is entered and
    left without an error: the reaper was created and then connected,
    both with success, and the request's map holds the merged labels. *)
Lemma connectReaper_connected D sid img l creating connecting st own x st' :
  heap st !! l = Some own ->
  connectReaper D false sid img l creating connecting st = (inr x, st') ->
  exists r ts,
    x = Some ts /\
    NewReaper D (length (requests st)) sid img = inr r /\
    Connect D (S (length (requests st))) r = inr ts /\
    heap st' = <[l := own ∪ Labels D r]> (heap st) /\
    requests st' = requests st ++ [NewReaper_call sid img; Connect_call (SessionID r)].
Proof.
  intros Hown.
  unfold connectReaper, bind, request, wrapped, get_heap, store, ret, fail. simpl.
  destruct (NewReaper D (length (requests st)) sid img) as [e | r] eqn:HN; simpl;
    [discriminate|].
  rewrite length_app. simpl. rewrite Nat.add_1_r.
  destruct (Connect D (S (length (requests st))) r) as [e | ts] eqn:HCn; simpl;
    [discriminate|].
  rewrite Hown. simpl. intros [= <- <-]. exists r, ts. simpl.
  rewrite merge_labels_union, <- app_assoc. auto 10.
Qed.

(** C1, as stated, fails: a request that already carries the reaper's
    session label keeps its own value; the create call does not contain
    the pair the reaper's [Labels()] returns for that key. *)
Lemma C1_own_label_wins :
  ~ (forall D bridge req st x st' cfg name labels n sessionID r k v,
       CreateContainer D bridge req st = (x, st') ->
       req_SkipReaper req = false -> allocated (heap st) (req_Labels req) -> uncreated st ->
       In (ContainerCreate_req cfg name labels) (requests st') ->
       NewReaper D n sessionID (req_ReaperImage req) = inr r ->
       In (NewReaper_call sessionID (req_ReaperImage req)) (requests st') ->
       Labels D r !! k = Some v ->
       labels !! k = Some v).
Proof.
  intros H.
  pose (own := ({[ TestcontainerLabelSessionID := "mine" ]} : gmap string string)).
  pose (sid := "6ba7b810-9dad-11d1-80b4-00c04fd430c8").
  pose (res := CreateContainer sample_docker "bridge" (sample_request (Some 0) false)
                               (sample_state own)).
  assert ((own ∪ Reaper_Labels {| SessionID := sid |}) !! TestcontainerLabelSessionID = Some sid)
    as Habs.
  { apply (H sample_docker "bridge" (sample_request (Some 0) false) (sample_state own)
             res.1 res.2 {| cfg_Image := "nginx"; cfg_Labels := Some 0 |} "web" _ 1 sid
             {| SessionID := sid |}).
    - subst res. now destruct (CreateContainer _ _ _ _).
    - reflexivity.
    - vm_compute. eauto.
    - intros ? ? ? [].
    - vm_compute. auto 10.
    - reflexivity.
    - vm_compute. auto 10.
    - vm_compute. reflexivity. }
  vm_compute in Habs. discriminate Habs.
Qed.

(** C1 (amended): when the request does not set [SkipReaper], every
    create call, for a container by [CreateContainer] and for the
    requested network by [CreateNetwork], comes after the creation of
    the reaper and, after that, its connection, both with success; and
    the label map passed to the create call is the request's own label
    map completed by the [Labels()] of that reaper: it has every key of
    [Labels()], with the reaper's value unless the request already set
    that key, in which case the request's value is kept.  Without
    [SkipReaper] there is no create call that skips the reaper. *)
Theorem C1_reaper_labels_merged D bridge st :
  (forall req x st' cfg name labels,
     CreateContainer D bridge req st = (x, st') ->
     req_SkipReaper req = false -> allocated (heap st) (req_Labels req) -> uncreated st ->
     In (ContainerCreate_req cfg name labels) (requests st') ->
     exists before between after sessionID r ts,
       requests st' =
         before ++ NewReaper_call sessionID (req_ReaperImage req)
                :: Connect_call (SessionID r)
                :: between ++ ContainerCreate_req cfg name labels :: after /\
       NewReaper D (length before) sessionID (req_ReaperImage req) = inr r /\
       Connect D (S (length before)) r = inr ts /\
       labels = deref (heap st) (req_Labels req) ∪ Labels D r /\
       forall k v, Labels D r !! k = Some v ->
         labels !! k = Some (default v (deref (heap st) (req_Labels req) !! k))) /\
  (forall req e n st',
     CreateNetwork D bridge req st = ((e, Some n), st') ->
     nreq_SkipReaper req = false -> allocated (heap st) (nreq_Labels req) ->
     exists before nc labels sessionID r ts,
       requests st' =
         before ++ [NewReaper_call sessionID (nreq_ReaperImage req);
                    Connect_call (SessionID r);
                    NetworkCreate_req (nreq_Name req) nc labels] /\
       NewReaper D (length before) sessionID (nreq_ReaperImage req) = inr r /\
       Connect D (S (length before)) r = inr ts /\
       labels = deref (heap st) (nreq_Labels req) ∪ Labels D r /\
       forall k v, Labels D r !! k = Some v ->
         labels !! k = Some (default v (deref (heap st) (nreq_Labels req) !! k))).
Proof.
  assert (forall (own rl : gmap string string) k v,
            rl !! k = Some v -> (own ∪ rl) !! k = Some (default v (own !! k))) as Hlook.
  { intros own rl k v Hv. rewrite lookup_union, Hv. now destruct (own !! k). }
  split.
  - intros req x st' cfg name labels HC Hskip Hwf Hun Hin.
    pose proof (CreateContainer_anatomy D bridge req st Hwf) as HA. cbv zeta in HA.
    destruct (ensureDefaultNetwork_requests D bridge st) as (_ & net & Hnet & HFnet).
    assert (~ In (ContainerCreate_req cfg name labels)
              (requests (ensureDefaultNetwork D bridge st).2)) as Hpre.
    { rewrite Hnet. intros Hq. apply in_app_or in Hq as [Hq | Hq]; [exact (Hun _ _ _ Hq)|].
      exact (proj1 (List.Forall_forall _ _) HFnet _ Hq). }
    destruct ((ensureDefaultNetwork D bridge st).1) as [e0 | []].
    { rewrite HA in HC. inversion HC; subst. contradiction. }
    destruct HA as (l & Hl & HA). rewrite Hskip in HA.
    destruct (NewReaper D _ _ _) as [e0 | r] eqn:HN.
    { rewrite HA in HC. inversion HC; subst. cbn [requests asked] in Hin.
      apply in_app_or in Hin as [Hin | [Hin | []]]; [contradiction | discriminate]. }
    destruct (Connect D _ r) as [e0 | ts] eqn:HCn.
    { rewrite HA in HC. inversion HC; subst. cbn [requests asked] in Hin.
      apply in_app_or in Hin as [Hin | [Hin | [Hin | []]]];
        [contradiction | discriminate | discriminate]. }
    match type of HA with _ = CreateContainer_rest D ?req' ?sid' ?ts' ?st3 =>
      destruct (CreateContainer_rest_shape D req' sid' ts' st3) as (evs_a & HFa & Hshape)
    end.
    rewrite <- HA, HC in Hshape. cbn [fst snd] in Hshape.
    assert (~ In (ContainerCreate_req cfg name labels) evs_a) as Hna.
    { intros Hq. exact (proj1 (List.Forall_forall _ _) HFa _ Hq). }
    destruct Hshape as [(e0 & _ & Hst) | (tag & evs_b & Hst & HFb & _)]; subst st';
      cbn [requests asked heap] in Hin.
    { apply in_app_or in Hin as [Hin | Hin]; [|contradiction].
      apply in_app_or in Hin as [Hin | [Hin | [Hin | []]]];
        [contradiction | discriminate | discriminate]. }
    assert (~ In (ContainerCreate_req cfg name labels) evs_b) as Hnb.
    { intros Hq. exact (proj1 (List.Forall_forall _ _) HFb _ Hq). }
    apply in_app_or in Hin as [Hin | Hin].
    { apply in_app_or in Hin as [Hin | [Hin | [Hin | []]]];
        [contradiction | discriminate | discriminate]. }
    apply in_app_or in Hin as [Hin | [Heq | Hin]]; [contradiction | | contradiction].
    inversion Heq; subst cfg name labels. clear Heq.
    exists (requests (ensureDefaultNetwork D bridge st).2), evs_a, evs_b,
      (uuid_New D (length (requests (ensureDefaultNetwork D bridge st).2))), r, ts.
    cbn [requests asked heap with_Networks_Labels req_Labels req_Name deref].
    rewrite lookup_insert_eq. cbn [default from_option].
    split; [rewrite <- app_assoc; reflexivity|].
    split; [exact HN|]. split; [exact HCn|]. split; [reflexivity|].
    intros k v. apply Hlook.
  - intros req e n st' HC Hskip Hwf.
    unfold CreateNetwork in HC. cbv zeta in HC. unfold bind at 1 in HC.
    pose proof (ensureDefaultNetwork_requests D bridge st) as [Hsub _].
    destruct (ensureDefaultNetwork D bridge st) as [[e0 | []] st1] eqn:H1; cbn [fst snd] in *;
      [discriminate HC|].
    assert (allocated (heap st1) (nreq_Labels req) /\
            deref (heap st1) (nreq_Labels req) = deref (heap st) (nreq_Labels req))
      as [Hwf1 Hd].
    { destruct (nreq_Labels req) as [l0|]; simpl in *; [|auto].
      destruct Hwf as [own Hown]. rewrite (lookup_weaken _ _ _ _ Hown Hsub), Hown. eauto. }
    destruct (labels_ref_spec (nreq_Labels req) st1 Hwf1) as (l & Hl & Hlk).
    unfold bind at 1 in HC. rewrite Hl in HC. unfold bind at 1 in HC. unfold ask at 1 in HC.
    cbn [fst snd requests] in HC.
    rewrite Hskip in HC. unfold bind at 1 in HC.
    match type of HC with context [connectReaper D false ?sid ?img l ?c1 ?c2 ?st2] =>
      destruct (connectReaper D false sid img l c1 c2 st2) as [[e0 | ts0] st3] eqn:H3
    end; [discriminate HC|].
    match type of H3 with connectReaper D false ?sid ?img l ?c1 ?c2 ?st2 = _ =>
      destruct (connectReaper_connected D sid img l c1 c2 st2
                  (deref (heap st1) (nreq_Labels req)) _ _ Hlk H3)
        as (r & ts & -> & HN & HCn & Hheap & Hreq)
    end.
    cbn [heap requests] in HN, HCn, Hheap, Hreq.
    unfold ret, request in HC. cbn [nc_Labels] in HC.
    assert (deref (heap st3) (Some l) = deref (heap st) (nreq_Labels req) ∪ Labels D r) as HL.
    { simpl. rewrite Hheap, lookup_insert_eq, Hd. reflexivity. }
    rewrite HL in HC.
    exists (requests st1),
      {| nc_Driver := nreq_Driver req; nc_Internal := nreq_Internal req;
         nc_Attachable := nreq_Attachable req; nc_Labels := Some l |},
      (deref (heap st) (nreq_Labels req) ∪ Labels D r),
      (uuid_New D (length (requests st1))), r, ts.
    destruct (NetworkCreate D _ _ _ _); inversion HC; subst; cbn [requests];
      (split; [rewrite Hreq, <- app_assoc; reflexivity|]);
      (split; [exact HN|]); (split; [exact HCn|]);
      (split; [reflexivity|]); intros k v; apply Hlook.
Qed.

Lemma C1_reaper_labels_merged_witness :
  exists before between after sessionID r ts,
    requests (CreateContainer sample_docker "bridge" (sample_request None false)
                              (sample_state ∅)).2
      = before ++ NewReaper_call sessionID ""
               :: Connect_call (SessionID r)
               :: between
               ++ ContainerCreate_req {| cfg_Image := "nginx"; cfg_Labels := Some 1 |} "web"
                    (∅ ∪ Reaper_Labels {| SessionID := "6ba7b810-9dad-11d1-80b4-00c04fd430c8" |})
               :: after /\
    NewReaper sample_docker (length before) sessionID "" = inr r /\
    Connect sample_docker (S (length before)) r = inr ts /\
    (∅ ∪ Reaper_Labels {| SessionID := "6ba7b810-9dad-11d1-80b4-00c04fd430c8" |}
       : gmap string string)
    = deref (heap (sample_state ∅)) None ∪ Labels sample_docker r /\
    forall k v, Labels sample_docker r !! k = Some v ->
      (∅ ∪ Reaper_Labels {| SessionID := "6ba7b810-9dad-11d1-80b4-00c04fd430c8" |}
         : gmap string string) !! k
      = Some (default v (deref (heap (sample_state ∅)) None !! k)).
Proof.
  refine (proj1 (C1_reaper_labels_merged sample_docker "bridge" (sample_state ∅))
            (sample_request None false)
            (CreateContainer sample_docker "bridge" (sample_request None false) (sample_state ∅)).1
            (CreateContainer sample_docker "bridge" (sample_request None false) (sample_state ∅)).2
            {| cfg_Image := "nginx"; cfg_Labels := Some 1 |} "web" _ _ _ _ _ _).
  - now destruct (CreateContainer _ _ _ _).
  - reflexivity.
  - exact I.
  - intros ? ? ? [].
  - vm_compute. auto 10.
Defined.

(* ===================================================================== *)
(** * Part III: further properties of the code                            *)
(* ===================================================================== *)

(** ** [Start], [Stop] and [Terminate] taken as a whole *)

Lemma Start_running cl c :
  (Start cl c).1.1 = Returns None ->
  12 <= String.length (ID c) /\ (Start cl c).1.2 = set_isRunning true c.
Proof.
  unfold Start.
  destruct (Nat.le_gt_cases 12 (String.length (ID c))) as [Hlen | Hlen].
  - rewrite (slice_to_Some _ _ Hlen).
    destruct (ContainerStart cl (ID c)) as [e|]; [discriminate|].
    destruct (WaitingFor c) as [wfs|]; [destruct (WaitUntilReady wfs (ID c))|]; simpl;
      try discriminate; auto.
  - rewrite (slice_to_None _ _ Hlen). discriminate.
Qed.

(** [Start] returns nil exactly when the ID has its twelve bytes, the
    engine accepts the start and the wait strategy, if there is one,
    reports ready; it sets [isRunning] then and only then, and it does
    not consult the strategy when the engine refused the start. *)
Theorem Start_nil_iff cl c :
  ((Start cl c).1.1 = Returns None <->
     12 <= String.length (ID c) /\ ContainerStart cl (ID c) = None /\
     (forall s, WaitingFor c = Some s -> WaitUntilReady s (ID c) = None)) /\
  ((Start cl c).1.1 = Returns None -> (Start cl c).1.2 = set_isRunning true c) /\
  ((Start cl c).1.1 <> Returns None -> (Start cl c).1.2 = c) /\
  (ContainerStart cl (ID c) <> None -> forall id, ~ In (WaitUntilReady_call id) (Start cl c).2).
Proof.
  unfold Start.
  destruct (Nat.le_gt_cases 12 (String.length (ID c))) as [Hlen | Hlen].
  - rewrite (slice_to_Some _ _ Hlen).
    destruct (ContainerStart cl (ID c)) as [e|] eqn:HS.
    + simpl. split; [split; [discriminate | intros (_ & H & _); discriminate H]|].
      split; [discriminate|]. split; [reflexivity|]. intros _ id. intuition discriminate.
    + destruct (WaitingFor c) as [s|] eqn:HW; [destruct (WaitUntilReady s (ID c)) eqn:HR|]; simpl.
      * split; [split; [discriminate | intros (_ & _ & H); specialize (H s eq_refl); congruence]|].
        split; [discriminate|]. split; [reflexivity|]. congruence.
      * split; [split; [intros _; repeat split; auto; intros s' Heq; congruence | reflexivity]|].
        split; [reflexivity|]. split; congruence.
      * split; [split; [intros _; repeat split; auto; discriminate | reflexivity]|].
        split; [reflexivity|]. split; congruence.
  - rewrite (slice_to_None _ _ Hlen). simpl.
    split; [split; [discriminate | intros (H & _); lia]|].
    split; [discriminate|]. split; [reflexivity|]. intros _ id [].
Qed.

Lemma Start_nil_iff_witness :
  (Start {| ContainerStart := fun _ => None; ContainerStop := fun _ _ => None;
            ContainerRemove := fun _ _ _ => None; ImageRemove := fun _ _ _ => None;
            ClientClose := None |}
         {| ID := "0123456789abcdef"; WaitingFor := Some {| WaitUntilReady := fun _ => None |};
            Image := "nginx"; isRunning := false; imageWasBuilt := false; sessionID := "s";
            terminationSignal := None; skipReaper := true; consumers := [];
            stopProducer := Some (make_chan 0) |}).1.1 = Returns None.
Proof.
  refine (proj2 (proj1 (Start_nil_iff _ _)) _). simpl. repeat split; try lia.
  intros s Hs. inversion Hs. reflexivity.
Defined.

(** [Stop] clears [isRunning] exactly when the engine accepted the stop;
    a refused stop leaves the container as it was.  After a [Start] that
    returned nil, an accepted [Stop] leaves the container as it was
    before the [Start] but for [isRunning], which is false whatever it
    was before. *)
Theorem Stop_after_Start cl c timeout :
  ((Stop cl c timeout).1.1 = Returns None <->
     12 <= String.length (ID c) /\ ContainerStop cl (ID c) timeout = None) /\
  ((Stop cl c timeout).1.1 = Returns None -> (Stop cl c timeout).1.2 = set_isRunning false c) /\
  ((Stop cl c timeout).1.1 <> Returns None -> (Stop cl c timeout).1.2 = c) /\
  ((Start cl c).1.1 = Returns None ->
   ContainerStop cl (ID c) timeout = None ->
   (Stop cl (Start cl c).1.2 timeout).1.1 = Returns None /\
   (Stop cl (Start cl c).1.2 timeout).1.2 = set_isRunning false c).
Proof.
  assert (forall c', ((Stop cl c' timeout).1.1 = Returns None <->
                        12 <= String.length (ID c') /\ ContainerStop cl (ID c') timeout = None) /\
                     ((Stop cl c' timeout).1.1 = Returns None ->
                        (Stop cl c' timeout).1.2 = set_isRunning false c') /\
                     ((Stop cl c' timeout).1.1 <> Returns None -> (Stop cl c' timeout).1.2 = c'))
    as HStop.
  { intros c'. unfold Stop.
    destruct (Nat.le_gt_cases 12 (String.length (ID c'))) as [Hlen | Hlen].
    - rewrite (slice_to_Some _ _ Hlen).
      destruct (ContainerStop cl (ID c') timeout) as [e|]; simpl.
      + split; [split; [discriminate | intros (_ & H); discriminate H]|].
        split; [discriminate | reflexivity].
      + split; [split; auto|]. split; [reflexivity | congruence].
    - rewrite (slice_to_None _ _ Hlen). simpl.
      split; [split; [discriminate | intros (H & _); lia]|].
      split; [discriminate | reflexivity]. }
  destruct (HStop c) as (H1 & H2 & H3).
  split; [exact H1|]. split; [exact H2|]. split; [exact H3|].
  intros HS Hstop.
  destruct (Start_running cl c HS) as (Hlen & ->).
  destruct (HStop (set_isRunning true c)) as ((_ & H4) & H5 & _).
  split; [apply H4; auto|]. rewrite H5 by (apply H4; auto). reflexivity.
Qed.

Lemma Stop_after_Start_witness :
  (Stop {| ContainerStart := fun _ => None; ContainerStop := fun _ _ => Some "no such container";
           ContainerRemove := fun _ _ _ => None; ImageRemove := fun _ _ _ => None;
           ClientClose := None |}
        {| ID := "0123456789abcdef"; WaitingFor := None;
           Image := "nginx"; isRunning := true; imageWasBuilt := false; sessionID := "s";
           terminationSignal := None; skipReaper := true; consumers := [];
           stopProducer := Some (make_chan 0) |} None).1.2
  = {| ID := "0123456789abcdef"; WaitingFor := None;
       Image := "nginx"; isRunning := true; imageWasBuilt := false; sessionID := "s";
       terminationSignal := None; skipReaper := true; consumers := [];
       stopProducer := Some (make_chan 0) |}.
Proof.
  refine (proj1 (proj2 (proj2 (Stop_after_Start _ _ _))) _). vm_compute. discriminate.
Defined.

(** [Terminate] always asks first for the removal of the container, with
    its volumes and by force.  It returns nil exactly when that removal,
    the removal of the image if the image was built for this container,
    and the closing of the client all succeed; only then are
    [isRunning] and the session id reset.  On any error both stay as
    they were.  The image is asked to be removed only when it was built
    and the container is gone.  [Terminate] never faults, whatever the
    termination channel is. *)
Theorem Terminate_outcomes cl c :
  (exists t, (Terminate cl c).2 = ContainerRemove_req (ID c) true true :: t) /\
  ((Terminate cl c).1.1 = Returns None <->
     ContainerRemove cl (ID c) true true = None /\
     (imageWasBuilt c = true -> ImageRemove cl (Image c) true true = None) /\
     ClientClose cl = None) /\
  ((Terminate cl c).1.1 = Returns None ->
     isRunning (Terminate cl c).1.2 = false /\
     sessionID (Terminate cl c).1.2 = "00000000-0000-0000-0000-000000000000") /\
  (forall e, (Terminate cl c).1.1 = Returns (Some e) ->
     isRunning (Terminate cl c).1.2 = isRunning c /\
     sessionID (Terminate cl c).1.2 = sessionID c) /\
  (forall image f p, In (ImageRemove_req image f p) (Terminate cl c).2 <->
     imageWasBuilt c = true /\ ContainerRemove cl (ID c) true true = None /\
     image = Image c /\ f = true /\ p = true) /\
  (forall msg, (Terminate cl c).1.1 <> Panics msg) /\
  ID (Terminate cl c).1.2 = ID c.
Proof.
  unfold Terminate.
  set (c1 := match chan_try_send (terminationSignal c) true with
             | Some ch' => set_terminationSignal (Some ch') c
             | None => c
             end).
  assert (ID c1 = ID c /\ Image c1 = Image c /\ imageWasBuilt c1 = imageWasBuilt c /\
          isRunning c1 = isRunning c /\ sessionID c1 = sessionID c) as (HI & HM & HB & HR & HS).
  { subst c1. destruct (chan_try_send _ _); auto. }
  cbv zeta. rewrite HI, HM, HB.
  destruct (ContainerRemove cl (ID c) true true) as [e|] eqn:Hrm.
  { simpl. split; [eauto|]. split; [split; [discriminate | intros (H & _); discriminate H]|].
    split; [discriminate|]. split; [auto|].
    split; [intros image f p; split; [intuition discriminate | intros (_ & H & _); discriminate H]|].
    split; [discriminate | exact HI]. }
  destruct (imageWasBuilt c) eqn:Hb.
  - destruct (ImageRemove cl (Image c) true true) as [e|] eqn:Him.
    { simpl. split; [eauto|].
      split; [split; [discriminate | intros (_ & H & _); specialize (H eq_refl); discriminate H]|].
      split; [discriminate|]. split; [auto|].
      split; [intros image f p; split;
              [intros [H | [H | []]]; inversion H; auto
              | intros (_ & _ & -> & -> & ->); auto]|].
      split; [discriminate | exact HI]. }
    destruct (ClientClose cl) as [e|] eqn:Hcl; simpl.
    + split; [eauto|].
      split; [split; [discriminate | intros (_ & _ & H); discriminate H]|].
      split; [discriminate|]. split; [auto|].
      split; [intros image f p; split;
              [intros [H | [H | [H | []]]]; inversion H; auto
              | intros (_ & _ & -> & -> & ->); auto]|].
      split; [discriminate | exact HI].
    + split; [eauto|]. split; [split; auto|]. split; [auto|].
      split; [discriminate|].
      split; [intros image f p; split;
              [intros [H | [H | [H | []]]]; inversion H; auto
              | intros (_ & _ & -> & -> & ->); auto]|].
      split; [discriminate | exact HI].
  - destruct (ClientClose cl) as [e|] eqn:Hcl; simpl.
    + split; [eauto|].
      split; [split; [discriminate | intros (_ & _ & H); discriminate H]|].
      split; [discriminate|]. split; [auto|].
      split; [intros image f p; split;
              [intros [H | [H | []]]; inversion H | intros (H & _); discriminate H]|].
      split; [discriminate | exact HI].
    + split; [eauto|]. split; [split; auto; repeat split; auto; discriminate|]. split; [auto|].
      split; [discriminate|].
      split; [intros image f p; split;
              [intros [H | [H | []]]; inversion H | intros (H & _); discriminate H]|].
      split; [discriminate | exact HI].
Qed.

Lemma Terminate_outcomes_witness :
  isRunning (Terminate {| ContainerStart := fun _ => None; ContainerStop := fun _ _ => None;
                          ContainerRemove := fun _ _ _ => None;
                          ImageRemove := fun _ _ _ => Some "image is in use";
                          ClientClose := None |}
                       {| ID := "0123456789abcdef"; WaitingFor := None;
                          Image := "built"; isRunning := true; imageWasBuilt := true;
                          sessionID := "6ba7b810"; terminationSignal := Some (make_chan 0);
                          skipReaper := false; consumers := [];
                          stopProducer := Some (make_chan 0) |}).1.2 = true.
Proof.
  refine (proj1 (proj1 (proj2 (proj2 (proj2 (Terminate_outcomes _ _)))) "image is in use" _)).
  vm_compute. reflexivity.
Defined.

(** ** The producer goroutine over a whole run *)

Lemma producer_step_ended E id stop consumers w :
  ended w = true -> producer_step E id stop consumers w = (w, []).
Proof. unfold ended, producer_step. destruct (pc w); try discriminate; reflexivity. Qed.

Lemma producer_run_ended E id sched : forall w,
  ended w = true -> producer_run E id sched w = (w, []).
Proof.
  induction sched as [|[stop cs] sched IH]; intros w H; [reflexivity|].
  simpl. rewrite (producer_step_ended _ _ _ _ _ H), (IH w H). reflexivity.
Qed.

Lemma producer_LOOP_default_pc E consumers w :
  pc (producer_LOOP E false consumers w).1 = LOOP \/
  pc (producer_LOOP E false consumers w).1 = BEGIN.
Proof.
  loop_cases E consumers w.
  - destruct (Contains e _); auto.
  - auto.
  - destruct (rd_err res2); auto.
Qed.

Lemma producer_LOOP_default_no_Close E consumers w :
  ~ In Close_call (producer_LOOP E false consumers w).2.
Proof.
  loop_cases E consumers w.
  - destruct (Contains e _); simpl; intuition discriminate.
  - simpl; intuition discriminate.
  - assert (~ In Close_call ([Read_call 8 res] ++ warn_of_tag (header_tag w)
                             ++ [Read_call (Z.to_nat count) res2])) as Hr.
    { unfold warn_of_tag. destruct (2 <? header_tag w)%Z; simpl; intuition discriminate. }
    destruct (rd_err res2); cbn [snd]; rewrite in_app_iff; intros [H | H]; try tauto.
    + simpl in H. intuition discriminate.
    + apply in_map_iff in H as (? & H & _). discriminate H.
Qed.

(** The goroutine ends normally only by taking the stop signal, and the
    closing of the stream is then the last thing it does.  Under a
    schedule that never offers the stop signal it neither returns nor
    closes the stream.  Once it has ended, by return or by fault, it
    does nothing more. *)
Theorem producer_returns_only_on_stop E id sched w :
  (ended w = true -> producer_run E id sched w = (w, [])) /\
  (pc w <> RETURN -> pc (producer_run E id sched w).1 = RETURN ->
   (exists consumers, In (true, consumers) sched) /\
   last (producer_run E id sched w).2 = Some Close_call) /\
  ((forall stop consumers, In (stop, consumers) sched -> stop = false) ->
   ~ In Close_call (producer_run E id sched w).2 /\
   (pc w <> RETURN -> pc (producer_run E id sched w).1 <> RETURN)).
Proof.
  split; [apply producer_run_ended|]. split.
  - revert w. induction sched as [|[stop cs] sched IH]; intros w Hw Hend; [simpl in Hend; tauto|].
    simpl in *. unfold producer_step in *.
    destruct (pc w) eqn:Hpc.
    + destruct (producer_BEGIN E id w) as [w1 evs1] eqn:HB.
      assert (pc w1 <> RETURN /\ evs1 <> []) as [Hw1 _].
      { unfold producer_BEGIN in HB. destruct (ContainerLogs E _ _ _); inversion HB; subst;
          split; discriminate. }
      specialize (IH w1 Hw1).
      destruct (producer_run E id sched w1) as [w2 evs2]. cbn [fst snd] in *.
      destruct (IH Hend) as [[cs' Hin] Hlast]. split; [eauto|].
      rewrite last_app, Hlast. reflexivity.
    + destruct stop.
      * rewrite producer_LOOP_stop in *.
        destruct (Close E (calls w)).
        -- rewrite producer_run_ended in Hend by reflexivity. discriminate Hend.
        -- rewrite producer_run_ended by reflexivity. split; [eauto | reflexivity].
      * pose proof (producer_LOOP_default_pc E cs w) as Hpc1.
        destruct (producer_LOOP E false cs w) as [w1 evs1]. cbn [fst] in Hpc1.
        assert (pc w1 <> RETURN) as Hw1 by (destruct Hpc1 as [-> | ->]; discriminate).
        specialize (IH w1 Hw1).
        destruct (producer_run E id sched w1) as [w2 evs2]. cbn [fst snd] in *.
        destruct (IH Hend) as [[cs' Hin] Hlast]. split; [eauto|].
        rewrite last_app, Hlast. reflexivity.
    + contradiction.
    + rewrite producer_run_ended in Hend by (unfold ended; now rewrite Hpc).
      cbn [fst] in Hend. congruence.
  - revert w. induction sched as [|[stop cs] sched IH]; intros w Hall.
    { simpl. split; [tauto | auto]. }
    assert (stop = false) as -> by (eapply Hall; left; reflexivity).
    assert (forall stop' cs', In (stop', cs') sched -> stop' = false) as Hall'
      by (intros ? ? ?; eapply Hall; right; eauto).
    simpl. unfold producer_step.
    destruct (pc w) eqn:Hpc.
    + destruct (producer_BEGIN E id w) as [w1 evs1] eqn:HB.
      assert (pc w1 <> RETURN /\ ~ In Close_call evs1) as [Hw1 Hev1].
      { unfold producer_BEGIN in HB. destruct (ContainerLogs E _ _ _); inversion HB; subst;
          split; simpl; intuition discriminate. }
      destruct (IH w1 Hall') as [Hno Hret].
      destruct (producer_run E id sched w1) as [w2 evs2]. cbn [fst snd] in *.
      split; [rewrite in_app_iff; tauto | auto].
    + pose proof (producer_LOOP_default_pc E cs w) as Hpc1.
      pose proof (producer_LOOP_default_no_Close E cs w) as Hev1.
      destruct (producer_LOOP E false cs w) as [w1 evs1]. cbn [fst snd] in *.
      assert (pc w1 <> RETURN) as Hw1 by (destruct Hpc1 as [-> | ->]; discriminate).
      destruct (IH w1 Hall') as [Hno Hret].
      destruct (producer_run E id sched w1) as [w2 evs2]. cbn [fst snd] in *.
      split; [rewrite in_app_iff; tauto | auto].
    + rewrite producer_run_ended by (unfold ended; now rewrite Hpc).
      cbn [fst snd]. split; [simpl; tauto | congruence].
    + rewrite producer_run_ended by (unfold ended; now rewrite Hpc).
      cbn [fst snd]. split; [simpl; tauto | congruence].
Qed.

Lemma producer_returns_only_on_stop_witness :
  last (producer_run (sample_engine [[arrives 0 0 (frame x01 "a")]] {| Unix := 0; Nanosecond := 0 |})
                     "c0ffee" [(false, [7]); (false, [7]); (true, [7])] producer_init).2
  = Some Close_call.
Proof.
  refine (proj2 (proj1 (proj2 (producer_returns_only_on_stop _ _ _ _)) _ _)).
  - discriminate.
  - vm_compute. reflexivity.
Defined.

(** On a stream that has ended the goroutine neither stops nor asks
    again: every pass is one more read that reports the end, nothing is
    handed over, and the goroutine stays as it is. *)
Theorem producer_spins_at_end_of_stream E id consumers w n :
  pc w = LOOP -> r w = [] ->
  producer_run E id (alone (replicate n false) consumers) w =
    (w, replicate n (Read_call 8 {| rd_bytes := []; rd_err := Some "EOF"; rd_at := None |})).
Proof.
  intros Hpc Hr. induction n as [|n IH]; [reflexivity|].
  cbn [replicate alone map producer_run]. fold (alone (replicate n false) consumers).
  unfold producer_step. rewrite Hpc.
  assert (producer_LOOP E false consumers w =
          (w, [Read_call 8 {| rd_bytes := []; rd_err := Some "EOF"; rd_at := None |}])) as ->.
  { rewrite (producer_LOOP_header_error E consumers w
               {| rd_bytes := []; rd_err := Some "EOF"; rd_at := None |} [] "EOF").
    - simpl. destruct w; simpl in *; subst; reflexivity.
    - rewrite Hr. reflexivity.
    - reflexivity. }
  rewrite IH. reflexivity.
Qed.

Lemma producer_spins_at_end_of_stream_witness :
  producer_run (sample_engine [] {| Unix := 0; Nanosecond := 0 |}) "c0ffee"
               (alone (replicate 3 false) [7]) (at_loop [])
  = (at_loop [],
     replicate 3 (Read_call 8 {| rd_bytes := []; rd_err := Some "EOF"; rd_at := None |})).
Proof. apply producer_spins_at_end_of_stream; reflexivity. Defined.

Lemma latest_since_app s0 evs1 evs2 :
  latest_since s0 (evs1 ++ evs2) = latest_since (latest_since s0 evs1) evs2.
Proof. unfold latest_since. apply fold_left_app. Qed.

Lemma producer_LOOP_latest_since E stop consumers w :
  since (producer_LOOP E stop consumers w).1 =
    latest_since (since w) (producer_LOOP E stop consumers w).2 /\
  forall id' o, ~ In (ContainerLogs_req id' o) (producer_LOOP E stop consumers w).2.
Proof.
  destruct stop.
  - rewrite producer_LOOP_stop. destruct (Close E (calls w)); simpl; intuition discriminate.
  - loop_cases E consumers w.
    + destruct (Contains e _); simpl; intuition discriminate.
    + simpl; intuition discriminate.
    + assert (latest_since (since w) ([Read_call 8 res] ++ warn_of_tag (header_tag w)
                                      ++ [Read_call (Z.to_nat count) res2]) = since w /\
              forall id' o, ~ In (ContainerLogs_req id' o)
                              ([Read_call 8 res] ++ warn_of_tag (header_tag w)
                               ++ [Read_call (Z.to_nat count) res2])) as [Hl Hn].
      { unfold warn_of_tag. destruct (2 <? header_tag w)%Z; simpl; intuition discriminate. }
      destruct (rd_err res2); cbn [fst snd since]; rewrite latest_since_app, Hl.
      * split; [reflexivity|]. intros id' o. rewrite in_app_iff. intros [H | H].
        -- eapply Hn; eauto.
        -- simpl in H. intuition discriminate.
      * split.
        -- generalize (since w). induction consumers as [|c cs IH]; intros s; [reflexivity|].
           simpl. apply IH.
        -- intros id' o. rewrite in_app_iff. intros [H | H]; [eapply Hn; eauto|].
           apply in_map_iff in H as (? & H & _). discriminate H.
Qed.

(** Every log request of a run is made for the container of the run,
    asks for both outputs and to follow, and carries as [since] the text
    of the latest reading of the clock made before it in the run, or the
    empty text when the clock was not read yet. *)
Theorem producer_requests_since E id sched pre id' options post :
  (producer_run E id sched producer_init).2 = pre ++ ContainerLogs_req id' options :: post ->
  id' = id /\ ShowStdout options = true /\ ShowStderr options = true /\ Follow options = true /\
  Since options = latest_since "" pre.
Proof.
  assert (forall sched w pre post,
            (producer_run E id sched w).2 = pre ++ ContainerLogs_req id' options :: post ->
            id' = id /\ ShowStdout options = true /\ ShowStderr options = true /\
            Follow options = true /\ Since options = latest_since (since w) pre) as H.
  { clear. induction sched as [|[stop cs] sched IH]; intros w pre post Heq.
    { simpl in Heq. destruct pre; discriminate Heq. }
    simpl in Heq. unfold producer_step in Heq.
    destruct (pc w) eqn:Hpc.
    - unfold producer_BEGIN in Heq.
      assert (exists w1, since w1 = since w /\
                (producer_run E id sched w1).2 = post /\ pre = [] /\
                ContainerLogs_req id {| ShowStdout := true; ShowStderr := true; Follow := true;
                                        Since := since w |} = ContainerLogs_req id' options \/
                exists w1 pre', since w1 = since w /\
                  pre = ContainerLogs_req id {| ShowStdout := true; ShowStderr := true;
                                                Follow := true; Since := since w |} :: pre' /\
                  (producer_run E id sched w1).2 = pre' ++ ContainerLogs_req id' options :: post)
        as Hc.
      { destruct (ContainerLogs E _ _ _) as [e | r'];
          match type of Heq with context [producer_run E id sched ?w1] =>
            destruct (producer_run E id sched w1) as [w2 evs2] eqn:Hrun; cbn [fst snd] in Heq;
            destruct pre as [|ev pre']; simpl in Heq; inversion Heq; subst;
            [exists w1; left; rewrite Hrun; auto
            | exists w1; right; exists w1, pre'; rewrite Hrun; auto]
          end. }
      destruct Hc as (w1 & [(Hs & _ & -> & Hreq) | (w1' & pre' & Hs & -> & Hrun)]).
      + inversion Hreq; subst. simpl. auto.
      + destruct (IH w1' pre' post Hrun) as (? & ? & ? & ? & Hsince).
        repeat split; auto. simpl. now rewrite <- Hs.
    - pose proof (producer_LOOP_latest_since E stop cs w) as [Hs Hno].
      destruct (producer_LOOP E stop cs w) as [w1 evs1]. cbn [fst snd] in *.
      destruct (producer_run E id sched w1) as [w2 evs2] eqn:Hrun. cbn [fst snd] in Heq.
      apply app_eq_app in Heq as [mid [[-> Hpost] | [-> Hmid]]].
      + destruct mid as [|ev mid].
        * rewrite app_nil_r in *. simpl in Hpost.
          specialize (IH w1 [] post). rewrite Hrun in IH. cbn [snd] in IH.
          destruct (IH (eq_sym Hpost)) as (? & ? & ? & ? & Hsince).
          repeat split; auto. simpl in Hsince. rewrite Hsince, Hs. reflexivity.
        * simpl in Hpost. inversion Hpost; subst. exfalso.
          eapply (Hno id' options). rewrite in_app_iff. right. left. reflexivity.
      + specialize (IH w1 mid post). rewrite Hrun in IH. cbn [snd] in IH.
        destruct (IH Hmid) as (? & ? & ? & ? & Hsince).
        repeat split; auto. rewrite latest_since_app, <- Hs. exact Hsince.
    - destruct (producer_run E id sched w) as [w2 evs2] eqn:Hrun. cbn [fst snd] in Heq.
      simpl in Heq. specialize (IH w pre post). rewrite Hrun in IH. auto.
    - destruct (producer_run E id sched w) as [w2 evs2] eqn:Hrun. cbn [fst snd] in Heq.
      simpl in Heq. specialize (IH w pre post). rewrite Hrun in IH. auto. }
  intros Heq. exact (H sched producer_init pre post Heq).
Qed.

Lemma producer_requests_since_witness :
  Since {| ShowStdout := true; ShowStderr := true; Follow := true; Since := "107.500000100" |}
  = latest_since ""
      [ContainerLogs_req "c0ffee"
         {| ShowStdout := true; ShowStderr := true; Follow := true; Since := "" |};
       Read_call 8 {| rd_bytes := [];
                      rd_err := Some "read tcp: use of closed network connection";
                      rd_at := Some {| Unix := 107; Nanosecond := 500000000 |} |};
       Now_call {| Unix := 107; Nanosecond := 500000100 |}].
Proof.
  refine (proj2 (proj2 (proj2 (proj2
    (producer_requests_since
       (sample_engine [[breaks 107 500000000 "read tcp: use of closed network connection"]; []; []]
                      {| Unix := 107; Nanosecond := 500000100 |})
       "c0ffee" (alone [false; false; false] [7]) _ "c0ffee" _ [] _))))).
  vm_compute. reflexivity.
Defined.

(** ** Frames written by the engine and read back by the goroutine *)

Lemma byteZ_byte_of n : byteZ (byte_of n) = (Z.of_N n mod 2 ^ 8)%Z.
Proof.
  unfold byteZ, byte_of.
  destruct (Byte.of_N (n mod 256)) as [b|] eqn:Hb.
  - simpl. rewrite (Byte.to_of_N _ Hb), N2Z.inj_mod. reflexivity.
  - apply Byte.of_N_None_iff in Hb.
    pose proof (N.mod_upper_bound n 256 ltac:(discriminate)). lia.
Qed.

Lemma Uint32_frame_header tag n :
  (n < 2 ^ 32)%N -> Uint32 (drop 4 (frame_header tag n)) = Some (Z.of_N n).
Proof.
  intros Hn. unfold frame_header. cbn [drop Uint32]. f_equal.
  rewrite !byteZ_byte_of, !N2Z.inj_div.
  change (Z.of_N 16777216) with (2 ^ 24)%Z. change (Z.of_N 65536) with (2 ^ 16)%Z.
  change (Z.of_N 256) with (2 ^ 8)%Z.
  assert (0 <= Z.of_N n < 2 ^ 32)%Z as Hz.
  { split; [lia|]. change (2 ^ 32)%Z with (Z.of_N (2 ^ 32)). lia. }
  generalize dependent (Z.of_N n). clear n Hn. intros z Hz.
  apply Z.bits_inj'. intros i Hi.
  rewrite !Z.lor_spec, !Z.shiftl_spec by lia.
  destruct (Z.lt_ge_cases i 8) as [H8 | H8].
  { rewrite Z.mod_pow2_bits_low by lia.
    rewrite !(Z.testbit_neg_r _ (i - _)) by lia. now rewrite !orb_false_r. }
  rewrite (Z.mod_pow2_bits_high z 8 i) by lia.
  destruct (Z.lt_ge_cases i 16) as [H16 | H16].
  { rewrite (Z.mod_pow2_bits_low _ 8 (i - 8)) by lia.
    rewrite Z.div_pow2_bits by lia.
    rewrite !(Z.testbit_neg_r _ (i - _)) by lia.
    rewrite !orb_false_r. simpl. f_equal. lia. }
  rewrite (Z.mod_pow2_bits_high _ 8 (i - 8)) by lia.
  destruct (Z.lt_ge_cases i 24) as [H24 | H24].
  { rewrite (Z.mod_pow2_bits_low _ 8 (i - 16)) by lia.
    rewrite Z.div_pow2_bits by lia.
    rewrite !(Z.testbit_neg_r _ (i - _)) by lia.
    rewrite !orb_false_r. simpl. f_equal. lia. }
  rewrite (Z.mod_pow2_bits_high _ 8 (i - 16)) by lia.
  destruct (Z.lt_ge_cases i 32) as [H32 | H32].
  { rewrite (Z.mod_pow2_bits_low _ 8 (i - 24)) by lia.
    rewrite Z.div_pow2_bits by lia. simpl. f_equal. lia. }
  rewrite (Z.mod_pow2_bits_high _ 8 (i - 24)) by lia.
  rewrite <- (Z.mod_small z (2 ^ 32)) at 1 by lia.
  rewrite Z.mod_pow2_bits_high by lia. reflexivity.
Qed.

Lemma length_frame_header tag n : length (frame_header tag n) = 8.
Proof. reflexivity. Qed.

(** A read of as many bytes as the stream has ready in front takes
    exactly those. *)
Lemma Read_available t pre more rest :
  pre <> [] ->
  Read (length pre) (available t (pre ++ more) rest) =
    ({| rd_bytes := pre; rd_err := None; rd_at := Some t |}, available t more rest).
Proof.
  intros Hpre. unfold available at 1.
  destruct (pre ++ more) as [|b d] eqn:Hd.
  { destruct pre; [congruence | discriminate Hd]. }
  rewrite <- Hd. clear b d Hd. unfold Read. cbn [data arrival err].
  rewrite length_app.
  destruct (Nat.leb_spec (length pre + length more) (length pre)) as [Hle | Hgt].
  - assert (more = []) as -> by (destruct more; [reflexivity | simpl in Hle; lia]).
    rewrite app_nil_r. reflexivity.
  - rewrite take_app_length, drop_app_length.
    destruct more; [simpl in Hgt; lia | reflexivity].
Qed.

Lemma encode_frames_cons tag payload frames :
  encode_frames ((tag, payload) :: frames) =
    frame_header tag (N.of_nat (length payload)) ++ (payload ++ encode_frames frames).
Proof.
  unfold encode_frames. cbn [flat_map fst snd]. unfold encode_frame.
  now rewrite <- app_assoc.
Qed.

(** One pass over a stream that has a whole frame ready. *)
Lemma producer_LOOP_available E consumers w t tag payload more rest :
  (N.of_nat (length payload) < 2 ^ 32)%N ->
  r w = available t (frame_header tag (N.of_nat (length payload)) ++ (payload ++ more)) rest ->
  (producer_LOOP E false consumers w).1 =
    {| pc := LOOP; since := since w; r := available t more rest; calls := calls w |} /\
  accepts (producer_LOOP E false consumers w).2 =
    match frame_log (tag, payload) with
    | Some l => map (fun c => (c, l)) consumers
    | None => []
    end.
Proof.
  intros Hlen Hr.
  assert (Read 8 (r w) =
          ({| rd_bytes := frame_header tag (N.of_nat (length payload)); rd_err := None;
              rd_at := Some t |}, available t (payload ++ more) rest)) as HR.
  { rewrite Hr. apply (Read_available t (frame_header tag _)). discriminate. }
  assert (header w = frame_header tag (N.of_nat (length payload))) as Hh.
  { unfold header. rewrite HR. reflexivity. }
  assert (header_count w = Some (Z.of_nat (length payload))) as Hc.
  { unfold header_count. rewrite Hh, Uint32_frame_header by exact Hlen. f_equal. lia. }
  assert (header_tag w = byteZ tag) as Ht.
  { unfold header_tag. rewrite Hh. reflexivity. }
  destruct payload as [|b payload].
  - rewrite (producer_LOOP_zero E consumers w _ _ HR eq_refl Hc). auto.
  - assert (Read (Z.to_nat (Z.of_nat (length (b :: payload))))
                 (available t ((b :: payload) ++ more) rest) =
            ({| rd_bytes := b :: payload; rd_err := None; rd_at := Some t |},
             available t more rest)) as HR2.
    { rewrite Nat2Z.id. apply Read_available. discriminate. }
    rewrite (producer_LOOP_frame E consumers w _ _ _ _ _ HR eq_refl Hc ltac:(simpl; lia) HR2).
    cbn [rd_err rd_bytes fst snd]. split; [reflexivity|].
    rewrite accepts_app, accepts_reads, Ht. cbn [app].
    unfold filled. rewrite Nat2Z.id, Nat.sub_diag. cbn [make_bytes replicate].
    rewrite app_nil_r. apply accepts_map.
Qed.

Lemma delivered_of_accepts c evs :
  delivered c evs = omap (fun p => if decide (p.1 = c) then Some p.2 else None) (accepts evs).
Proof.
  induction evs as [|ev evs IH]; [reflexivity|].
  destruct ev as [| | | | |c0 l];
    try (change (delivered c evs =
                 omap (fun p => if decide (p.1 = c) then Some p.2 else None) (accepts evs));
         exact IH).
  rewrite delivered_cons_Accept.
  change (accepts (Accept c0 l :: evs)) with ((c0, l) :: accepts evs).
  cbn [omap list_omap fst snd]. destruct (decide (c0 = c)); now rewrite IH.
Qed.

(** Round trip.  When the engine has written a sequence of frames, each
    with a payload of less than 2^32 bytes, and the stream has them
    ready, as many passes as there are frames consume exactly those
    bytes, and each of a list of distinct consumers is handed, in
    order, one record per frame with a payload: the payload unchanged
    and the kind of the frame's tag. *)
Theorem producer_reads_back_frames E id consumers c frames : forall w t rest,
  Forall (fun f => (N.of_nat (length f.2) < 2 ^ 32)%N) frames ->
  pc w = LOOP -> r w = available t (encode_frames frames) rest ->
  List.NoDup consumers -> In c consumers ->
  delivered c (producer_run E id (alone (replicate (length frames) false) consumers) w).2
    = omap frame_log frames /\
  r (producer_run E id (alone (replicate (length frames) false) consumers) w).1 = rest /\
  pc (producer_run E id (alone (replicate (length frames) false) consumers) w).1 = LOOP.
Proof.
  induction frames as [|[tag payload] frames IH]; intros w t rest Hall Hpc Hr Hnd Hin.
  { simpl in *. auto. }
  inversion Hall as [|? ? Hlen Hall']; subst. cbn [snd] in Hlen.
  rewrite encode_frames_cons in Hr.
  destruct (producer_LOOP_available E consumers w t tag payload _ rest Hlen Hr) as [Hw1 Hacc].
  cbn [length replicate alone map producer_run].
  fold (alone (replicate (length frames) false) consumers).
  unfold producer_step. rewrite Hpc.
  destruct (producer_LOOP E false consumers w) as [w1 evs1]. cbn [fst snd] in Hw1, Hacc.
  specialize (IH w1 t rest Hall').
  destruct (producer_run E id (alone (replicate (length frames) false) consumers) w1)
    as [w2 evs2]. cbn [fst snd] in *.
  destruct IH as (IHd & IHr & IHp); auto; [now rewrite Hw1 | now rewrite Hw1 |].
  repeat split; auto.
  rewrite delivered_app, IHd. cbn [omap list_omap]. f_equal.
  rewrite delivered_of_accepts, Hacc.
  destruct (frame_log (tag, payload)) as [l|]; [|reflexivity].
  pose proof (delivered_handover c l consumers Hnd Hin) as Hh.
  rewrite delivered_of_accepts, accepts_map in Hh. rewrite Hh. reflexivity.
Qed.

Lemma producer_reads_back_frames_witness :
  delivered 7 (producer_run (sample_engine [] {| Unix := 0; Nanosecond := 0 |}) "c0ffee"
                 (alone (replicate 3 false) [7])
                 (at_loop (available {| Unix := 1; Nanosecond := 2 |}
                             (encode_frames [(x01, [x61]); (x00, []); (x02, [x62; x63])])
                             []))).2
  = [{| LogType := StdoutLog; Content := [x61] |};
     {| LogType := StderrLog; Content := [x62; x63] |}].
Proof.
  refine (proj1 (producer_reads_back_frames _ "c0ffee" [7] 7
                   [(x01, [x61]); (x00, []); (x02, [x62; x63])] _
                   {| Unix := 1; Nanosecond := 2 |} [] _ _ _ _ _)).
  - repeat constructor.
  - reflexivity.
  - reflexivity.
  - repeat constructor. intros [].
  - left. reflexivity.
Defined.

(** ** The default network *)

(** [getDefaultNetwork] lists the networks once.  It answers with the
    bridge name when a network of that name is listed, and with
    [reaper_default] otherwise; it creates a network only when neither
    is listed, and then it is [reaper_default], a bridge that can be
    attached to, labelled as a testcontainers resource and with no
    session label.  A failure of the listing or of the creation is its
    error. *)
Theorem getDefaultNetwork_cases D bridge st :
  let listed := NetworkList D (length (requests st)) in
  let l := fresh (dom (heap st)) in
  let nc := {| nc_Driver := Bridge; nc_Internal := false; nc_Attachable := true;
               nc_Labels := Some l |} in
  let create := NetworkCreate_req ReaperDefault nc {[ TestcontainerLabel := "true" ]} in
  (forall e, listed = inl e ->
     getDefaultNetwork D bridge st = (inl e, asked st [NetworkList_req])) /\
  (forall names, listed = inr names -> bridge ∈ names ->
     getDefaultNetwork D bridge st = (inr bridge, asked st [NetworkList_req])) /\
  (forall names, listed = inr names -> bridge ∉ names -> ReaperDefault ∈ names ->
     getDefaultNetwork D bridge st = (inr ReaperDefault, asked st [NetworkList_req])) /\
  (forall names, listed = inr names -> bridge ∉ names -> ReaperDefault ∉ names ->
     (getDefaultNetwork D bridge st).1 =
       match NetworkCreate D (S (length (requests st))) ReaperDefault nc
                           {[ TestcontainerLabel := "true" ]} with
       | inl e => inl e
       | inr _ => inr ReaperDefault
       end /\
     requests (getDefaultNetwork D bridge st).2 = requests st ++ [NetworkList_req; create]) /\
  (forall n, (getDefaultNetwork D bridge st).1 = inr n -> n = bridge \/ n = ReaperDefault).
Proof.
  cbv zeta.
  split; [|split; [|split; [|split]]].
  - intros e He.
    unfold getDefaultNetwork, bind, request, result, fail, asked. cbn [fst snd].
    rewrite He. reflexivity.
  - intros names Hn Hb.
    unfold getDefaultNetwork, bind, request, result, ret, asked. cbn [fst snd].
    rewrite Hn. cbn [fst snd]. destruct (decide (bridge ∈ names)); [reflexivity | contradiction].
  - intros names Hn Hb Hr.
    unfold getDefaultNetwork, bind, request, result, ret, asked. cbn [fst snd].
    rewrite Hn. cbn [fst snd]. destruct (decide (bridge ∈ names)); [contradiction|].
    destruct (decide (ReaperDefault ∈ names)); [reflexivity | contradiction].
  - intros names Hn Hb Hr.
    unfold getDefaultNetwork, bind, request, result, alloc, get_heap, ret, fail.
    cbn [fst snd]. rewrite Hn. cbn [fst snd].
    destruct (decide (bridge ∈ names)); [contradiction|].
    destruct (decide (ReaperDefault ∈ names)); [contradiction|].
    cbn [fst snd heap requests]. unfold deref. rewrite !lookup_insert_eq.
    cbn [default from_option]. rewrite length_app. cbn [length]. rewrite Nat.add_1_r.
    destruct (NetworkCreate D _ _ _ _); cbn [fst snd requests]; now rewrite <- app_assoc.
  - unfold getDefaultNetwork, bind, request, result, alloc, get_heap, ret, fail.
    cbn [fst snd].
    destruct (NetworkList D (length (requests st))) as [e | names]; cbn [fst snd];
      [discriminate|].
    destruct (decide (bridge ∈ names)) as [?|?]; cbn [fst snd];
      [intros ? Hn; inversion Hn; auto|].
    destruct (decide (ReaperDefault ∈ names)) as [?|?]; cbn [fst snd];
      [intros ? Hn; inversion Hn; auto|].
    destruct (NetworkCreate D _ _ _ _); cbn [fst snd]; [discriminate|].
    intros ? Hn; inversion Hn; auto.
Qed.

Lemma getDefaultNetwork_cases_witness :
  getDefaultNetwork sample_docker "podman" (sample_state ∅)
  = (inr ReaperDefault, asked (sample_state ∅) [NetworkList_req]) \/
  requests (getDefaultNetwork sample_docker "podman" (sample_state ∅)).2
  = requests (sample_state ∅) ++
    [NetworkList_req;
     NetworkCreate_req ReaperDefault
       {| nc_Driver := Bridge; nc_Internal := false; nc_Attachable := true;
          nc_Labels := Some (fresh (dom (heap (sample_state ∅)))) |}
       {[ TestcontainerLabel := "true" ]}].
Proof.
  right.
  refine (proj2 (proj1 (proj2 (proj2 (proj2 (getDefaultNetwork_cases sample_docker "podman"
            (sample_state ∅))))) ["bridge"] _ _ _)).
  - reflexivity.
  - intros H. apply list_elem_of_In in H. simpl in H. intuition discriminate.
  - intros H. apply list_elem_of_In in H. simpl in H. intuition discriminate.
Defined.

(** ** [CreateContainer] as a whole *)

(** The order in which [CreateContainer] talks to the outside, whatever
    the engine and the reaper answer: first the listing (and possibly
    the creation) of the default network, not at all when the provider
    knows its default network already; then the reaper, not at all when
    the request skips it; then image requests and the inspection of the
    first network; then at most one create request, under the name of
    the request; then only network connections and copies of files.
    Without a create request [CreateContainer] returns an error. *)
Theorem CreateContainer_order D bridge req st :
  allocated (heap st) (req_Labels req) ->
  exists net rea a cr b,
    requests (CreateContainer D bridge req st).2 = requests st ++ net ++ rea ++ a ++ cr ++ b /\
    Forall network_setup net /\ Forall reaper_call rea /\
    Forall before_create a /\ Forall after_create b /\
    (cr = [] \/ exists cfg labels, cr = [ContainerCreate_req cfg (req_Name req) labels]) /\
    (cr = [] -> b = [] /\ exists e, (CreateContainer D bridge req st).1 = inl e) /\
    (DefaultNetwork st <> "" -> net = []) /\
    (req_SkipReaper req = true -> rea = []).
Proof.
  intros Hwf.
  pose proof (CreateContainer_anatomy D bridge req st Hwf) as HA. cbv zeta in HA.
  destruct (ensureDefaultNetwork_requests D bridge st) as (_ & net & Hnet & HFnet).
  assert (DefaultNetwork st <> "" -> net = []) as Hknown.
  { intros H. rewrite (ensureDefaultNetwork_known D bridge st H) in Hnet. cbn [snd] in Hnet.
    rewrite <- (app_nil_r (requests st)) in Hnet at 1. now apply app_inv_head in Hnet. }
  assert (forall (sid : string) ts st2 rea,
            requests st2 = requests st ++ net ++ rea -> Forall reaper_call rea ->
            (req_SkipReaper req = true -> rea = []) ->
            forall req', req_Name req' = req_Name req ->
            CreateContainer D bridge req st = CreateContainer_rest D req' sid ts st2 ->
            exists net rea a cr b,
              requests (CreateContainer D bridge req st).2
                = requests st ++ net ++ rea ++ a ++ cr ++ b /\
              Forall network_setup net /\ Forall reaper_call rea /\
              Forall before_create a /\ Forall after_create b /\
              (cr = [] \/ exists cfg labels, cr = [ContainerCreate_req cfg (req_Name req) labels]) /\
              (cr = [] -> b = [] /\ exists e, (CreateContainer D bridge req st).1 = inl e) /\
              (DefaultNetwork st <> "" -> net = []) /\
              (req_SkipReaper req = true -> rea = [])) as Hrest.
  { intros sid ts st2 rea Hreq HFrea Hskip req' Hname HC. rewrite HC.
    destruct (CreateContainer_rest_shape D req' sid ts st2)
      as (evs_a & HFa & [(e & Hx & Hst) | (tag & evs_b & Hst & HFb & _)]).
    - exists net, rea, evs_a, [], []. rewrite Hst, Hx. cbn [requests asked]. rewrite Hreq.
      repeat split; auto; eauto.
      rewrite !app_nil_r, <- !app_assoc. reflexivity.
    - exists net, rea, evs_a,
        [ContainerCreate_req {| cfg_Image := tag; cfg_Labels := req_Labels req' |}
                             (req_Name req') (deref (heap st2) (req_Labels req'))], evs_b.
      rewrite Hst. cbn [requests asked]. rewrite Hreq, Hname.
      repeat split; auto; eauto; try discriminate.
      rewrite <- !app_assoc. reflexivity. }
  destruct ((ensureDefaultNetwork D bridge st).1) as [e | []] eqn:Hens.
  { exists net, [], [], [], []. rewrite HA. cbn [fst snd]. rewrite Hnet, !app_nil_r.
    repeat split; auto; eauto. }
  destruct HA as (l & _ & HA).
  destruct (req_SkipReaper req) eqn:Hskip.
  { refine (Hrest _ _ _ [] _ _ _ _ _ HA); cbn [requests]; rewrite ?app_nil_r; auto. }
  destruct (NewReaper D _ _ _) as [e | r].
  { exists net, [NewReaper_call (uuid_New D (length
                 (requests (ensureDefaultNetwork D bridge st).2))) (req_ReaperImage req)],
      [], [], [].
    rewrite HA. cbn [fst snd requests asked]. rewrite Hnet, !app_nil_r, <- !app_assoc.
    repeat split; auto; eauto; try discriminate. repeat constructor. }
  destruct (Connect D _ r) as [e | ts].
  { exists net, [NewReaper_call (uuid_New D (length
                 (requests (ensureDefaultNetwork D bridge st).2))) (req_ReaperImage req);
                 Connect_call (SessionID r)], [], [], [].
    rewrite HA. cbn [fst snd requests asked]. rewrite Hnet, !app_nil_r, <- !app_assoc.
    repeat split; auto; eauto; try discriminate. repeat constructor. }
  refine (Hrest _ _ _ [NewReaper_call _ _; Connect_call _] _ _ _ _ _ HA); cbn [requests];
    try discriminate; auto.
  - rewrite Hnet, <- !app_assoc. reflexivity.
  - repeat constructor.
Qed.

Lemma CreateContainer_order_witness :
  exists net rea a cr b,
    requests (CreateContainer sample_docker "bridge" (sample_request None true) (sample_state ∅)).2
      = requests (sample_state ∅) ++ net ++ rea ++ a ++ cr ++ b /\
    Forall network_setup net /\ Forall reaper_call rea /\
    Forall before_create a /\ Forall after_create b /\
    (cr = [] \/ exists cfg labels, cr = [ContainerCreate_req cfg "web" labels]) /\
    (cr = [] -> b = [] /\
       exists e, (CreateContainer sample_docker "bridge" (sample_request None true)
                                  (sample_state ∅)).1 = inl e) /\
    (DefaultNetwork (sample_state ∅) <> "" -> net = []) /\
    (true = true -> rea = []).
Proof. exact (CreateContainer_order sample_docker "bridge" (sample_request None true) (sample_state ∅) I). Defined.

(** A request that skips the reaper: [CreateContainer] never creates or
    connects a reaper, the create request carries the request's own
    label map as it was on entry, the caller's map is left as it was,
    and the container returned has no termination signal. *)
Theorem CreateContainer_without_reaper D bridge req st :
  allocated (heap st) (req_Labels req) ->
  req_SkipReaper req = true ->
  (forall q, In q (requests (CreateContainer D bridge req st).2) ->
             reaper_call q -> In q (requests st)) /\
  (forall cfg name labels,
      In (ContainerCreate_req cfg name labels) (requests (CreateContainer D bridge req st).2) ->
      In (ContainerCreate_req cfg name labels) (requests st) \/
      labels = deref (heap st) (req_Labels req)) /\
  (forall l, req_Labels req = Some l ->
             heap (CreateContainer D bridge req st).2 !! l = heap st !! l) /\
  (forall c, (CreateContainer D bridge req st).1 = inr c ->
             terminationSignal c = None /\ skipReaper c = true).
Proof.
  intros Hwf Hskip.
  pose proof (CreateContainer_anatomy D bridge req st Hwf) as HA. cbv zeta in HA.
  destruct (ensureDefaultNetwork_requests D bridge st) as (Hsub & net & Hnet & HFnet).
  assert (forall q, In q net -> reaper_call q -> False) as Hnr.
  { intros q Hin Hq. pose proof (proj1 (List.Forall_forall _ _) HFnet q Hin) as Hp.
    destruct q; simpl in *; tauto. }
  assert (forall cfg name labels, ~ In (ContainerCreate_req cfg name labels) net) as Hnc.
  { intros cfg name labels Hin. exact (proj1 (List.Forall_forall _ _) HFnet _ Hin). }
  assert (forall l, req_Labels req = Some l ->
                    heap (ensureDefaultNetwork D bridge st).2 !! l = heap st !! l) as Hkeep.
  { intros l Hl. rewrite Hl in Hwf. destruct Hwf as [own Hown].
    rewrite Hown. exact (lookup_weaken _ _ _ _ Hown Hsub). }
  destruct ((ensureDefaultNetwork D bridge st).1) as [e | []] eqn:Hens.
  { rewrite HA. cbn [fst snd]. rewrite Hnet.
    split; [|split; [|split]].
    - intros q Hin Hq. apply in_app_or in Hin as [Hin | Hin]; [exact Hin|].
      destruct (Hnr q Hin Hq).
    - intros cfg name labels Hin. apply in_app_or in Hin as [Hin | Hin]; [left; exact Hin|].
      destruct (Hnc _ _ _ Hin).
    - exact Hkeep.
    - discriminate. }
  destruct HA as (l & Hl & HA). rewrite Hskip in HA. rewrite HA.
  match type of HA with _ = CreateContainer_rest D ?req' ?sid ?ts ?st2 =>
    destruct (CreateContainer_rest_shape D req' sid ts st2)
      as (evs_a & HFa & Hshape);
    set (out := CreateContainer_rest D req' sid ts st2) in *
  end.
  assert (forall q, In q evs_a -> reaper_call q -> False) as Har.
  { intros q Hin Hq. pose proof (proj1 (List.Forall_forall _ _) HFa q Hin) as Hp.
    destruct q; simpl in *; tauto. }
  assert (forall cfg name labels, ~ In (ContainerCreate_req cfg name labels) evs_a) as Hac.
  { intros cfg name labels Hin. exact (proj1 (List.Forall_forall _ _) HFa _ Hin). }
  assert (forall l0, req_Labels req = Some l0 ->
            <[l := deref (heap st) (req_Labels req)]> (heap (ensureDefaultNetwork D bridge st).2)
              !! l0 = heap st !! l0) as Hsame.
  { intros l0 Hl0. destruct Hl as [Hl | [Hl _]]; [|congruence].
    assert (l0 = l) as -> by congruence.
    rewrite lookup_insert_eq, Hl. rewrite Hl in Hwf. destruct Hwf as [own Hown].
    unfold deref. rewrite Hown. reflexivity. }
  destruct Hshape as [(e & Hx & Hst) | (tag & evs_b & Hst & HFb & Hc)].
  { rewrite Hst, Hx. cbn [requests asked heap]. rewrite Hnet.
    split; [|split; [|split]].
    - intros q Hin Hq. apply in_app_or in Hin as [Hin | Hin]; [|destruct (Har q Hin Hq)].
      apply in_app_or in Hin as [Hin | Hin]; [exact Hin | destruct (Hnr q Hin Hq)].
    - intros cfg name labels Hin. apply in_app_or in Hin as [Hin | Hin];
        [|destruct (Hac _ _ _ Hin)].
      apply in_app_or in Hin as [Hin | Hin]; [left; exact Hin | destruct (Hnc _ _ _ Hin)].
    - exact Hsame.
    - discriminate. }
  assert (forall q, In q evs_b -> reaper_call q -> False) as Hbr.
  { intros q Hin Hq. pose proof (proj1 (List.Forall_forall _ _) HFb q Hin) as Hp.
    destruct q; simpl in *; tauto. }
  assert (forall cfg name labels, ~ In (ContainerCreate_req cfg name labels) evs_b) as Hbc.
  { intros cfg name labels Hin. exact (proj1 (List.Forall_forall _ _) HFb _ Hin). }
  rewrite Hst. cbn [requests asked heap]. rewrite Hnet.
  split; [|split; [|split]].
  - intros q Hin Hq. apply in_app_or in Hin as [Hin | Hin].
    + apply in_app_or in Hin as [Hin | Hin]; [exact Hin | destruct (Hnr q Hin Hq)].
    + apply in_app_or in Hin as [Hin | [<- | Hin]];
        [destruct (Har q Hin Hq) | destruct Hq | destruct (Hbr q Hin Hq)].
  - intros cfg name labels Hin. apply in_app_or in Hin as [Hin | Hin].
    + apply in_app_or in Hin as [Hin | Hin]; [left; exact Hin | destruct (Hnc _ _ _ Hin)].
    + apply in_app_or in Hin as [Hin | [Heq | Hin]];
        [destruct (Hac _ _ _ Hin) | | destruct (Hbc _ _ _ Hin)].
      right. inversion Heq. cbn [req_Labels with_Networks_Labels heap deref].
      rewrite lookup_insert_eq. reflexivity.
  - exact Hsame.
  - intros c Hx. destruct (Hc c Hx) as [_ ->]. cbn [terminationSignal skipReaper].
    split; [reflexivity|]. cbn. exact Hskip.
Qed.

Lemma CreateContainer_without_reaper_witness :
  let own : gmap string string := {[ "app" := "shop" ]} in
  let out := CreateContainer sample_docker "bridge" (sample_request (Some 0) true)
                             (sample_state own) in
  (forall q, In q (requests out.2) -> reaper_call q -> In q (requests (sample_state own))) /\
  (forall cfg name labels,
      In (ContainerCreate_req cfg name labels) (requests out.2) ->
      In (ContainerCreate_req cfg name labels) (requests (sample_state own)) \/
      labels = deref (heap (sample_state own)) (Some 0)) /\
  (forall l, Some 0 = Some l -> heap out.2 !! l = heap (sample_state own) !! l) /\
  (forall c, out.1 = inr c -> terminationSignal c = None /\ skipReaper c = true).
Proof.
  exact (CreateContainer_without_reaper sample_docker "bridge" (sample_request (Some 0) true)
           (sample_state {[ "app" := "shop" ]}) (ex_intro _ _ eq_refl) eq_refl).
Defined.

(** A reaper that cannot be created or connected ends [CreateContainer]
    at once (the default network being in place): the error is the
    reaper's, followed by ": creating reaper failed" or
    ": connecting to reaper failed"; the requests made are those of the
    default network, the creation of the reaper and, in the second case,
    the connection; and the caller's label map is as it was, the
    reaper's labels being merged only once the connection stands. *)
Theorem CreateContainer_reaper_failure D bridge req st :
  allocated (heap st) (req_Labels req) ->
  req_SkipReaper req = false ->
  (ensureDefaultNetwork D bridge st).1 = inr tt ->
  let st1 := (ensureDefaultNetwork D bridge st).2 in
  let sid := uuid_New D (length (requests st1)) in
  let out := CreateContainer D bridge req st in
  (forall e, NewReaper D (length (requests st1)) sid (req_ReaperImage req) = inl e ->
     out.1 = inl (e ++ ": creating reaper failed")%string /\
     requests out.2 = requests st1 ++ [NewReaper_call sid (req_ReaperImage req)] /\
     forall l, req_Labels req = Some l -> heap out.2 !! l = heap st !! l) /\
  (forall r e, NewReaper D (length (requests st1)) sid (req_ReaperImage req) = inr r ->
     Connect D (S (length (requests st1))) r = inl e ->
     out.1 = inl (e ++ ": connecting to reaper failed")%string /\
     requests out.2 = requests st1 ++ [NewReaper_call sid (req_ReaperImage req);
                                       Connect_call (SessionID r)] /\
     forall l, req_Labels req = Some l -> heap out.2 !! l = heap st !! l).
Proof.
  intros Hwf Hskip Hens. cbv zeta.
  pose proof (CreateContainer_anatomy D bridge req st Hwf) as HA. cbv zeta in HA.
  rewrite Hens, Hskip in HA. destruct HA as (l & Hl & HA).
  assert (forall l0, req_Labels req = Some l0 ->
            <[l := deref (heap st) (req_Labels req)]> (heap (ensureDefaultNetwork D bridge st).2)
              !! l0 = heap st !! l0) as Hsame.
  { intros l0 Hl0. destruct Hl as [Hl | [Hl _]]; [|congruence].
    assert (l0 = l) as -> by congruence.
    rewrite lookup_insert_eq, Hl. rewrite Hl in Hwf. destruct Hwf as [own Hown].
    unfold deref. rewrite Hown. reflexivity. }
  split.
  - intros e He. rewrite He in HA. rewrite HA. cbn [fst snd asked requests heap].
    auto.
  - intros r e Hr He. rewrite Hr, He in HA. rewrite HA. cbn [fst snd asked requests heap].
    auto.
Qed.

Lemma CreateContainer_reaper_failure_witness :
  let own : gmap string string := {[ "app" := "shop" ]} in
  let sid := "6ba7b810-9dad-11d1-80b4-00c04fd430c8" in
  let out := CreateContainer unreachable_reaper "bridge" (sample_request (Some 0) false)
                             (sample_state own) in
  out.1 = inl "dial tcp: connection refused: connecting to reaper failed" /\
  requests out.2 = [NetworkList_req; NewReaper_call sid ""; Connect_call sid] /\
  forall l, Some 0 = Some l -> heap out.2 !! l = heap (sample_state own) !! l.
Proof.
  cbv zeta.
  refine (proj2 (CreateContainer_reaper_failure unreachable_reaper "bridge"
                   (sample_request (Some 0) false)
                   (sample_state {[ "app" := "shop" ]}) (ex_intro _ _ eq_refl) eq_refl eq_refl)
                {| SessionID := "6ba7b810-9dad-11d1-80b4-00c04fd430c8" |}
                "dial tcp: connection refused" eq_refl eq_refl).
Defined.

Lemma CreateContainer_rest_success D req sid ts st0 c :
  (CreateContainer_rest D req sid ts st0).1 = inr c ->
  isRunning c = false /\ consumers c = [] /\ stopProducer c = Some (make_chan 0) /\
  WaitingFor c = req_WaitingFor req /\ skipReaper c = req_SkipReaper req /\
  sessionID c = sid /\ terminationSignal c = ts /\
  heap (CreateContainer_rest D req sid ts st0).2 = heap st0 /\
  exists pre cfg labels post,
    requests (CreateContainer_rest D req sid ts st0).2
      = pre ++ ContainerCreate_req cfg (req_Name req) labels :: post /\
    ContainerCreate D (length pre) cfg (req_Name req) labels = inr (ID c) /\
    cfg_Image cfg = Image c /\ Forall after_create post.
Proof.
  intros Hc.
  destruct (CreateContainer_rest_shape D req sid ts st0)
    as (evs_a & HFa & [(e & Hx & _) | (tag & evs_b & Hst & HFb & Hok)]); [congruence|].
  destruct (Hok c Hc) as [Hid Hrec]. rewrite Hst.
  rewrite Hrec at 1 2 3 4 5 6 7. cbn [isRunning consumers stopProducer WaitingFor skipReaper
                                       sessionID terminationSignal asked heap requests].
  do 8 (split; [reflexivity|]).
  exists (requests st0 ++ evs_a), {| cfg_Image := tag; cfg_Labels := req_Labels req |},
    (deref (heap st0) (req_Labels req)), evs_b.
  rewrite <- app_assoc. repeat split; auto.
  rewrite Hrec. reflexivity.
Qed.

Lemma CreateContainer_created D bridge req st c :
  allocated (heap st) (req_Labels req) ->
  (CreateContainer D bridge req st).1 = inr c ->
  isRunning c = false /\ WaitingFor c = req_WaitingFor req /\
  exists pre cfg labels post,
    requests (CreateContainer D bridge req st).2
      = pre ++ ContainerCreate_req cfg (req_Name req) labels :: post /\
    ContainerCreate D (length pre) cfg (req_Name req) labels = inr (ID c).
Proof.
  intros Hwf Hc.
  pose proof (CreateContainer_anatomy D bridge req st Hwf) as HA. cbv zeta in HA.
  destruct ((ensureDefaultNetwork D bridge st).1) as [e | []]; [rewrite HA in Hc; discriminate|].
  destruct HA as (l & _ & HA).
  assert (forall req' sid ts st2,
            CreateContainer D bridge req st = CreateContainer_rest D req' sid ts st2 ->
            req_Name req' = req_Name req -> req_WaitingFor req' = req_WaitingFor req ->
            isRunning c = false /\ WaitingFor c = req_WaitingFor req /\
            exists pre cfg labels post,
              requests (CreateContainer D bridge req st).2
                = pre ++ ContainerCreate_req cfg (req_Name req) labels :: post /\
              ContainerCreate D (length pre) cfg (req_Name req) labels = inr (ID c)) as Hrest.
  { intros req' sid ts st2 HC Hname Hwait. rewrite HC in Hc |- *.
    destruct (CreateContainer_rest_success D req' sid ts st2 c Hc)
      as (H1 & _ & _ & H4 & _ & _ & _ & _ & pre & cfg & labels & post & H9 & H10 & _).
    rewrite <- Hname, <- Hwait. eauto 10. }
  destruct (req_SkipReaper req); [exact (Hrest _ _ _ _ HA eq_refl eq_refl)|].
  destruct (NewReaper D _ _ _) as [e | r]; [rewrite HA in Hc; discriminate|].
  destruct (Connect D _ r) as [e | ts]; [rewrite HA in Hc; discriminate|].
  exact (Hrest _ _ _ _ HA eq_refl eq_refl).
Qed.

(** The container [CreateContainer] returns.  Its ID is what the engine
    answered to the one create request, made for the name of the request
    and the image the container records; it is not running, has no
    consumers and owns a fresh unbuffered stop channel; its session id
    is the uuid drawn after the default network was settled; it waits
    for what the request waits for.  Without [SkipReaper] its
    termination signal is the channel of the reaper's connection, and
    the label map of the caller has been written: it now holds the
    request's labels completed by the reaper's. *)
Theorem CreateContainer_returns D bridge req st c :
  allocated (heap st) (req_Labels req) ->
  (CreateContainer D bridge req st).1 = inr c ->
  let st1 := (ensureDefaultNetwork D bridge st).2 in
  let out := CreateContainer D bridge req st in
  isRunning c = false /\ consumers c = [] /\ stopProducer c = Some (make_chan 0) /\
  WaitingFor c = req_WaitingFor req /\ skipReaper c = req_SkipReaper req /\
  sessionID c = uuid_New D (length (requests st1)) /\
  (exists pre cfg labels post,
     requests out.2 = pre ++ ContainerCreate_req cfg (req_Name req) labels :: post /\
     ContainerCreate D (length pre) cfg (req_Name req) labels = inr (ID c) /\
     cfg_Image cfg = Image c /\ Forall after_create post) /\
  (req_SkipReaper req = true -> terminationSignal c = None) /\
  (req_SkipReaper req = false ->
   exists r ts,
     NewReaper D (length (requests st1)) (sessionID c) (req_ReaperImage req) = inr r /\
     Connect D (S (length (requests st1))) r = inr ts /\
     terminationSignal c = Some ts /\
     forall l, req_Labels req = Some l ->
       heap out.2 !! l = Some (deref (heap st) (req_Labels req) ∪ Labels D r)).
Proof.
  intros Hwf Hc. cbv zeta.
  pose proof (CreateContainer_anatomy D bridge req st Hwf) as HA. cbv zeta in HA.
  destruct ((ensureDefaultNetwork D bridge st).1) as [e | []] eqn:Hens.
  { rewrite HA in Hc. discriminate. }
  destruct HA as (l & Hl & HA).
  destruct (req_SkipReaper req) eqn:Hskip.
  { rewrite HA in Hc |- *.
    destruct (CreateContainer_rest_success _ _ _ _ _ c Hc)
      as (H1 & H2 & H3 & H4 & H5 & H6 & H7 & _ & H9).
    cbn [with_Networks_Labels req_Name req_WaitingFor req_SkipReaper] in *.
    rewrite Hskip in H5.
    repeat (split; [assumption|]). split; [auto | discriminate]. }
  destruct (NewReaper D _ _ _) as [e | r] eqn:Hr; [rewrite HA in Hc; discriminate|].
  destruct (Connect D _ r) as [e | ts] eqn:Hts; [rewrite HA in Hc; discriminate|].
  rewrite HA in Hc |- *.
  destruct (CreateContainer_rest_success _ _ _ _ _ c Hc)
    as (H1 & H2 & H3 & H4 & H5 & H6 & H7 & H8 & H9).
  cbn [with_Networks_Labels req_Name req_WaitingFor req_SkipReaper] in *.
  rewrite Hskip in H5.
  repeat (split; [assumption|]). split; [discriminate|].
  intros _. exists r, ts. rewrite H6. repeat split; auto.
  intros l0 Hl0. rewrite H8. cbn [heap].
  destruct Hl as [Hl | [Hl _]]; [|congruence].
  assert (l0 = l) as -> by congruence. apply lookup_insert_eq.
Qed.

Lemma CreateContainer_returns_witness :
  let own : gmap string string := {[ "app" := "shop" ]} in
  let req := sample_request (Some 0) false in
  let st := sample_state own in
  let c := {| ID := "0123456789abcdef"; WaitingFor := None; Image := "nginx";
              isRunning := false; imageWasBuilt := false;
              sessionID := "6ba7b810-9dad-11d1-80b4-00c04fd430c8";
              terminationSignal := Some (make_chan 0); skipReaper := false;
              consumers := []; stopProducer := Some (make_chan 0) |} in
  let st1 := (ensureDefaultNetwork sample_docker "bridge" st).2 in
  let out := CreateContainer sample_docker "bridge" req st in
  out.1 = inr c /\
  exists r ts,
     NewReaper sample_docker (length (requests st1)) (sessionID c) "" = inr r /\
     Connect sample_docker (S (length (requests st1))) r = inr ts /\
     terminationSignal c = Some ts /\
     forall l, Some 0 = Some l ->
       heap out.2 !! l = Some (deref (heap st) (Some 0) ∪ Labels sample_docker r).
Proof.
  cbv zeta. split; [reflexivity|].
  refine (proj2 (proj2 (proj2 (proj2 (proj2 (proj2 (proj2 (proj2
            (CreateContainer_returns sample_docker "bridge" (sample_request (Some 0) false)
               (sample_state {[ "app" := "shop" ]}) _ (ex_intro _ _ eq_refl) eq_refl))))))))
            eq_refl).
Defined.

(** ** The loops of [CreateContainer] *)

Lemma connectNetworks_run D id : forall networks st x st',
  connectNetworks D id networks st = (x, st') ->
  exists evs,
    st' = asked st evs /\
    inspected evs `prefix_of` networks /\
    (forall nid id', In (NetworkConnect_req nid id') evs -> id' = id) /\
    (x = inr tt -> inspected evs = networks) /\
    (forall e, x = inl e ->
       exists pre nid, evs = pre ++ [NetworkConnect_req nid id] /\
                       NetworkConnect D (length (requests st ++ pre)) nid id = Some e).
Proof.
  induction networks as [| n rest IH]; intros st x st' H.
  { inversion H; subst. exists []. rewrite asked_nil. cbn.
    repeat split; auto; try discriminate. intros ? ? []. }
  cbn [connectNetworks] in H. unfold bind at 1, request at 1 in H. cbn [fst snd] in H.
  destruct (NetworkInspect D (length (requests st)) n) as [e0 | networkID].
  { apply (IH (asked st [NetworkInspect_req n])) in H
      as (evs & Hst & Hpre & Hid & Hok & Herr).
    exists (NetworkInspect_req n :: evs). rewrite Hst, asked_app.
    split; [reflexivity|]. split; [|split; [|split]].
    - cbn. now apply prefix_cons.
    - intros nid id' [Heq | Hin]; [discriminate | eauto].
    - intros Hx. cbn. f_equal. auto.
    - intros e He. destruct (Herr e He) as (pre & nid & -> & Hnc).
      exists (NetworkInspect_req n :: pre), nid. split; [reflexivity|].
      cbn [asked requests] in Hnc. rewrite <- app_assoc in Hnc. exact Hnc. }
  unfold bind at 1, request at 1 in H. cbn [fst snd heap DefaultNetwork requests] in H.
  rewrite length_app in H. cbn [length] in H.
  destruct (NetworkConnect D (length (requests st) + 1) networkID id) as [e1|] eqn:Hnc.
  { unfold bind, check, fail in H. cbn [fst snd] in H. inversion H; subst x st'.
    exists [NetworkInspect_req n; NetworkConnect_req networkID id]. unfold asked.
    cbn [heap DefaultNetwork requests]. rewrite <- app_assoc.
    split; [reflexivity|]. split; [|split; [|split]].
    - cbn. apply prefix_cons, prefix_nil.
    - intros nid id' [Heq | [Heq | []]]; [discriminate | now inversion Heq].
    - discriminate.
    - intros e He. inversion He; subst e. exists [NetworkInspect_req n], networkID.
      split; [reflexivity|]. rewrite length_app. exact Hnc. }
  unfold bind at 1, check, ret in H. cbn [fst snd] in H.
  rewrite <- app_assoc in H.
  apply (IH (asked st [NetworkInspect_req n; NetworkConnect_req networkID id])) in H
    as (evs & Hst & Hpre & Hid & Hok & Herr).
  exists (NetworkInspect_req n :: NetworkConnect_req networkID id :: evs).
  rewrite Hst, asked_app. split; [reflexivity|]. split; [|split; [|split]].
  - cbn. now apply prefix_cons.
  - intros nid id' [Heq | [Heq | Hin]]; [discriminate | now inversion Heq | eauto].
  - intros Hx. cbn. f_equal. auto.
  - intros e He. destruct (Herr e He) as (pre & nid & -> & Hnc').
    exists (NetworkInspect_req n :: NetworkConnect_req networkID id :: pre), nid.
    split; [reflexivity|].
    cbn [asked requests] in Hnc'. rewrite <- app_assoc in Hnc'. exact Hnc'.
Qed.

(** The loop over [req.Networks[1:]].  It looks the networks up in the
    order of the request, each at most once, and connects the container
    and no other; a network that cannot be looked up is passed over
    without an error; the loop ends early only on a connection the
    engine refuses, which is then its last request and its error; and
    when it returns nil every network has been looked up. *)
Theorem connectNetworks_loop D id networks st :
  exists evs,
    (connectNetworks D id networks st).2 = asked st evs /\
    inspected evs `prefix_of` networks /\
    (forall nid id', In (NetworkConnect_req nid id') evs -> id' = id) /\
    ((connectNetworks D id networks st).1 = inr tt -> inspected evs = networks) /\
    (forall e, (connectNetworks D id networks st).1 = inl e ->
       exists pre nid, evs = pre ++ [NetworkConnect_req nid id] /\
                       NetworkConnect D (length (requests st ++ pre)) nid id = Some e).
Proof.
  destruct (connectNetworks D id networks st) as [x st'] eqn:H.
  exact (connectNetworks_run D id networks st x st' H).
Qed.

Lemma copyFiles_run D id : forall files st x st',
  copyFiles D id files st = (x, st') ->
  exists done,
    done `prefix_of` files /\
    st' = asked st (map (CopyToContainer_req id) done) /\
    (x = inr tt -> done = files) /\
    (forall i f, done !! i = Some f -> x = inr tt \/ S i < length done ->
       CopyFileToContainer D (length (requests st) + i) id f = None) /\
    (forall msg, x = inl msg ->
       exists pre f e,
         done = pre ++ [f] /\
         CopyFileToContainer D (length (requests st) + length pre) id f = Some e /\
         msg = ("can't copy " ++ f ++ " to container: " ++ e)%string).
Proof.
  induction files as [| f rest IH]; intros st x st' H.
  { inversion H; subst. exists []. rewrite asked_nil. cbn.
    repeat split; auto; try discriminate. }
  cbn [copyFiles] in H. unfold bind at 1, request at 1 in H. cbn [fst snd] in H.
  destruct (CopyFileToContainer D (length (requests st)) id f) as [e|] eqn:Hf.
  { unfold fail in H. inversion H; subst x st'. exists [f].
    split; [apply prefix_cons, prefix_nil|]. split; [reflexivity|].
    split; [discriminate|]. split.
    - intros i f' Hi [Hx | Hlt]; [discriminate | cbn in Hlt; lia].
    - intros msg Hmsg. inversion Hmsg; subst msg. exists [], f, e.
      cbn [length]. rewrite Nat.add_0_r. auto. }
  apply (IH (asked st [CopyToContainer_req id f])) in H
    as (done & Hpre & Hst & Hok & Hnone & Herr).
  exists (f :: done). split; [now apply prefix_cons|].
  split; [rewrite Hst, asked_app; reflexivity|].
  split; [intros Hx; f_equal; auto|]. split.
  - intros [| i] f' Hi Hc.
    + cbn in Hi. inversion Hi; subst f'. rewrite Nat.add_0_r. exact Hf.
    + cbn in Hi. cbn [asked requests] in Hnone. rewrite length_app in Hnone.
      cbn [length] in Hnone.
      replace (length (requests st) + S i) with (length (requests st) + 1 + i) by lia.
      apply Hnone; [exact Hi|]. destruct Hc as [Hc | Hc]; [auto | right; cbn in Hc; lia].
  - intros msg Hmsg. destruct (Herr msg Hmsg) as (pre & f' & e & -> & He & ->).
    exists (f :: pre), f', e. split; [reflexivity|]. split; [|reflexivity].
    cbn [asked requests] in He. rewrite length_app in He. cbn [length] in *.
    replace (length (requests st) + S (length pre))
      with (length (requests st) + 1 + length pre) by lia. exact He.
Qed.

(** The loop over [req.Files].  The files are copied in the order of
    the request, one request each, into the container just created; the
    loop stops at the first file that cannot be copied, with the error
    "can't copy <file> to container: <cause>", and copies none after it;
    it returns nil only when every file has been copied. *)
Theorem copyFiles_stops_at_first_failure D id files st :
  exists done,
    done `prefix_of` files /\
    (copyFiles D id files st).2 = asked st (map (CopyToContainer_req id) done) /\
    ((copyFiles D id files st).1 = inr tt -> done = files) /\
    (forall i f, done !! i = Some f ->
       (copyFiles D id files st).1 = inr tt \/ S i < length done ->
       CopyFileToContainer D (length (requests st) + i) id f = None) /\
    (forall msg, (copyFiles D id files st).1 = inl msg ->
       exists pre f e,
         done = pre ++ [f] /\
         CopyFileToContainer D (length (requests st) + length pre) id f = Some e /\
         msg = ("can't copy " ++ f ++ " to container: " ++ e)%string).
Proof.
  destruct (copyFiles D id files st) as [x st'] eqn:H.
  exact (copyFiles_run D id files st x st' H).
Qed.

(** ** [CreateNetwork] and [DockerNetwork.Remove] *)

(** What [CreateNetwork] hands back and what [Remove] then does with it.
    A network never comes without an error or the engine's answer: with
    a nil error the network carries the ID the engine gave to the last
    request, the name and the driver of the request and the provider,
    and [Remove] asks the engine for the removal of that ID and returns
    its answer.  With an error and a network, the network is the empty
    one, without provider, the error is the engine's answer to the
    create request, which was the last request, and [Remove] on that
    network faults on the nil provider: it signals nobody and asks the
    engine for nothing. *)
Theorem CreateNetwork_then_Remove D bridge req st NetworkRemove :
  match (CreateNetwork D bridge req st).1 with
  | (None, None) => False
  | (Some e, None) => True
  | (Some e, Some n) =>
      n = {| net_ID := ""; net_Driver := ""; net_Name := ""; net_provider := false;
             net_terminationSignal := None |} /\
      (exists pre nc labels,
          requests (CreateNetwork D bridge req st).2
            = pre ++ [NetworkCreate_req (nreq_Name req) nc labels] /\
          NetworkCreate D (length pre) (nreq_Name req) nc labels = inl e) /\
      exists msg, Remove NetworkRemove n = (Panics msg, n, [])
  | (None, Some n) =>
      (exists pre nc labels,
          requests (CreateNetwork D bridge req st).2
            = pre ++ [NetworkCreate_req (nreq_Name req) nc labels] /\
          NetworkCreate D (length pre) (nreq_Name req) nc labels = inr (net_ID n)) /\
      net_Name n = nreq_Name req /\ net_Driver n = nreq_Driver req /\
      net_provider n = true /\
      (Remove NetworkRemove n).2 = [net_ID n] /\
      (Remove NetworkRemove n).1.1 = Returns (NetworkRemove (net_ID n))
  end.
Proof.
  unfold CreateNetwork. cbv zeta.
  match goal with |- context [match ?b st with _ => _ end] =>
    destruct (b st) as [[e | [nc ts]] st1] end.
  { cbn. exact I. }
  unfold request. cbn [fst snd requests].
  destruct (NetworkCreate D (length (requests st1)) (nreq_Name req) nc
              (deref (heap st1) (nc_Labels nc))) as [e | responseID] eqn:Hnc;
    cbn [fst snd requests].
  - split; [reflexivity|]. split; [eauto|]. eexists. reflexivity.
  - split; [eauto|]. split; [reflexivity|]. split; [reflexivity|]. split; [reflexivity|].
    unfold Remove. cbn [net_ID net_terminationSignal net_provider].
    destruct (chan_try_send ts true); split; reflexivity.
Qed.

(** ** [RunContainer] *)

(** [RunContainer] as a whole.  The provider is left as
    [CreateContainer] leaves it.  A failed creation is returned as it
    is, with no container and without any call of [Start].  Otherwise
    the engine is asked to start the very ID it gave to the create
    request: when that or the wait strategy of the request fails, the
    container is returned not running, together with the error followed
    by ": could not start container"; when both succeed the container
    is returned running, with a nil error.  An ID of fewer than twelve
    bytes makes it fault instead, after the container was created and
    before the engine is asked to start it. *)
Theorem RunContainer_outcomes D cl bridge req st :
  allocated (heap st) (req_Labels req) ->
  let made := CreateContainer D bridge req st in
  let out := RunContainer D cl bridge req st in
  out.2 = made.2 /\
  (forall e, made.1 = inl e -> out.1 = (Returns (Some e), None, [])) /\
  (forall c, made.1 = inr c ->
     (exists pre cfg labels post,
        requests out.2 = pre ++ ContainerCreate_req cfg (req_Name req) labels :: post /\
        ContainerCreate D (length pre) cfg (req_Name req) labels = inr (ID c)) /\
     (String.length (ID c) < 12 ->
        exists msg, out.1 = (Panics msg, None, [])) /\
     (12 <= String.length (ID c) ->
        In (ContainerStart_req (ID c)) out.1.2 /\
        (forall e, ContainerStart cl (ID c) = Some e ->
           out.1.1 = (Returns (Some (e ++ ": could not start container")%string), Some c)) /\
        (forall s e, ContainerStart cl (ID c) = None -> req_WaitingFor req = Some s ->
           WaitUntilReady s (ID c) = Some e ->
           out.1.1 = (Returns (Some (e ++ ": could not start container")%string), Some c)) /\
        (ContainerStart cl (ID c) = None ->
         (forall s, req_WaitingFor req = Some s -> WaitUntilReady s (ID c) = None) ->
           out.1.1 = (Returns None, Some (set_isRunning true c))))) /\
  (forall c, out.1.1 = (Returns None, Some c) -> isRunning c = true) /\
  (forall e c, out.1.1 = (Returns (Some e), Some c) -> isRunning c = false).
Proof.
  intros Hwf. cbv zeta. unfold RunContainer.
  pose proof (fun c => CreateContainer_created D bridge req st c Hwf) as Hmade.
  destruct (CreateContainer D bridge req st) as [[e | c] st'] eqn:HC; cbn [fst snd] in *.
  { split; [reflexivity|]. split; [intros ? [= <-]; reflexivity|].
    split; [discriminate|]. split; intros; discriminate. }
  destruct (Hmade c eq_refl) as (Hrun & Hwait & pre & cfg & labels & post & Hreq & Hid).
  assert (forall c', (Start cl c).1.2 = c' -> c' = c \/ c' = set_isRunning true c) as Hc'.
  { intros c' <-. unfold Start. destruct (slice_to (ID c) 12); [|auto].
    destruct (ContainerStart cl (ID c)); [auto|].
    destruct (WaitingFor c) as [wfs|]; [destruct (WaitUntilReady wfs (ID c))|]; auto. }
  split.
  { destruct (Start cl c) as [[[[e|]|msg] c'] calls]; reflexivity. }
  split; [discriminate|]. split.
  { intros c0 [= <-]. split.
    { exists pre, cfg, labels, post. split; [|exact Hid].
      destruct (Start cl c) as [[[[e|]|msg] c'] calls]; exact Hreq. }
    split.
    { intros Hshort. unfold Start. rewrite slice_to_None by lia. cbn. eauto. }
    intros Hlong. unfold Start. rewrite (slice_to_Some (ID c) 12 Hlong). split; [|split; [|split]].
    - destruct (ContainerStart cl (ID c)); cbn; [auto|].
      destruct (WaitingFor c) as [wfs|]; [destruct (WaitUntilReady wfs (ID c))|]; cbn; auto.
    - intros e ->. reflexivity.
    - intros s e -> Hs' He. rewrite Hwait, Hs', He. reflexivity.
    - intros -> Hready. rewrite Hwait. destruct (req_WaitingFor req) as [wfs|]; [|reflexivity].
      rewrite (Hready wfs eq_refl). reflexivity. }
  split.
  - intros c0 H0. specialize (Hc' (Start cl c).1.2 eq_refl).
    unfold Start in *. destruct (slice_to (ID c) 12); [|discriminate].
    destruct (ContainerStart cl (ID c)); [discriminate|].
    destruct (WaitingFor c) as [wfs|]; [destruct (WaitUntilReady wfs (ID c))|];
      cbn in H0; inversion H0; reflexivity.
  - intros e c0 H0.
    unfold Start in *. destruct (slice_to (ID c) 12); [|discriminate].
    destruct (ContainerStart cl (ID c)); [cbn in H0; inversion H0; subst; exact Hrun|].
    destruct (WaitingFor c) as [wfs|]; [destruct (WaitUntilReady wfs (ID c))|];
      cbn in H0; inversion H0; subst; exact Hrun.
Qed.

Lemma RunContainer_outcomes_witness :
  let made := CreateContainer sample_docker "bridge" (sample_request None true) (sample_state ∅) in
  let out := RunContainer sample_docker sample_client "bridge" (sample_request None true)
                          (sample_state ∅) in
  out.2 = made.2 /\
  exists c, out.1.1 = (Returns None, Some c) /\ isRunning c = true /\
            ID c = "0123456789abcdef" /\ In (ContainerStart_req (ID c)) out.1.2.
Proof.
  cbv zeta.
  pose proof (RunContainer_outcomes sample_docker sample_client "bridge"
                (sample_request None true) (sample_state ∅) I) as H.
  cbv zeta in H. destruct H as (H1 & _ & H3 & H4 & _).
  split; [exact H1|].
  destruct (H3 _ eq_refl) as (_ & _ & H5).
  destruct (H5 ltac:(vm_compute; lia)) as (Hin & _ & _ & Hok).
  eexists. split; [apply Hok; [reflexivity | discriminate]|].
  split; [reflexivity|]. split; [reflexivity | exact Hin].
Defined.

(** ** [ReuseOrCreateContainer] *)

(** [ReuseOrCreateContainer] lists the containers of the request's name
    once, and not at all for the empty name.  A listing that fails is
    its error and nothing else happens; an empty listing, or an empty
    name, makes it [CreateContainer].  Otherwise the first container
    listed is taken over: nothing is created, the only requests are the
    creation and the connection of a reaper (none with [SkipReaper]),
    no label map is written, and the container returned carries the ID
    and the image of the one listed, runs exactly when its state reads
    "running", and does not count as built. *)
Theorem ReuseOrCreateContainer_cases D ContainerList bridge req st :
  let out := ReuseOrCreateContainer D ContainerList bridge req st in
  let listed := if decide (req_Name req = "") then [] else [req_Name req] in
  out.1.2 = listed /\
  (forall e, req_Name req <> "" -> ContainerList (req_Name req) = inl e ->
     out = ((inl e, listed), st)) /\
  (req_Name req = "" \/ ContainerList (req_Name req) = inr [] ->
     out = (((CreateContainer D bridge req st).1, listed), (CreateContainer D bridge req st).2)) /\
  (forall found others, req_Name req <> "" ->
     ContainerList (req_Name req) = inr (found :: others) ->
     heap out.2 = heap st /\ DefaultNetwork out.2 = DefaultNetwork st /\
     (exists evs, requests out.2 = requests st ++ evs /\ Forall reaper_call evs /\
                  (req_SkipReaper req = true -> evs = [])) /\
     forall c, out.1.1 = inr c ->
       ID c = ct_ID found /\ Image c = ct_Image found /\
       (isRunning c = true <-> ct_State found = "running") /\
       imageWasBuilt c = false /\ WaitingFor c = req_WaitingFor req /\
       (terminationSignal c = None <-> req_SkipReaper req = true)).
Proof.
  cbv zeta. unfold ReuseOrCreateContainer, findContainerByName.
  destruct (decide (req_Name req = "")) as [Hname | Hname].
  { destruct (CreateContainer D bridge req st) as [made st'].
    split; [reflexivity|]. split; [intros e H; destruct (H Hname)|].
    split; [reflexivity|]. intros found others H. destruct (H Hname). }
  destruct (ContainerList (req_Name req)) as [e | [| found others]] eqn:HL; cbn [length Nat.ltb Nat.leb].
  { split; [reflexivity|]. split; [intros ? _ [= <-]; reflexivity|].
    split; [intros [H | H]; [destruct (Hname H) | discriminate]|].
    intros ? ? _ H. discriminate. }
  { destruct (CreateContainer D bridge req st) as [made st'].
    split; [reflexivity|]. split; [intros ? _ H; discriminate|].
    split; [reflexivity|]. intros ? ? _ H. discriminate. }
  cbn [head].
  match goal with |- context [let (_, _) := ?m st in _] =>
    destruct (m st) as [made st'] eqn:HR end.
  cbn [fst snd].
  split; [reflexivity|].
  split; [intros ? _ H; discriminate|].
  split; [intros [H | H]; [destruct (Hname H) | discriminate]|].
  intros found' others' _ [= <- <-].
  unfold bind at 1, ask at 1 in HR. cbn [fst snd] in HR.
  destruct (req_SkipReaper req) eqn:Hskip; cbn [negb] in HR.
  { unfold bind, ret in HR. cbn [fst snd] in HR. inversion HR; subst made st'.
    split; [reflexivity|]. split; [reflexivity|]. split.
    - exists []. rewrite app_nil_r. auto.
    - intros c [= <-]. cbn. rewrite bool_decide_eq_true. tauto. }
  unfold bind at 1, bind at 1, request at 1 in HR. cbn [fst snd] in HR.
  destruct (NewReaper D (length (requests st)) (uuid_New D (length (requests st)))
              (req_ReaperImage req)) as [e | r]; unfold wrapped at 1 in HR.
  { unfold bind, fail in HR. cbn [fst snd] in HR. inversion HR; subst made st'.
    cbn [heap DefaultNetwork requests].
    split; [reflexivity|]. split; [reflexivity|]. split.
    - eexists. split; [reflexivity|]. split; [repeat constructor | discriminate].
    - discriminate. }
  unfold bind at 1, ret at 1 in HR. cbn [fst snd] in HR.
  unfold bind at 1, request at 1 in HR. cbn [fst snd heap DefaultNetwork requests] in HR.
  destruct (Connect D (length (requests st ++ [NewReaper_call (uuid_New D (length (requests st)))
                                                 (req_ReaperImage req)])) r) as [e | ts];
    unfold wrapped in HR.
  { unfold bind, fail in HR. cbn [fst snd] in HR. inversion HR; subst made st'.
    cbn [heap DefaultNetwork requests].
    split; [reflexivity|]. split; [reflexivity|]. split.
    - eexists. rewrite <- app_assoc. split; [reflexivity|].
      split; [repeat constructor | discriminate].
    - discriminate. }
  unfold bind, ret in HR. cbn [fst snd] in HR. inversion HR; subst made st'.
  cbn [heap DefaultNetwork requests].
  split; [reflexivity|]. split; [reflexivity|]. split.
  - eexists. rewrite <- app_assoc. split; [reflexivity|].
    split; [repeat constructor | discriminate].
  - intros c [= <-]. cbn. rewrite bool_decide_eq_true.
    repeat split; auto; discriminate.
Qed.

Lemma ReuseOrCreateContainer_cases_witness :
  exists c,
    (ReuseOrCreateContainer sample_docker sample_listing "bridge" (sample_request None false)
                            (sample_state ∅)).1.1 = inr c /\
    ID c = "89abcdef01234567" /\ Image c = "nginx:1.25" /\
    (isRunning c = true <-> "exited" = "running") /\
    imageWasBuilt c = false /\ WaitingFor c = None /\
    (terminationSignal c = None <-> false = true).
Proof.
  eexists. split; [reflexivity|].
  refine (proj2 (proj2 (proj2 (proj2 (proj2 (proj2
            (ReuseOrCreateContainer_cases sample_docker sample_listing "bridge"
               (sample_request None false) (sample_state ∅))))
            {| ct_ID := "89abcdef01234567"; ct_Image := "nginx:1.25"; ct_State := "exited" |}
            [] _ eq_refl))) _ eq_refl).
  discriminate.
Defined.

(** ** The host of the daemon *)

Lemma initContainerEnvInformation_fired env fuel p x p' :
  initContainerEnvInformation env fuel p = Some (x, p') ->
  initContainerEnvOnce p' = true /\ runningInContainer p' = runningInContainer p /\
  (x <> None -> endpointHostCache p' = endpointHostCache p /\ BindMounts p' = BindMounts p).
Proof.
  unfold initContainerEnvInformation.
  destruct (initContainerEnvOnce p) eqn:Honce.
  { intros [= <- <-]. split; [exact Honce|]. split; [reflexivity|]. intros H. now destruct H. }
  destruct (isConnectedToRemoteDaemon env) as [e | [|]].
  1, 2: intros [= <- <-]; cbn; auto.
  destruct (GetMounts env) as [e | [| hostnameMount others]].
  1, 2: intros [= <- <-]; cbn; auto.
  destruct (containerID_of env fuel hostnameMount) as [containerID|]; [|discriminate].
  destruct (decide (containerID = "")).
  { intros [= <- <-]; cbn; auto. }
  destruct (ContainerInspect env containerID) as [e | info].
  { intros [= <- <-]; cbn; auto. }
  intros [= <- <-]; cbn. split; [reflexivity|]. split; [reflexivity|].
  intros H. now destruct H.
Qed.

(** [initContainerEnvInformation] does its work once.  Whatever the
    first call returned and whatever the process finds around it later,
    a second call returns nil and changes nothing: the mounts are not
    added twice, and an error of the first call is not reported again.
    So [GetGatewayIP], after a call that failed, returns the host cached
    before, be it empty, and a nil error. *)
Theorem initContainerEnvInformation_once env fuel p x p' :
  initContainerEnvInformation env fuel p = Some (x, p') ->
  forall env' fuel',
    initContainerEnvInformation env' fuel' p' = Some (None, p') /\
    GetGatewayIP env' fuel' p' = Some (inr (endpointHostCache p'), p') /\
    (x <> None -> GetGatewayIP env fuel p = Some (inl (default "" x), p') /\
                  endpointHostCache p' = endpointHostCache p).
Proof.
  intros H env' fuel'.
  destruct (initContainerEnvInformation_fired env fuel p x p' H) as (Honce & _ & Hsame).
  assert (initContainerEnvInformation env' fuel' p' = Some (None, p')) as H2.
  { unfold initContainerEnvInformation. rewrite Honce. reflexivity. }
  split; [exact H2|]. split.
  - unfold GetGatewayIP. rewrite H2. reflexivity.
  - intros Hx. split; [|exact (proj1 (Hsame Hx))].
    unfold GetGatewayIP. rewrite H. destruct x as [e|]; [reflexivity | now destruct Hx].
Qed.

Lemma initContainerEnvInformation_once_witness :
  initContainerEnvInformation sample_surroundings 0
    {| runningInContainer := true; endpointHostCache := ""; initContainerEnvOnce := true;
       BindMounts := [] |}
  = Some (None, {| runningInContainer := true; endpointHostCache := "";
                   initContainerEnvOnce := true; BindMounts := [] |}) /\
  GetGatewayIP sample_surroundings 0
    {| runningInContainer := true; endpointHostCache := ""; initContainerEnvOnce := true;
       BindMounts := [] |}
  = Some (inr "", {| runningInContainer := true; endpointHostCache := "";
                     initContainerEnvOnce := true; BindMounts := [] |}).
Proof.
  pose proof (initContainerEnvInformation_once sample_surroundings 1 sample_provider
                (Some "failed to detect hostname mount") _ eq_refl sample_surroundings 0)
    as (H1 & H2 & _).
  exact (conj H1 H2).
Defined.

(** In a container, with the engine on a local socket and no [TC_HOST],
    [daemonHost] reports a failure to find the gateway only once: the
    call after one that returned an error returns the empty host and a
    nil error, for the [sync.Once] has fired and the cache is still
    empty. *)
Theorem daemonHost_error_only_once env fuel p e p' u :
  url_Parse_DaemonHost env = inr u -> Scheme u ∈ ["unix"; "npipe"] ->
  daemonHost env fuel p = Some (inl e, p') ->
  forall fuel', daemonHost env fuel' p' = Some (inr "", p').
Proof.
  intros Hu Hscheme H fuel'. unfold daemonHost in *. rewrite Hu in *.
  assert (Scheme u ∉ ["http"; "https"; "tcp"]) as Hnot.
  { intros Hin. set_unfold. destruct Hscheme as [Hs | [Hs | []]];
      rewrite Hs in Hin; destruct Hin as [Hin | [Hin | [Hin | []]]]; discriminate. }
  destruct (decide (endpointHostCache p <> "")) as [|Hcache]; [discriminate|].
  destruct (LookupEnv_TC_HOST env); [discriminate|].
  destruct (decide (Scheme u ∈ ["http"; "https"; "tcp"])); [contradiction|].
  destruct (decide (Scheme u ∈ ["unix"; "npipe"])); [|contradiction].
  destruct (runningInContainer p) eqn:Hrun; [|discriminate].
  destruct (initContainerEnvInformation env fuel p) as [[[err|] q]|] eqn:Hinit;
    inversion H; subst err q.
  destruct (initContainerEnvInformation_fired env fuel p _ p' Hinit) as (Honce & Hrun' & Hsame).
  destruct (Hsame ltac:(discriminate)) as [Hc _].
  assert (endpointHostCache p' = "") as Hempty.
  { rewrite Hc. destruct (decide (endpointHostCache p = "")) as [Heq | Hne]; [exact Heq|].
    destruct (Hcache Hne). }
  destruct (decide (endpointHostCache p' <> "")) as [Hne | _]; [destruct (Hne Hempty)|].
  rewrite Hrun', Hrun. unfold initContainerEnvInformation. rewrite Honce, Hempty. reflexivity.
Qed.

Lemma daemonHost_error_only_once_witness :
  daemonHost sample_surroundings 1 sample_provider
    = Some (inl "failed to detect hostname mount",
            {| runningInContainer := true; endpointHostCache := "";
               initContainerEnvOnce := true; BindMounts := [] |}) /\
  daemonHost sample_surroundings 1
    {| runningInContainer := true; endpointHostCache := ""; initContainerEnvOnce := true;
       BindMounts := [] |}
    = Some (inr "", {| runningInContainer := true; endpointHostCache := "";
                       initContainerEnvOnce := true; BindMounts := [] |}).
Proof.
  split; [reflexivity|].
  refine (daemonHost_error_only_once sample_surroundings 1 sample_provider
            "failed to detect hostname mount" _ {| Scheme := "unix"; Hostname := "" |}
            eq_refl _ eq_refl 1).
  set_solver.
Defined.

(** A host that [daemonHost] has returned is the host it returns from
    then on, when it is not empty: later calls answer from the cache and
    look neither at [TC_HOST] nor at the engine, whatever they have
    become. *)
Theorem daemonHost_answers_from_cache env fuel p h p' :
  daemonHost env fuel p = Some (inr h, p') -> h <> "" ->
  forall env' fuel', daemonHost env' fuel' p' = Some (inr h, p').
Proof.
  intros H Hh env' fuel'.
  assert (endpointHostCache p' = h) as Hc.
  { unfold daemonHost in H.
    destruct (decide (endpointHostCache p <> "")); [now inversion H|].
    destruct (LookupEnv_TC_HOST env); [now inversion H|].
    destruct (url_Parse_DaemonHost env) as [e | url]; [discriminate|].
    destruct (decide (Scheme url ∈ ["http"; "https"; "tcp"])); [now inversion H|].
    destruct (decide (Scheme url ∈ ["unix"; "npipe"])); [|discriminate].
    destruct (runningInContainer p); [|now inversion H].
    destruct (initContainerEnvInformation env fuel p) as [[[err|] q]|];
      [discriminate | now inversion H | discriminate]. }
  unfold daemonHost. rewrite Hc.
  destruct (decide (h <> "")) as [_ | Hn]; [reflexivity | destruct (Hn Hh)].
Qed.

Lemma daemonHost_answers_from_cache_witness :
  daemonHost sample_surroundings 0
    {| runningInContainer := false; endpointHostCache := "localhost";
       initContainerEnvOnce := false; BindMounts := [] |}
  = Some (inr "localhost",
          {| runningInContainer := false; endpointHostCache := "localhost";
             initContainerEnvOnce := false; BindMounts := [] |}).
Proof.
  refine (daemonHost_answers_from_cache sample_surroundings 0
            {| runningInContainer := false; endpointHostCache := "";
               initContainerEnvOnce := false; BindMounts := [] |}
            "localhost" _ eq_refl _ sample_surroundings 0).
  discriminate.
Defined.

Lemma containerID_of_match env : forall fuel path id,
  containerID_of env fuel path = Some id -> id = "" \/ MatchString env id = true.
Proof.
  induction fuel as [| fuel IH]; intros path id H; [discriminate|].
  cbn [containerID_of] in H.
  destruct (decide (path = "")); [inversion H; auto|].
  destruct (MatchString env (filepath_Base env path)) eqn:Hm; [inversion H; subst; auto|].
  exact (IH _ _ H).
Qed.

Lemma containerID_of_found env : forall fuel path id,
  (forall path, filepath_Dir env path <> "") -> path <> "" ->
  containerID_of env fuel path = Some id -> MatchString env id = true.
Proof.
  induction fuel as [| fuel IH]; intros path id Hdir Hpath H; [discriminate|].
  cbn [containerID_of] in H.
  destruct (decide (path = "")); [contradiction|].
  destruct (MatchString env (filepath_Base env path)) eqn:Hm; [inversion H; subst; auto|].
  exact (IH _ _ Hdir (Hdir path) H).
Qed.

(** The search for the container ID in the root of the hostname mount
    goes from a directory to its parent until the path is empty.  As
    [filepath.Dir] never returns the empty path, the search from a root
    that is not empty ends only on a directory the pattern matches:
    when none matches, [initContainerEnvInformation] does not return,
    however many rounds it is given; and the error it reports when it
    returns is never its own "failed to detect container ID" but the
    engine's answer to the inspection of a matching directory (the
    pattern not matching the empty name). *)
Theorem initContainerEnvInformation_search env p root others :
  (forall path, filepath_Dir env path <> "") ->
  initContainerEnvOnce p = false ->
  isConnectedToRemoteDaemon env = inr false ->
  GetMounts env = inr (root :: others) -> root <> "" ->
  ((forall path, MatchString env (filepath_Base env path) = false) ->
     forall fuel, initContainerEnvInformation env fuel p = None /\
                  GetGatewayIP env fuel p = None) /\
  (MatchString env "" = false ->
     forall fuel e p', initContainerEnvInformation env fuel p = Some (Some e, p') ->
       exists id, MatchString env id = true /\ ContainerInspect env id = inl e).
Proof.
  intros Hdir Honce Hlocal Hmounts Hroot. split.
  - intros Hno fuel.
    assert (forall fuel path, path <> "" -> containerID_of env fuel path = None) as Hnone.
    { clear fuel. induction fuel as [| fuel IH]; intros path Hpath; [reflexivity|].
      cbn [containerID_of]. destruct (decide (path = "")); [contradiction|].
      rewrite Hno. apply IH, Hdir. }
    assert (initContainerEnvInformation env fuel p = None) as H.
    { unfold initContainerEnvInformation.
      rewrite Honce, Hlocal, Hmounts, (Hnone fuel root Hroot). reflexivity. }
    split; [exact H|]. unfold GetGatewayIP. rewrite H. reflexivity.
  - intros Hempty fuel e p'. unfold initContainerEnvInformation.
    rewrite Honce, Hlocal, Hmounts.
    destruct (containerID_of env fuel root) as [containerID|] eqn:Hid; [|discriminate].
    pose proof (containerID_of_found env fuel root containerID Hdir Hroot Hid) as Hm.
    destruct (decide (containerID = "")) as [-> | Hne]; [congruence|].
    destruct (ContainerInspect env containerID) as [e0 | info] eqn:Hinspect; [|discriminate].
    intros [= <- <-]. eauto.
Qed.

Lemma initContainerEnvInformation_search_witness :
  initContainerEnvInformation unmatched_surroundings 64 sample_provider = None /\
  GetGatewayIP unmatched_surroundings 64 sample_provider = None.
Proof.
  refine (proj1 (initContainerEnvInformation_search unmatched_surroundings sample_provider
                   "/var/lib/docker/containers" [] _ eq_refl eq_refl eq_refl _) _ 64).
  - discriminate.
  - discriminate.
  - reflexivity.
Defined.

(** ** [Logs] *)

Lemma Logs_goroutine_pieces accepted (Hacc : forall i, accepted i = true) :
  forall pieces final rest n,
  exists n',
    written (Logs_goroutine accepted
               (map (fun piece => {| rl_line := piece; rl_isPrefix := true; rl_err := None |}) pieces
                  ++ {| rl_line := final; rl_isPrefix := false; rl_err := None |} :: rest)
               false n)
    = concat pieces ++ final ++ [x0a] ++ written (Logs_goroutine accepted rest true n').
Proof.
  induction pieces as [| piece pieces IH]; intros final rest n.
  - cbn [map app Logs_goroutine rl_line rl_isPrefix rl_err andb negb concat].
    rewrite !Hacc. cbn [negb]. exists (S (S n)). cbn [written flat_map].
    rewrite <- ?app_assoc. reflexivity.
  - cbn [map app Logs_goroutine rl_line rl_isPrefix rl_err andb negb concat].
    rewrite !Hacc. cbn [negb]. destruct (IH final rest (S n)) as [n' Hn'].
    exists n'. cbn [written flat_map]. fold (written (Logs_goroutine accepted
      (map (fun piece => {| rl_line := piece; rl_isPrefix := true; rl_err := None |}) pieces
         ++ {| rl_line := final; rl_isPrefix := false; rl_err := None |} :: rest) false (S n))).
    rewrite Hn', <- ?app_assoc. reflexivity.
Qed.

Lemma Logs_goroutine_line accepted (Hacc : forall i, accepted i = true) l rest n :
  streamHeaderSize <= length (first_piece l) ->
  exists n',
    written (Logs_goroutine accepted (in_pieces l ++ rest) true n)
    = drop streamHeaderSize (whole l) ++ [x0a] ++ written (Logs_goroutine accepted rest true n').
Proof.
  destruct l as [[| piece pieces] final]; unfold first_piece, in_pieces, whole;
    cbn [fst snd]; intros Hlen.
  - cbn [map app Logs_goroutine rl_line rl_isPrefix rl_err negb concat].
    rewrite !Hacc. cbn [negb andb].
    destruct (Nat.leb_spec streamHeaderSize (length final)) as [_ | Hlt]; [|lia].
    exists (S (S n)). cbn [written flat_map]. rewrite <- ?app_assoc. reflexivity.
  - cbn [map app Logs_goroutine rl_line rl_isPrefix rl_err negb concat].
    rewrite !Hacc. cbn [negb andb].
    destruct (Nat.leb_spec streamHeaderSize (length piece)) as [_ | Hlt]; [|lia].
    rewrite <- app_assoc. cbn [app].
    destruct (Logs_goroutine_pieces accepted Hacc pieces final rest (S n)) as [n' Hn'].
    exists n'. cbn [written flat_map].
    fold (written (Logs_goroutine accepted
      (map (fun piece => {| rl_line := piece; rl_isPrefix := true; rl_err := None |}) pieces
         ++ {| rl_line := final; rl_isPrefix := false; rl_err := None |} :: rest) false (S n))).
    rewrite Hn'. rewrite <- (app_assoc piece). rewrite drop_app_le by exact Hlen.
    rewrite <- ?app_assoc. reflexivity.
Qed.

(** What a reader of [Logs] gets.  When [ReadLine] returns the lines of
    the stream, whole or in pieces, and then an error, as at the end of
    the stream, and every line begins with a piece of eight bytes or
    more, the bytes written to the pipe are the lines without their
    first eight bytes, each followed by a newline, and one more newline
    at the end; the header is cut from the first piece of a line only.
    The request asks for both outputs and does not follow them. *)
Theorem Logs_strips_each_line ContainerLogs accepted id lines e :
  (forall i, accepted i = true) ->
  Forall (fun l => streamHeaderSize <= length (first_piece l)) lines ->
  (forall options,
      ContainerLogs id options
      = inr (flat_map in_pieces lines
               ++ [{| rl_line := []; rl_isPrefix := false; rl_err := Some e |}])) ->
  let out := Logs ContainerLogs accepted id in
  out.1.1 = None /\
  out.1.2 = {| ShowStdout := true; ShowStderr := true; Follow := false; Since := "" |} /\
  written out.2
    = flat_map (fun l => drop streamHeaderSize (whole l) ++ [x0a]) lines ++ [x0a] /\
  last out.2 = Some (pw_CloseWithError e).
Proof.
  intros Hacc Hlines Hlogs. cbv zeta. unfold Logs. rewrite Hlogs. clear Hlogs. cbn [fst snd].
  split; [reflexivity|]. split; [reflexivity|].
  generalize 0 as n. induction Hlines as [| l lines Hl _ IH]; intros n.
  - cbn. rewrite !Hacc. cbn. auto.
  - cbn [flat_map]. rewrite <- app_assoc.
    destruct (Logs_goroutine_line accepted Hacc l
                (flat_map in_pieces lines
                   ++ [{| rl_line := []; rl_isPrefix := false; rl_err := Some e |}]) n Hl)
      as [n' Hn'].
    split.
    + rewrite Hn'. rewrite (proj1 (IH n')), <- !app_assoc. reflexivity.
    + clear Hn'. revert n. destruct l as [pieces final]. unfold in_pieces. cbn [fst snd].
      assert (forall b n, last (Logs_goroutine accepted
                 ((map (fun piece => {| rl_line := piece; rl_isPrefix := true; rl_err := None |})
                       pieces ++ [{| rl_line := final; rl_isPrefix := false; rl_err := None |}])
                    ++ flat_map in_pieces lines
                    ++ [{| rl_line := []; rl_isPrefix := false; rl_err := Some e |}]) b n)
                = Some (pw_CloseWithError e)) as Hlast.
      { clear Hl. induction pieces as [| piece pieces IHp]; intros b m.
        - cbn [map app Logs_goroutine rl_line rl_isPrefix rl_err negb].
          rewrite !Hacc. cbn [negb].
          rewrite !last_cons, (proj2 (IH (S (S m)))). reflexivity.
        - cbn [map app Logs_goroutine rl_line rl_isPrefix rl_err negb].
          rewrite !Hacc. cbn [negb]. rewrite last_cons, IHp. reflexivity. }
      intros n. apply Hlast.
Qed.

Lemma Logs_strips_each_line_witness :
  written (Logs sample_ContainerLogs (fun _ => true) "0123456789abcdef").2
  = [x68; x69; x0a; x6f; x6b; x0a; x0a] /\
  last (Logs sample_ContainerLogs (fun _ => true) "0123456789abcdef").2
  = Some (pw_CloseWithError "EOF").
Proof.
  pose proof (Logs_strips_each_line sample_ContainerLogs (fun _ => true) "0123456789abcdef"
                sample_lines "EOF" (fun _ => eq_refl)) as H.
  cbv zeta in H. destruct H as (_ & _ & Hw & Hl).
  - repeat constructor.
  - reflexivity.
  - split; [exact Hw | exact Hl].
Defined.

(** Whatever [ReadLine] returns and whichever writes the pipe refuses,
    every call the goroutine of [Logs] makes on the pipe comes after
    writes only, all of them accepted: it makes no call after a write
    that failed, and closes the pipe at most once, as its last call. *)
Theorem Logs_goroutine_calls accepted : forall results lineStarted n i c,
  Logs_goroutine accepted results lineStarted n !! i = Some c ->
  forall j, j < i ->
    accepted (n + j) = true /\
    exists b, Logs_goroutine accepted results lineStarted n !! j = Some (pw_Write b).
Proof.
  induction results as [| res results IH]; intros lineStarted n i c Hi j Hj; [discriminate|].
  cbn [Logs_goroutine] in *.
  set (trim := lineStarted && (streamHeaderSize <=? length (rl_line res))%nat) in *.
  set (line := if trim then drop streamHeaderSize (rl_line res) else rl_line res) in *.
  set (started := if negb (rl_isPrefix res) then true
                  else if trim then false else lineStarted) in *.
  destruct (accepted n) eqn:Hn; cbn [negb] in *.
  2: { destruct i as [| i]; [lia|]. discriminate. }
  destruct (rl_isPrefix res); cbn [negb] in *.
  - destruct (rl_err res) as [e|].
    + destruct i as [| [| i]]; [lia | | discriminate].
      assert (j = 0) as -> by lia. rewrite Nat.add_0_r. eauto.
    + destruct j as [| j]; [rewrite Nat.add_0_r; eauto|].
      destruct i as [| i]; [lia|]. cbn in Hi.
      destruct (IH _ _ _ _ Hi j ltac:(lia)) as [Ha Hb].
      replace (n + S j) with (S n + j) by lia. split; [exact Ha|]. exact Hb.
  - destruct (accepted (S n)) eqn:Hn1; cbn [negb] in *.
    2: { destruct i as [| [| i]]; [lia | | discriminate].
         assert (j = 0) as -> by lia. rewrite Nat.add_0_r. eauto. }
    destruct (rl_err res) as [e|].
    + destruct j as [| [| j]];
        [rewrite Nat.add_0_r; eauto | rewrite Nat.add_1_r; eauto|].
      destruct i as [| [| [| i]]]; [lia | lia | lia | discriminate].
    + destruct j as [| [| j]];
        [rewrite Nat.add_0_r; eauto | rewrite Nat.add_1_r; eauto|].
      destruct i as [| [| i]]; [lia | lia|]. cbn in Hi.
      destruct (IH _ _ _ _ Hi j ltac:(lia)) as [Ha Hb].
      replace (n + S (S j)) with (S (S n) + j) by lia. split; [exact Ha|]. exact Hb.
Qed.

Lemma Logs_goroutine_calls_witness :
  (fun i : nat => negb (Nat.eqb i 1)) (0 + 0) = true /\
  exists b,
    Logs_goroutine (fun i : nat => negb (Nat.eqb i 1))
      [{| rl_line := [x68; x69]; rl_isPrefix := false; rl_err := None |};
       {| rl_line := []; rl_isPrefix := false; rl_err := Some "EOF" |}] true 0 !! 0
    = Some (pw_Write b).
Proof.
  exact (Logs_goroutine_calls (fun i : nat => negb (Nat.eqb i 1))
           [{| rl_line := [x68; x69]; rl_isPrefix := false; rl_err := None |};
            {| rl_line := []; rl_isPrefix := false; rl_err := Some "EOF" |}] true 0 1
           (pw_Write [x0a]) eq_refl 0 ltac:(lia)).
Defined.

(** ** [Exec] *)

Lemma Exec_poll_running X execID : forall k fuel n code,
  (forall i, i < k -> exists c, ContainerExecInspect X (n + i) execID = inr (true, c)) ->
  ContainerExecInspect X (n + k) execID = inr (false, code) ->
  k < fuel ->
  Exec_poll X execID fuel n
  = Some (inr code,
          concat (replicate k [ContainerExecInspect_req execID; Sleep 100])
            ++ [ContainerExecInspect_req execID]).
Proof.
  induction k as [| k IH]; intros fuel n code Hrun Hexit Hfuel;
    (destruct fuel as [| fuel]; [lia|]); cbn [Exec_poll].
  - rewrite Nat.add_0_r in Hexit. rewrite Hexit. reflexivity.
  - destruct (Hrun 0 ltac:(lia)) as [c Hc]. rewrite Nat.add_0_r in Hc. rewrite Hc.
    rewrite (IH fuel (S n) code).
    + reflexivity.
    + intros i Hi. destruct (Hrun (S i) ltac:(lia)) as [c' Hc'].
      exists c'. rewrite <- Hc'. f_equal. lia.
    + rewrite <- Hexit. f_equal. lia.
    + lia.
Qed.

Lemma Exec_poll_for_ever X execID :
  (forall i, exists c, ContainerExecInspect X i execID = inr (true, c)) ->
  forall fuel n, Exec_poll X execID fuel n = None.
Proof.
  intros Hrun. induction fuel as [| fuel IH]; intros n; [reflexivity|].
  cbn [Exec_poll]. destruct (Hrun n) as [c ->]. rewrite IH. reflexivity.
Qed.

(** [Exec] asks the engine about the command until it is found not
    running.  Found running [k] times and then exited, the command
    gives its exit code and the reader of the attached connection, with
    a nil error, after one creation, one attachment and [k + 1]
    inspections with a sleep of 100 milliseconds between two of them.
    A command that is always found running keeps [Exec] from
    returning. *)
Theorem Exec_polls_until_exit X id cmd execID reader :
  ContainerExecCreate X id cmd = inr execID ->
  ContainerExecAttach X execID = inr reader ->
  (forall k code fuel,
     (forall i, i < k -> exists c, ContainerExecInspect X i execID = inr (true, c)) ->
     ContainerExecInspect X k execID = inr (false, code) ->
     k < fuel ->
     Exec X fuel id cmd
     = Some ((code, Some reader, None),
             [ContainerExecCreate_req id cmd; ContainerExecAttach_req execID]
               ++ concat (replicate k [ContainerExecInspect_req execID; Sleep 100])
               ++ [ContainerExecInspect_req execID])) /\
  ((forall i, exists c, ContainerExecInspect X i execID = inr (true, c)) ->
   forall fuel, Exec X fuel id cmd = None).
Proof.
  intros Hcreate Hattach. split.
  - intros k code fuel Hrun Hexit Hfuel. unfold Exec. rewrite Hcreate, Hattach.
    rewrite (Exec_poll_running X execID k fuel 0 code); auto.
  - intros Hrun fuel. unfold Exec.
    rewrite Hcreate, Hattach, (Exec_poll_for_ever X execID Hrun). reflexivity.
Qed.

Lemma Exec_polls_until_exit_witness :
  Exec sample_exec 5 "0123456789abcdef" ["ls"]
  = Some ((3%Z, Some 7, None),
          [ContainerExecCreate_req "0123456789abcdef" ["ls"]; ContainerExecAttach_req "exec-1";
           ContainerExecInspect_req "exec-1"; Sleep 100;
           ContainerExecInspect_req "exec-1"; Sleep 100;
           ContainerExecInspect_req "exec-1"]).
Proof.
  refine (proj1 (Exec_polls_until_exit sample_exec "0123456789abcdef" ["ls"] "exec-1" 7
                   eq_refl eq_refl) 2 3%Z 5 _ eq_refl _).
  - intros [| [| i]] Hi; [exists 3%Z; reflexivity | exists 3%Z; reflexivity | lia].
  - lia.
Defined.

(** An error of the creation, of the attachment or of an inspection is
    what [Exec] returns, with exit code 0 and no reader; after a failed
    creation nothing is attached, and after a failed attachment nothing
    is inspected. *)
Theorem Exec_errors X fuel id cmd code reader e calls :
  Exec X fuel id cmd = Some ((code, reader, Some e), calls) ->
  code = 0%Z /\ reader = None /\
  (ContainerExecCreate X id cmd = inl e /\ calls = [ContainerExecCreate_req id cmd] \/
   exists execID, ContainerExecCreate X id cmd = inr execID /\
     (ContainerExecAttach X execID = inl e /\
      calls = [ContainerExecCreate_req id cmd; ContainerExecAttach_req execID] \/
      exists n, ContainerExecInspect X n execID = inl e /\
                last calls = Some (ContainerExecInspect_req execID))).
Proof.
  unfold Exec. destruct (ContainerExecCreate X id cmd) as [e0 | execID] eqn:Hc.
  { intros [= <- <- <- <-]. auto. }
  destruct (ContainerExecAttach X execID) as [e0 | rd] eqn:Ha.
  { intros [= <- <- <- <-]. split; [reflexivity|]. split; [reflexivity|]. right. eauto. }
  destruct (Exec_poll X execID fuel 0) as [[[e0 | exitCode] polled]|] eqn:Hp; [|discriminate..].
  intros [= <- <- <- <-]. split; [reflexivity|]. split; [reflexivity|]. right.
  exists execID. split; [reflexivity|]. right.
  assert (forall fuel n polled, Exec_poll X execID fuel n = Some (inl e0, polled) ->
            (exists m, ContainerExecInspect X m execID = inl e0) /\
            last polled = Some (ContainerExecInspect_req execID)) as Hpoll.
  { clear. induction fuel as [| fuel IH]; intros n polled H; [discriminate|].
    cbn [Exec_poll] in H.
    destruct (ContainerExecInspect X n execID) as [e1 | [[|] c]] eqn:Hi.
    - inversion H; subst. eauto.
    - destruct (Exec_poll X execID fuel (S n)) as [[x calls]|] eqn:Hrec; [|discriminate].
      inversion H; subst. destruct (IH _ _ Hrec) as [Hm Hl]. split; [exact Hm|].
      rewrite !last_cons, Hl. reflexivity.
    - discriminate. }
  destruct (Hpoll _ _ _ Hp) as [[m Hm] Hl]. exists m. split; [exact Hm|].
  rewrite !last_cons, Hl. reflexivity.
Qed.

Lemma Exec_errors_witness :
  Exec refusing_exec 0 "0123456789abcdef" ["ls"]
    = Some ((0%Z, None, Some "No such container"),
            [ContainerExecCreate_req "0123456789abcdef" ["ls"]]) /\
  0%Z = 0%Z /\ (None : option nat) = None.
Proof.
  split; [reflexivity|].
  pose proof (Exec_errors refusing_exec 0 "0123456789abcdef" ["ls"] 0%Z None
                "No such container" [ContainerExecCreate_req "0123456789abcdef" ["ls"]]
                eq_refl) as (H1 & H2 & _).
  exact (conj H1 H2).
Defined.

(** ** [State] *)

(** [State] when the engine refuses the inspection.  On a container
    that was never inspected with success it faults, the raw inspection
    being nil; after a call that succeeded it returns, with the error,
    the state that call returned, which may be out of date; and the raw
    inspection is left as it was. *)
Theorem State_after_failure answer raw state raw1 :
  State answer raw = (State_returns state None, raw1) ->
  forall e,
    State (inl e) raw1 = (State_returns state (Some e), raw1) /\
    State (inl e) None = (State_faults, None) /\
    exists inspect, answer = inr inspect /\ raw1 = Some inspect.
Proof.
  unfold State, inspectRawContainer. destruct answer as [e0 | inspect].
  { destruct (json_State raw); discriminate. }
  destruct (json_State (Some inspect)) as [s|] eqn:Hs; [|discriminate].
  intros [= <- <-] e. rewrite Hs. eauto.
Qed.

Lemma State_after_failure_witness :
  let inspect := {| json_Base := Some {| base_State := Some {| st_Status := "running";
                                                                st_Running := true |} |} |} in
  State (inl "connection refused") (Some inspect)
  = (State_returns (Some {| st_Status := "running"; st_Running := true |})
                   (Some "connection refused"), Some inspect).
Proof.
  exact (proj1 (State_after_failure
                  (inr {| json_Base := Some {| base_State := Some {| st_Status := "running";
                                                                     st_Running := true |} |} |})
                  None _ _ eq_refl "connection refused")).
Defined.

(** ** [configureTC] and [NewDockerClient] *)

(** The privileged mode of the reaper, as [configureTC] settles it.
    The variable TESTCONTAINERS_RYUK_CONTAINER_PRIVILEGED decides
    whenever it is not empty: the mode is on for the text "true" and
    off for every other text, whatever the properties file says.  When
    the variable is empty the mode, like the host, the TLS flag and the
    path of the certificates in every case, is what the decoding of the
    file left, also when the decoding reports an error; and it is off,
    with an empty host, when there is no home directory or no file. *)
Theorem configureTC_ryuk_privileged P :
  let config := (configureTC P).1 in
  let ryuk := Getenv P "TESTCONTAINERS_RYUK_CONTAINER_PRIVILEGED" in
  let empty := {| tc_Host := ""; tc_TLSVerify := 0; tc_CertPath := "";
                  tc_RyukPrivileged := false |} in
  (ryuk <> "" -> tc_RyukPrivileged config = bool_decide (ryuk = "true")) /\
  ((exists e, UserHomeDir P = inl e) \/
   (exists home e, UserHomeDir P = inr home /\
      LoadFile P (filepath_Join P [home; ".testcontainers.properties"]) = inl e) ->
   tc_Host config = "" /\ tc_TLSVerify config = 0%Z /\ tc_CertPath config = "" /\
   (ryuk = "" -> config = empty) /\ (configureTC P).2 = []) /\
  (forall home properties e decoded,
     UserHomeDir P = inr home ->
     LoadFile P (filepath_Join P [home; ".testcontainers.properties"]) = inr properties ->
     Decode P properties empty = (e, decoded) ->
     tc_Host config = tc_Host decoded /\ tc_TLSVerify config = tc_TLSVerify decoded /\
     tc_CertPath config = tc_CertPath decoded /\
     (ryuk = "" -> config = decoded) /\
     ((configureTC P).2 = [] <-> e = None)).
Proof.
  cbv zeta.
  assert (forall c,
            tc_Host (applyEnvironmentConfiguration P c) = tc_Host c /\
            tc_TLSVerify (applyEnvironmentConfiguration P c) = tc_TLSVerify c /\
            tc_CertPath (applyEnvironmentConfiguration P c) = tc_CertPath c /\
            (Getenv P "TESTCONTAINERS_RYUK_CONTAINER_PRIVILEGED" = "" ->
             applyEnvironmentConfiguration P c = c) /\
            (Getenv P "TESTCONTAINERS_RYUK_CONTAINER_PRIVILEGED" <> "" ->
             tc_RyukPrivileged (applyEnvironmentConfiguration P c)
             = bool_decide (Getenv P "TESTCONTAINERS_RYUK_CONTAINER_PRIVILEGED" = "true")))
    as Happly.
  { intros c. unfold applyEnvironmentConfiguration.
    destruct (decide (Getenv P "TESTCONTAINERS_RYUK_CONTAINER_PRIVILEGED" <> "")) as [Hne | He].
    - cbn. repeat split; auto. intros Heq. destruct (Hne Heq).
    - repeat split; auto. intros Hne. destruct (He Hne). }
  unfold configureTC.
  destruct (UserHomeDir P) as [e0 | home].
  { cbn [fst snd]. split; [apply Happly|]. split.
    - intros _. destruct (Happly {| tc_Host := ""; tc_TLSVerify := 0; tc_CertPath := "";
                                    tc_RyukPrivileged := false |}) as (H1 & H2 & H3 & H4 & _).
      auto.
    - intros ? ? ? ? H. discriminate. }
  destruct (LoadFile P (filepath_Join P [home; ".testcontainers.properties"]))
    as [e1 | properties] eqn:HL.
  { cbn [fst snd]. split; [apply Happly|]. split.
    - intros _. destruct (Happly {| tc_Host := ""; tc_TLSVerify := 0; tc_CertPath := "";
                                    tc_RyukPrivileged := false |}) as (H1 & H2 & H3 & H4 & _).
      auto.
    - intros ? ? ? ? [= <-] H. congruence. }
  destruct (Decode P properties _) as [[e2|] decoded] eqn:Hd; cbn [fst snd].
  - split; [apply Happly|]. split.
    + intros [[e H] | (h & e & [= <-] & H')]; congruence.
    + intros home' properties' e decoded' [= <-] HL' Hd'.
      rewrite HL in HL'. inversion HL'; subst properties'.
      rewrite Hd in Hd'. inversion Hd'; subst e decoded'.
      destruct (Happly decoded) as (H1 & H2 & H3 & H4 & _).
      repeat split; auto; discriminate.
  - split; [apply Happly|]. split.
    + intros [[e H] | (h & e & [= <-] & H')]; congruence.
    + intros home' properties' e decoded' [= <-] HL' Hd'.
      rewrite HL in HL'. inversion HL'; subst properties'.
      rewrite Hd in Hd'. inversion Hd'; subst e decoded'.
      destruct (Happly decoded) as (H1 & H2 & H3 & H4 & _).
      repeat split; auto.
Qed.

Lemma configureTC_ryuk_privileged_witness :
  tc_RyukPrivileged (configureTC sample_process).1 = bool_decide ("TRUE" = "true").
Proof.
  refine (proj1 (configureTC_ryuk_privileged sample_process) _). discriminate.
Defined.

(** The host [NewDockerClient] settles on and the options the client is
    made with.  The host of the configuration comes first, then the
    variable DOCKER_HOST, then the local socket, so that the host
    returned with a client is never empty.  The client is made from the
    environment in every case; it is given the host only when the host
    is that of the configuration, and the certificates only when, in
    addition, the TLS flag of the configuration is 1.  When the client
    cannot be made, the error comes alone: no client, the empty host
    and the empty configuration. *)
Theorem NewDockerClient_host P NewClientWithOpts :
  let tcConfig := (configureTC P).1 in
  let out := NewDockerClient P NewClientWithOpts in
  (forall e, out.2 = Some e ->
     out = (None, "", {| tc_Host := ""; tc_TLSVerify := 0; tc_CertPath := "";
                         tc_RyukPrivileged := false |}, Some e)) /\
  (out.2 = None ->
     out.1.2 = tcConfig /\ out.1.1.2 <> "" /\
     (tc_Host tcConfig <> "" -> out.1.1.2 = tc_Host tcConfig) /\
     (tc_Host tcConfig = "" -> Getenv P "DOCKER_HOST" <> "" ->
        out.1.1.2 = Getenv P "DOCKER_HOST") /\
     (tc_Host tcConfig = "" -> Getenv P "DOCKER_HOST" = "" ->
        out.1.1.2 = "unix:///var/run/docker.sock") /\
     exists opts,
       out.1.1.1 = Some opts /\ NewClientWithOpts opts = None /\ head opts = Some FromEnv /\
       (forall h, In (WithHost h) opts <-> h = tc_Host tcConfig /\ h <> "") /\
       ((exists a b c, In (WithTLSClientConfig a b c) opts) <->
        tc_Host tcConfig <> "" /\ tc_TLSVerify tcConfig = 1%Z)).
Proof.
  cbv zeta. unfold NewDockerClient.
  set (tcConfig := (configureTC P).1).
  destruct (decide (tc_Host tcConfig <> "")) as [Hhost | Hhost].
  - destruct (decide (tc_TLSVerify tcConfig = 1%Z)) as [Htls | Htls];
      cbn [app];
      match goal with |- context [NewClientWithOpts ?o] =>
        destruct (NewClientWithOpts o) as [e|] eqn:Hnew end; cbn [fst snd].
    + split; [intros ? [= <-]; reflexivity | discriminate].
    + split; [discriminate|]. intros _.
      split; [reflexivity|]. split; [exact Hhost|]. split; [reflexivity|].
      split; [intros H; destruct (Hhost H)|]. split; [intros H; destruct (Hhost H)|].
      eexists. split; [reflexivity|]. split; [exact Hnew|]. split; [reflexivity|]. split.
      * intros h. split.
        -- intros [H | [H | [H | []]]]; try discriminate. inversion H; subst. auto.
        -- intros [-> _]. right. left. reflexivity.
      * split; [auto|]. intros _. do 3 eexists. right. right. left. reflexivity.
    + split; [intros ? [= <-]; reflexivity | discriminate].
    + split; [discriminate|]. intros _.
      split; [reflexivity|]. split; [exact Hhost|]. split; [reflexivity|].
      split; [intros H; destruct (Hhost H)|]. split; [intros H; destruct (Hhost H)|].
      eexists. split; [reflexivity|]. split; [exact Hnew|]. split; [reflexivity|]. split.
      * intros h. split.
        -- intros [H | [H | []]]; try discriminate. inversion H; subst. auto.
        -- intros [-> _]. right. left. reflexivity.
      * split; [|tauto]. intros (a & b & c & [H | [H | []]]); discriminate.
  - assert (tc_Host tcConfig = "") as Hempty.
    { destruct (decide (tc_Host tcConfig = "")) as [H | H]; [exact H | destruct (Hhost H)]. }
    destruct (decide (Getenv P "DOCKER_HOST" <> "")) as [Henv | Henv];
      destruct (NewClientWithOpts [FromEnv]) as [e|] eqn:Hnew; cbn [fst snd].
    + split; [intros ? [= <-]; reflexivity | discriminate].
    + split; [discriminate|]. intros _.
      split; [reflexivity|]. split; [exact Henv|]. split; [intros H; destruct (H Hempty)|].
      split; [reflexivity|]. split; [intros _ H; destruct (Henv H)|].
      exists [FromEnv]. split; [reflexivity|]. split; [exact Hnew|]. split; [reflexivity|].
      split.
      * intros h. split; [intros [H | []]; discriminate | intros [-> H]; destruct (H Hempty)].
      * split; [intros (a & b & c & [H | []]); discriminate | intros [H _]; destruct (H Hempty)].
    + split; [intros ? [= <-]; reflexivity | discriminate].
    + split; [discriminate|]. intros _.
      split; [reflexivity|]. split; [discriminate|]. split; [intros H; destruct (H Hempty)|].
      split; [intros _ H; destruct (Henv H)|]. split; [reflexivity|].
      exists [FromEnv]. split; [reflexivity|]. split; [exact Hnew|]. split; [reflexivity|].
      split.
      * intros h. split; [intros [H | []]; discriminate | intros [-> H]; destruct (H Hempty)].
      * split; [intros (a & b & c & [H | []]); discriminate | intros [H _]; destruct (H Hempty)].
Qed.

Lemma NewDockerClient_host_witness :
  (NewDockerClient sample_process (fun _ => None)).1.1.2 = "tcp://10.0.0.5:2375" /\
  (NewDockerClient sample_process (fun _ => None)).1.1.1 = Some [FromEnv].
Proof.
  split; [|reflexivity].
  pose proof (proj2 (NewDockerClient_host sample_process (fun _ => None)) eq_refl)
    as (_ & _ & _ & H & _).
  apply H; [reflexivity | discriminate].
Defined.
